(** * OpenDocQA: the ingestion and retrieval pipeline

    A shallow embedding of [backend/db.py], [backend/embeddings.py] and
    [backend/rag_pipeline.py], and the properties of the pipeline proved
    about it.

    Numbers.  Distances, similarities and confidences are binary64 floats,
    in PostgreSQL ([float8]) as in Python and numpy; they are modelled by the
    primitive floats of the prover, which are IEEE 754 binary64 with its
    rounding, its infinities and its NaN.  The components of an embedding
    vector are finite numbers, kept as rationals [Q]; where the code computes
    on them (numpy, below) they are the binary64 numbers nearest to them.

    Collaborators.  PostgreSQL with pgvector, the embedding provider, the
    chat model, the text splitter, numpy, and the [sum] and [sort] of the
    interpreter are outside the repository.  They enter as the fields of
    classes ([Executor], [Providers], [Numpy], [PySum], [PySort]); the
    theorems hold for every instance, and concrete instances are given for
    evaluation. *)

From Stdlib Require Import ZArith QArith List String Sorted Permutation Lia Bool.
From Stdlib Require Import Floats.
From Stdlib Require DecimalString.
From stdpp Require Import gmap strings list.

Import ListNotations.
Local Open Scope string_scope.
Local Open Scope Z_scope.

(** A decimal literal of a float denotes the binary64 number nearest to it,
    as it does in Python. *)
#[local] Set Warnings "-inexact-float".

(** ** Python values, exceptions and results *)

Module Py.

(** The values a metadata dictionary ([Dict[str, Any]]) holds here. *)
Inductive pyval : Type :=
| VNone
| VBool (b : bool)
| VInt (n : Z)
| VStr (s : string).

(** The exceptions the modelled code can meet. *)
Inductive exn : Type :=
| ValueError (msg : string)
| KeyError (key : string)
| OperationalError
| DataError (msg : string)
| ProviderError (msg : string).

(** A call either returns or raises. *)
Inductive result (A : Type) : Type :=
| Ok (a : A)
| Raise (e : exn).

Arguments Ok {A} a.
Arguments Raise {A} e.

Definition bind {A B : Type} (r : result A) (k : A -> result B) : result B :=
  match r with
  | Ok a => k a
  | Raise e => Raise e
  end.

(** [str(e)] *)
Definition str_exn (e : exn) : string :=
  match e with
  | ValueError msg => msg
  | KeyError key => key
  | OperationalError => "connection to server failed"
  | DataError msg => msg
  | ProviderError msg => msg
  end.

End Py.

Export Py.

Declare Scope py_scope.
Delimit Scope py_scope with py.
Notation "x <- c1 ;; c2" := (Py.bind c1 (fun x => c2))
  (at level 100, c1 at next level, right associativity) : py_scope.

(** ** Binary64 numbers *)

Module F64.

(** PostgreSQL's order on [float8]: NaN is equal to NaN and greater than
    every number. *)
Definition float8_le (a b : float) : bool :=
  if is_nan b then true else if is_nan a then false else (a <=? b)%float.

(** [a > b] on [float8] *)
Definition float8_gt (a b : float) : bool := negb (float8_le a b).

(** [a = b] on [float8] *)
Definition float8_eq (a b : float) : bool := float8_le a b && float8_le b a.

(** [float(n)] of a count. *)
Definition of_count (n : nat) : float := of_uint63 (Uint63.of_Z (Z.of_nat n)).

(** The binary64 number nearest to a rational: the correctly rounded quotient
    of the numerator by the denominator.  A rational that is a binary64 number
    is kept as it is. *)
Definition of_Q (q : Q) : float :=
  match Qnum q with
  | Z0 => 0%float
  | Zpos n => SF2Prim (SFdiv prec emax (S754_finite false n 0) (S754_finite false (Qden q) 0))
  | Zneg n => SF2Prim (SFdiv prec emax (S754_finite true n 0) (S754_finite false (Qden q) 0))
  end.

End F64.

Export F64.

(** *** The order of binary64 numbers

    The primitive comparisons are specified on the sign, exponent and
    mantissa of their arguments; [sf_code] reads the order off them. *)

Definition sf_code (x : spec_float) : Z * Z * Z :=
  match x with
  | S754_nan => (3, 0, 0)
  | S754_infinity false => (2, 0, 0)
  | S754_infinity true => (-2, 0, 0)
  | S754_zero _ => (0, 0, 0)
  | S754_finite false m e => (1, e, Zpos m)
  | S754_finite true m e => (-1, - e, Zneg m)
  end.

Definition lex_le (a b : Z * Z * Z) : Prop :=
  a.1.1 < b.1.1 \/ (a.1.1 = b.1.1 /\ (a.1.2 < b.1.2 \/ (a.1.2 = b.1.2 /\ a.2 <= b.2))).

Lemma lex_le_refl a : lex_le a a.
Proof. unfold lex_le. lia. Qed.

Lemma lex_le_total a b : lex_le a b \/ lex_le b a.
Proof. unfold lex_le. lia. Qed.

Lemma lex_le_trans a b c : lex_le a b -> lex_le b c -> lex_le a c.
Proof. unfold lex_le. lia. Qed.

Lemma is_nan_spec (x : float) : is_nan x = true <-> Prim2SF x = S754_nan.
Proof.
  split.
  - intros H. unfold Prim2SF. destruct (is_nan x); [reflexivity | discriminate].
  - intros H. unfold is_nan. rewrite FloatAxioms.eqb_spec, H. reflexivity.
Qed.

Lemma is_nan_false_spec (x : float) : is_nan x = false <-> Prim2SF x <> S754_nan.
Proof.
  rewrite <- is_nan_spec. destruct (is_nan x); split; congruence.
Qed.

Lemma SFleb_code (x y : spec_float) :
  x <> S754_nan -> y <> S754_nan ->
  (SFleb x y = true <-> lex_le (sf_code x) (sf_code y)).
Proof.
  intros Hx Hy. unfold SFleb, SFcompare, lex_le.
  destruct x as [sx|sx| |sx mx ex], y as [sy|sy| |sy my ey]; try congruence;
    repeat match goal with s : bool |- _ => destruct s end; simpl;
    try (split; [intros _; lia | reflexivity]);
    try (split; [discriminate | lia]);
    change (PosDef.Pos.compare_cont Eq mx my) with (Pos.compare mx my);
    destruct (Z.compare_spec ex ey), (Pos.compare_spec mx my); simpl;
    split; try discriminate; try lia; try reflexivity.
Qed.

Lemma SFltb_code (x y : spec_float) :
  x <> S754_nan -> y <> S754_nan ->
  (SFltb x y = true <-> ~ lex_le (sf_code y) (sf_code x)).
Proof.
  intros Hx Hy. unfold SFltb, SFcompare, lex_le.
  destruct x as [sx|sx| |sx mx ex], y as [sy|sy| |sy my ey]; try congruence;
    repeat match goal with s : bool |- _ => destruct s end; simpl;
    try (split; [intros _; lia | reflexivity]);
    try (split; [discriminate | lia]);
    change (PosDef.Pos.compare_cont Eq mx my) with (Pos.compare mx my);
    destruct (Z.compare_spec ex ey), (Pos.compare_spec mx my); simpl;
    split; try discriminate; try lia; try reflexivity.
Qed.

Lemma leb_code (a b : float) :
  is_nan a = false -> is_nan b = false ->
  ((a <=? b)%float = true <-> lex_le (sf_code (Prim2SF a)) (sf_code (Prim2SF b))).
Proof.
  intros Ha Hb. apply is_nan_false_spec in Ha, Hb.
  rewrite FloatAxioms.leb_spec. now apply SFleb_code.
Qed.

Lemma ltb_code (a b : float) :
  is_nan a = false -> is_nan b = false ->
  ((a <? b)%float = true <-> ~ lex_le (sf_code (Prim2SF b)) (sf_code (Prim2SF a))).
Proof.
  intros Ha Hb. apply is_nan_false_spec in Ha, Hb.
  rewrite FloatAxioms.ltb_spec. now apply SFltb_code.
Qed.

Lemma float8_le_code (a b : float) :
  float8_le a b = true <-> lex_le (sf_code (Prim2SF a)) (sf_code (Prim2SF b)).
Proof.
  unfold float8_le.
  destruct (is_nan b) eqn:Hb.
  - apply is_nan_spec in Hb. rewrite Hb. split; [|reflexivity]. intros _.
    unfold lex_le.
    destruct (Prim2SF a) as [s|s| |s m e]; try destruct s; simpl; lia.
  - destruct (is_nan a) eqn:Ha.
    + apply is_nan_false_spec in Hb.
      apply is_nan_spec in Ha. rewrite Ha. split; [discriminate|].
      unfold lex_le.
      destruct (Prim2SF b) as [s|s| |s m e]; try congruence; try destruct s; simpl; lia.
    + now apply leb_code.
Qed.

Lemma float8_le_refl (a : float) : float8_le a a = true.
Proof. apply float8_le_code, lex_le_refl. Qed.

Lemma float8_le_total (a b : float) : float8_le a b = true \/ float8_le b a = true.
Proof. rewrite !float8_le_code. apply lex_le_total. Qed.

Lemma float8_le_trans (a b c : float) :
  float8_le a b = true -> float8_le b c = true -> float8_le a c = true.
Proof. rewrite !float8_le_code. apply lex_le_trans. Qed.

(** A number that PostgreSQL finds greater than another is greater in
    Python's comparison too. *)
Lemma float8_gt_ltb (a b : float) :
  float8_gt a b = true -> is_nan a = false -> (b <? a)%float = true.
Proof.
  unfold float8_gt, float8_le. rewrite negb_true_iff. intros H Ha.
  destruct (is_nan b) eqn:Hb; [discriminate|]. rewrite Ha in H.
  apply ltb_code; [assumption..|].
  intros Hle. apply (leb_code a b Ha Hb) in Hle. congruence.
Qed.


Lemma float8_le_nan_l (a b : float) :
  is_nan a = true -> float8_le a b = true -> is_nan b = true.
Proof.
  intros Ha. unfold float8_le. rewrite Ha. now destruct (is_nan b).
Qed.


Lemma is_nan_add_l (a b : float) : is_nan a = true -> is_nan (a + b) = true.
Proof.
  rewrite !is_nan_spec. intros H. rewrite FloatAxioms.add_spec, H. reflexivity.
Qed.

Lemma is_nan_add_r (a b : float) : is_nan b = true -> is_nan (a + b) = true.
Proof.
  rewrite !is_nan_spec. intros H. rewrite FloatAxioms.add_spec, H.
  unfold SF64add, SFadd. now destruct (Prim2SF a).
Qed.

Lemma is_nan_div_l (a b : float) : is_nan a = true -> is_nan (a / b) = true.
Proof.
  rewrite !is_nan_spec. intros H. rewrite FloatAxioms.div_spec, H. reflexivity.
Qed.

Lemma ltb_nan_r (a b : float) : is_nan b = true -> (a <? b)%float = false.
Proof.
  rewrite is_nan_spec. intros H. rewrite FloatAxioms.ltb_spec, H.
  unfold SFltb, SFcompare. now destruct (Prim2SF a).
Qed.

(** ** The vector store ([backend/db.py]) *)

Module Db.

(** [embedding = Column(Vector(1536))] *)
Definition EMBEDDING_DIM : nat := 1536.

(** A row of the table [documents]; the two timestamps are left out. *)
Record Document : Type := {
  id : Z;
  filename : string;
  content : string;
  doc_metadata : gmap string pyval;
  embedding : list Q
}.

(** A SQLAlchemy session: whether the server can be reached, the rows of
    [documents] in the order in which the table is scanned, and the next
    value of the id sequence.  An insert puts the new row at the end of the
    table, so that a table which has only seen the inserts of this code is
    scanned in the order of its ids; where the database has put a row
    elsewhere, the list is in another order than the ids. *)
Record Session : Type := {
  connected : bool;
  documents : list Document;
  next_id : Z
}.

(** One dictionary of the list [get_similar_documents] returns. *)
Record SimilarDocument : Type := {
  sd_id : Z;
  sd_filename : string;
  sd_content : string;
  sd_metadata : gmap string pyval;
  similarity : float
}.

(** What the statements need from PostgreSQL, pgvector and the driver: the
    cosine distance operator [<=>], a [float8] that is NaN when a vector has
    no direction; an implementation of ORDER BY; and the adaptation of a value
    that is not a string to a text column.  SQL asks of ORDER BY only that
    the rows come back sorted on the key, in the order of [float8]: rows with
    equal keys come in whatever order the executor leaves them. *)
Class Executor : Type := {
  cosine_distance : list Q -> list Q -> float;
  order_by : (Document -> float) -> list Document -> list Document;
  bind_text : pyval -> result string;
  order_by_perm : forall key rows, Permutation (order_by key rows) rows;
  order_by_sorted : forall key rows,
    StronglySorted (fun a b => float8_le (key a) (key b) = true) (order_by key rows)
}.

Section Queries.
Context {E : Executor}.

(** [1 - (embedding <=> :embedding)], a [float8] subtraction. *)
Definition similarity_to (q : list Q) (d : Document) : float :=
  (1 - cosine_distance (embedding d) q)%float.

(** [SELECT id, filename, content, doc_metadata, 1 - (embedding <=> :embedding) as similarity];
    [float(row.similarity)] is the same binary64 number. *)
Definition select_row (q : list Q) (d : Document) : SimilarDocument :=
  {| sd_id := id d;
     sd_filename := filename d;
     sd_content := content d;
     sd_metadata := doc_metadata d;
     similarity := similarity_to q d |}.

(** [db.execute(query, {...})] for the similarity query.  The statement
    fails when the server is unreachable, when LIMIT is negative, and when
    [<=>] meets two vectors of different dimensions.  WHERE compares as
    [float8] does: a similarity that is NaN is greater than the threshold. *)
Definition execute_similarity (db : Session) (q : list Q) (threshold : float) (limit : Z)
  : result (list SimilarDocument) :=
  if negb (connected db) then Raise OperationalError
  else if limit <? 0 then Raise (DataError "LIMIT must not be negative")
  else if negb (forallb (fun d => Nat.eqb (length (embedding d)) (length q)) (documents db))
  then Raise (DataError "different vector dimensions")
  else
    let matching :=
      List.filter (fun d => float8_gt (similarity_to q d) threshold) (documents db) in
    let ordered := order_by (fun d => cosine_distance (embedding d) q) matching in
    Ok (map (select_row q) (firstn (Z.to_nat limit) ordered)).

(** [get_similar_documents(db, query_embedding, limit=5, similarity_threshold=0.7)]:
    the rows of the query, or the empty list when anything raised. *)
Definition get_similar_documents (db : Session) (query_embedding : list Q)
  (limit : Z) (similarity_threshold : float) : list SimilarDocument :=
  match execute_similarity db query_embedding similarity_threshold limit with
  | Ok documents => documents
  | Raise e => []
  end.

(** The String column [filename], [nullable=False]: a [str] is stored as it
    is and [None] violates the constraint; what the driver makes of any other
    value is the executor's. *)
Definition filename_column (v : pyval) : result string :=
  match v with
  | VStr s => Ok s
  | VNone => Raise (DataError "null value in column filename")
  | other => bind_text other
  end.

(** [nextval] of the id sequence.  A value that was drawn is not given back
    by a rollback. *)
Definition nextval (db : Session) : Session :=
  {| connected := connected db; documents := documents db; next_id := next_id db + 1 |}.

(** [db.add(document); db.commit(); db.refresh(document)]: the insert of one
    row, with the session it leaves.  The driver refuses a vector that does
    not have [EMBEDDING_DIM] components, and a filename it cannot adapt, before
    the statement is sent.  The server draws the id of the row before it
    checks the row: a filename that is [None] violates NOT NULL after an id
    was drawn for it. *)
Definition insert_document (db : Session) (fname : pyval) (text : string)
  (vec : list Q) (metadata : gmap string pyval) : result Z * Session :=
  if negb (connected db) then (Raise OperationalError, db)
  else if negb (Nat.eqb (length vec) EMBEDDING_DIM)
  then (Raise (ValueError "expected 1536 dimensions"), db)
  else
    match fname, filename_column fname with
    | VNone, _ => (Raise (DataError "null value in column filename"), nextval db)
    | _, Raise e => (Raise e, db)
    | _, Ok name =>
        let document :=
          {| id := next_id db; filename := name; content := text;
             doc_metadata := metadata; embedding := vec |} in
        (Ok (next_id db),
         {| connected := connected db;
            documents := (documents db ++ [document])%list;
            next_id := next_id db + 1 |})
    end.

(** [store_document(db, filename, content, embedding, metadata=None)]: the id
    of the new row, or [None] after a rollback when anything raised.  Both
    branches return: the [except Exception] clause lets no error of the insert
    through to the caller. *)
Definition store_document (db : Session) (fname : pyval) (text : string)
  (vec : list Q) (metadata : option (gmap string pyval)) : result (option Z) * Session :=
  let metadata := match metadata with Some m => m | None => ∅ end in
  match insert_document db fname text vec metadata with
  | (Ok document_id, db') => (Ok (Some document_id), db')
  | (Raise e, db') => (Ok None, db')
  end.

End Queries.

(** The default [similarity_threshold] of [get_similar_documents], the one
    [answer_question] searches with. *)
Definition default_similarity_threshold : float := 0.7%float.

End Db.

Export Db.

(** ** The embedding service ([backend/embeddings.py]) *)

Module Embeddings.

(** The libraries behind the service and the pipeline: the embedding model
    ([embed_query], [embed_documents]), the chat model ([llm_invoke]) and
    [RecursiveCharacterTextSplitter] (its constructor's validation of
    [chunk_size] and [chunk_overlap], and [split_text]).  Of the splitter's
    constructor two facts are used: it raises [ValueError] when the overlap is
    larger than the chunk size, and it accepts a positive chunk size with an
    overlap between zero and that size, the size itself included. *)
Class Providers : Type := {
  embed_query : string -> result (list Q);
  embed_documents : list string -> result (list (list Q));
  llm_invoke : string -> result string;
  splitter_init : Z -> Z -> result unit;
  split_text : Z -> Z -> string -> result (list string);
  splitter_init_larger_overlap : forall chunk_size chunk_overlap,
    chunk_size < chunk_overlap ->
    exists msg, splitter_init chunk_size chunk_overlap = Raise (ValueError msg);
  splitter_init_accepts : forall chunk_size chunk_overlap,
    0 < chunk_size -> 0 <= chunk_overlap <= chunk_size ->
    splitter_init chunk_size chunk_overlap = Ok tt
}.

(** The heap of metadata dictionaries: a dictionary is reached through its
    index, so that two names for one dictionary see each other's updates. *)
Abbreviation Heap := (list (gmap string pyval)).

(** One [chunk_data] dictionary; ["metadata"] holds a reference. *)
Record ChunkData : Type := {
  cd_content : string;
  cd_embedding : list Q;
  cd_metadata : nat
}.

Section Service.
Context {P : Providers}.

(** [generate_embedding(text)]: the provider's vector; its error is logged
    and raised again. *)
Definition generate_embedding (text : string) : result (list Q) :=
  embed_query text.

(** [generate_embeddings_batch(texts)] *)
Definition generate_embeddings_batch (texts : list string) : result (list (list Q)) :=
  embed_documents texts.

(** [chunk_text(text, chunk_size=1000, chunk_overlap=200)]: builds the
    splitter and splits; any error is logged and raised again. *)
Definition chunk_text (text : string) (chunk_size chunk_overlap : Z) : result (list string) :=
  (splitter <- splitter_init chunk_size chunk_overlap ;;
   chunks <- split_text chunk_size chunk_overlap text ;;
   Ok chunks)%py.

(** The loop of [process_document] over [enumerate(zip(chunks, embeddings))]:
    every chunk gets a fresh metadata dictionary. *)
Fixpoint build_chunks (fname : string) (total : nat) (i : Z)
  (pairs : list (string * list Q)) (heap : Heap) : list ChunkData * Heap :=
  match pairs with
  | [] => ([], heap)
  | (chunk, vec) :: rest =>
      let metadata : gmap string pyval :=
        <["filename" := VStr fname]>
        (<["chunk_index" := VInt i]>
        (<["total_chunks" := VInt (Z.of_nat total)]>
        (<["chunk_size" := VInt (Z.of_nat (String.length chunk))]> ∅))) in
      let chunk_data :=
        {| cd_content := chunk; cd_embedding := vec; cd_metadata := length heap |} in
      let '(processed, heap') := build_chunks fname total (i + 1) rest (heap ++ [metadata])%list in
      (chunk_data :: processed, heap')
  end.

(** [process_document(content, filename)] *)
Definition process_document (heap : Heap) (text : string) (fname : string)
  : result (list ChunkData * Heap) :=
  (chunks <- chunk_text text 1000 200 ;;
   embeddings <- generate_embeddings_batch chunks ;;
   Ok (build_chunks fname (length chunks) 0 (combine chunks embeddings) heap))%py.

End Service.

(** *** [_cosine_similarity], in binary64 *)

(** What is needed from numpy: the kernel of [np.dot] on two arrays of
    [float64] of one length, the sum of the products of their components in
    the order, and with the rounding, of the library.  [np.linalg.norm] of a
    vector is the square root of its dot product with itself.  The division
    of two [float64] does not raise: by zero it gives an infinity or NaN. *)
Class Numpy : Type := {
  sum_products : list (float * float) -> float
}.

Section Cosine.
Context {N : Numpy}.

(** [np.dot(vec1, vec2)] of two one-dimensional arrays: [ValueError] when
    the shapes are not aligned. *)
Definition np_dot (vec1 vec2 : list float) : result float :=
  if Nat.eqb (length vec1) (length vec2)
  then Ok (sum_products (combine vec1 vec2))
  else Raise (ValueError "shapes not aligned").

(** [np.linalg.norm(vec)] *)
Definition np_norm (vec : list float) : float :=
  sqrt (sum_products (combine vec vec)).

(** [_cosine_similarity(vec1, vec2)]: 0.0 when either norm equals 0, the dot
    product over the product of the norms otherwise. *)
Definition _cosine_similarity (vec1 vec2 : list float) : result float :=
  (dot_product <- np_dot vec1 vec2 ;;
   let norm1 := np_norm vec1 in
   let norm2 := np_norm vec2 in
   if (norm1 =? 0)%float || (norm2 =? 0)%float then Ok 0%float
   else Ok (dot_product / (norm1 * norm2))%float)%py.

End Cosine.

End Embeddings.

Export Embeddings.

(** ** The pipeline ([backend/rag_pipeline.py]) *)

Module Rag.

#[global] Instance pyval_eq_dec : EqDecision pyval.
Proof. solve_decision. Defined.

(** One entry of ["sources"]. *)
Record Source : Type := {
  src_filename : string;
  src_content : string;
  src_similarity : float
}.

(** The dictionary [answer_question] returns; ["error"] is present only in
    the response of the exception handler. *)
Record Response : Type := {
  answer : string;
  sources : list Source;
  confidence : float;
  error : option string
}.

Definition newline : string := String (Ascii.ascii_of_nat 10) EmptyString.
Definition dquote : string := String (Ascii.ascii_of_nat 34) EmptyString.
Definition indent : string := "            ".

(** [sep.join(parts)] *)
Fixpoint join (sep : string) (parts : list string) : string :=
  match parts with
  | [] => ""
  | [part] => part
  | part :: rest => part ++ sep ++ join sep rest
  end.

(** The f-string of [answer_question]. *)
Definition make_prompt (context question : string) : string :=
  newline ++
  indent ++ "Based on the following context, please answer the question. If the answer cannot be found in the context, say "
         ++ dquote ++ "I don't have enough information to answer this question." ++ dquote ++ newline ++
  newline ++
  indent ++ "Context:" ++ newline ++
  indent ++ context ++ newline ++
  newline ++
  indent ++ "Question: " ++ question ++ newline ++
  newline ++
  indent ++ "Answer:" ++ newline ++
  indent.

(** The built-in [sum] on floats.  The interpreter decides how the numbers
    are added: CPython up to 3.11 adds them from left to right, each addition
    rounded, and CPython from 3.12 on carries a compensation of the rounding
    errors along.  Either way a NaN among the numbers makes the sum NaN. *)
Class PySum : Type := {
  py_sum : list float -> float;
  py_sum_nan : forall xs,
    Exists (fun x => is_nan x = true) xs -> is_nan (py_sum xs) = true
}.

Section Confidence.
Context {Sm : PySum}.

(** [sum(doc["similarity"] for doc in similar_docs)] *)
Definition sum_similarity (similar_docs : list SimilarDocument) : float :=
  py_sum (map similarity similar_docs).

(** [avg_similarity = sum(...) / len(similar_docs)] *)
Definition avg_similarity (similar_docs : list SimilarDocument) : float :=
  (sum_similarity similar_docs / F64.of_count (length similar_docs))%float.

(** [confidence = min(avg_similarity, 1.0)]: [min] returns its second
    argument when that is less than the first, and the first otherwise. *)
Definition compute_confidence (similar_docs : list SimilarDocument) : float :=
  if (1 <? avg_similarity similar_docs)%float then 1%float
  else avg_similarity similar_docs.

End Confidence.

(** [doc["content"][:200] + "..." if len(doc["content"]) > 200 else doc["content"]] *)
Definition excerpt (text : string) : string :=
  if (200 <? String.length text)%nat then substring 0 200 text ++ "..." else text.

Definition make_source (doc : SimilarDocument) : Source :=
  {| src_filename := sd_filename doc;
     src_content := excerpt (sd_content doc);
     src_similarity := similarity doc |}.

(** The three shapes of response. *)
Definition no_information_response : Response :=
  {| answer := "I couldn't find any relevant information to answer your question.";
     sources := [];
     confidence := 0%float;
     error := None |}.

Definition error_response (e : exn) : Response :=
  {| answer := "I encountered an error while processing your question.";
     sources := [];
     confidence := 0%float;
     error := Some (str_exn e) |}.

Definition grounded_response {Sm : PySum} (text : string)
  (similar_docs : list SimilarDocument) : Response :=
  {| answer := text;
     sources := map make_source similar_docs;
     confidence := compute_confidence similar_docs;
     error := None |}.

(** [if metadata:] *)
Definition truthy (metadata : option (gmap string pyval)) : bool :=
  match metadata with
  | Some m => negb (bool_decide (m = ∅))
  | None => false
  end.

(** [d.update(m)] on the dictionary at [ref]: the keys of [m] win. *)
Definition dict_update (heap : Heap) (ref : nat) (m : gmap string pyval) : Heap :=
  alter (fun d => m ∪ d) ref heap.

(** [d[key]] on the dictionary at [ref]. *)
Definition dict_get (heap : Heap) (ref : nat) (key : string) : result pyval :=
  match heap !! ref with
  | Some d => match d !! key with
              | Some v => Ok v
              | None => Raise (KeyError key)
              end
  | None => Raise (KeyError key)
  end.

Section Pipeline.
Context {E : Executor} {P : Providers} {Sm : PySum}.

(** The loop of [process_and_store_document].  [chunk_metadata] is the
    dictionary of [chunk_data["metadata"]] itself, not a copy: the update is
    seen by the later read of [chunk_data["metadata"]["filename"]].  The
    value [store_document] returns is not looked at. *)
Fixpoint store_chunks (db : Session) (heap : Heap)
  (metadata : option (gmap string pyval)) (processed_chunks : list ChunkData)
  : result unit * Session * Heap :=
  match processed_chunks with
  | [] => (Ok tt, db, heap)
  | chunk_data :: rest =>
      let chunk_metadata := cd_metadata chunk_data in
      let heap :=
        if truthy metadata
        then dict_update heap chunk_metadata (default ∅ metadata)
        else heap in
      match dict_get heap (cd_metadata chunk_data) "filename",
            heap !! chunk_metadata with
      | Ok fname, Some stored_metadata =>
          match store_document db fname (cd_content chunk_data)
                  (cd_embedding chunk_data) (Some stored_metadata) with
          | (Ok _, db) => store_chunks db heap metadata rest
          | (Raise e, db) => (Raise e, db, heap)
          end
      | Raise e, _ => (Raise e, db, heap)
      | _, None => (Raise (KeyError "metadata"), db, heap)
      end
  end.

(** [process_and_store_document(content, filename, metadata=None)] *)
Definition process_and_store_document (db : Session) (heap : Heap)
  (text : string) (fname : string) (metadata : option (gmap string pyval))
  : bool * Session * Heap :=
  match process_document heap text fname with
  | Raise e => (false, db, heap)
  | Ok (processed_chunks, heap) =>
      match store_chunks db heap metadata processed_chunks with
      | (Ok _, db, heap) => (true, db, heap)
      | (Raise e, db, heap) => (false, db, heap)
      end
  end.

(** [answer_question(question, top_k=5)].  [llm_log] is the list of the
    prompts sent to the chat model so far, the latest first. *)
Definition answer_question (db : Session) (llm_log : list string)
  (question : string) (top_k : Z) : Response * list string :=
  match generate_embedding question with
  | Raise e => (error_response e, llm_log)
  | Ok query_embedding =>
      let similar_docs :=
        get_similar_documents db query_embedding top_k default_similarity_threshold in
      match similar_docs with
      | [] => (no_information_response, llm_log)
      | _ :: _ =>
          let context := join (newline ++ newline) (map sd_content similar_docs) in
          let prompt := make_prompt context question in
          match llm_invoke prompt with
          | Raise e => (error_response e, prompt :: llm_log)
          | Ok text => (grounded_response text similar_docs, prompt :: llm_log)
          end
      end
  end.

(** [db.query(Document).filter(Document.filename == filename).all()] *)
Definition query_by_filename (db : Session) (fname : string) : result (list Document) :=
  if negb (connected db) then Raise OperationalError
  else Ok (List.filter (fun d => bool_decide (filename d = fname)) (documents db)).

(** [db.delete(chunk)] *)
Definition delete_row (db : Session) (chunk : Document) : Session :=
  {| connected := connected db;
     documents := List.filter (fun d => negb (id d =? id chunk)) (documents db);
     next_id := next_id db |}.

(** [delete_document(filename)] *)
Definition delete_document (db : Session) (fname : string) : bool * Session :=
  match query_by_filename db fname with
  | Raise e => (false, db)
  | Ok chunks => (true, fold_left delete_row chunks db)
  end.

End Pipeline.

End Rag.

Export Rag.

(** ** The rest of the document table ([backend/db.py]) and the listing
    ([backend/rag_pipeline.py]) *)

Module DbRows.

(** What a query without ORDER BY needs from the database: the order in which
    the rows are scanned, which SQL leaves open, and the two timestamp columns,
    read off a row. *)
Class Scan : Type := {
  scan : list Document -> list Document;
  created_at : Document -> Z;
  updated_at : Document -> Z;
  scan_perm : forall rows, Permutation (scan rows) rows
}.

(** One dictionary of the list [get_all_documents] returns. *)
Record DocumentDict : Type := {
  dd_id : Z;
  dd_filename : string;
  dd_content : string;
  dd_metadata : gmap string pyval;
  dd_created_at : Z;
  dd_updated_at : Z
}.

Section Rows.
Context {Sc : Scan}.

Definition to_dict (doc : Document) : DocumentDict :=
  {| dd_id := id doc;
     dd_filename := filename doc;
     dd_content := content doc;
     dd_metadata := doc_metadata doc;
     dd_created_at := created_at doc;
     dd_updated_at := updated_at doc |}.

(** [get_all_documents(db)]: every row, or the empty list when the query
    raised. *)
Definition get_all_documents (db : Session) : list DocumentDict :=
  if negb (connected db) then [] else map to_dict (scan (documents db)).

End Rows.

(** [delete_document(db, document_id)]: [.first()] of the rows of that id,
    deleted when there is one. *)
Definition delete_document (db : Session) (document_id : Z) : bool * Session :=
  if negb (connected db) then (false, db)
  else
    match find (fun d => id d =? document_id) (documents db) with
    | Some document => (true, delete_row db document)
    | None => (false, db)
    end.

End DbRows.

Module Listing.
Import DbRows.

(** One dictionary of the list [get_document_list] returns. *)
Record DocumentEntry : Type := {
  de_filename : string;
  chunks : Z;
  de_created_at : Z;
  de_metadata : gmap string pyval
}.

(** One turn of the loop of [get_document_list].  [unique_docs] is the
    dictionary keyed by filename, in the order its keys were inserted. *)
Definition count_chunk (unique_docs : list DocumentEntry) (doc : DocumentDict)
  : list DocumentEntry :=
  let fname := dd_filename doc in
  let unique_docs :=
    if existsb (fun e => bool_decide (de_filename e = fname)) unique_docs
    then unique_docs
    else (unique_docs ++
          [{| de_filename := fname; chunks := 0;
              de_created_at := dd_created_at doc; de_metadata := dd_metadata doc |}])%list in
  map (fun e =>
         if bool_decide (de_filename e = fname)
         then {| de_filename := de_filename e; chunks := chunks e + 1;
                 de_created_at := de_created_at e; de_metadata := de_metadata e |}
         else e)
      unique_docs.

(** [get_document_list()] *)
Definition get_document_list {Sc : Scan} (db : Session) : list DocumentEntry :=
  fold_left count_chunk (get_all_documents db) [].

End Listing.

(** ** The in-process search ([backend/embeddings.py]) *)

Module Chunks.

(** [lst[:k]] *)
Definition slice_to {A : Type} (k : Z) (l : list A) : list A :=
  if 0 <=? k then firstn (Z.to_nat k) l
  else firstn (length l - Z.to_nat (- k)) l.

(** [list.sort(key=..., reverse=True)] on keys that are floats.  Python
    returns a permutation of the list whatever the comparisons say; it promises
    the descending order only where [<] orders the keys, which it does not
    when a key is NaN. *)
Class PySort : Type := {
  sort_reverse : forall A : Type, (A -> float) -> list A -> list A;
  sort_reverse_perm : forall A key l, Permutation (sort_reverse A key l) l;
  sort_reverse_sorted : forall A key l,
    Forall (fun x => is_nan (key x) = false) l ->
    StronglySorted (fun a b => (key b <=? key a)%float = true) (sort_reverse A key l)
}.

Section Search.
Context {P : Providers} {N : Numpy} {Srt : PySort} {A : Type}.

(** [chunk["embedding"]] of a chunk dictionary, [None] when the key is
    missing. *)
Variable embedding_of : A -> option (list float).

(** The similarity of one chunk to the query, as the loop computes it. *)
Definition chunk_similarity (query_embedding : list float) (chunk : A) : result float :=
  match embedding_of chunk with
  | None => Raise (KeyError "embedding")
  | Some vec => _cosine_similarity query_embedding vec
  end.

(** The loop that fills [similarities]. *)
Fixpoint score_chunks (query_embedding : list float) (all_chunks : list A)
  : result (list (A * float)) :=
  match all_chunks with
  | [] => Ok []
  | chunk :: rest =>
      (s <- chunk_similarity query_embedding chunk ;;
       scored <- score_chunks query_embedding rest ;;
       Ok ((chunk, s) :: scored))%py
  end.

(** [get_similar_chunks(query, all_chunks, top_k=5)]: the [top_k] chunks most
    similar to the query, or the empty list when anything raised.  The
    components of the query embedding are the provider's numbers, as
    floats. *)
Definition get_similar_chunks (query : string) (all_chunks : list A) (top_k : Z) : list A :=
  match
    (query_embedding <- generate_embedding query ;;
     similarities <- score_chunks (map F64.of_Q query_embedding) all_chunks ;;
     Ok (map fst (slice_to top_k (sort_reverse _ snd similarities))))%py
  with
  | Ok chunks => chunks
  | Raise e => []
  end.

End Search.

End Chunks.

(** ** Chat sessions ([backend/db.py]) *)

Module Chat.

(** A row of [chat_sessions]. *)
Record ChatSession : Type := {
  cs_id : Z;
  cs_name : string;
  cs_created_at : Z;
  cs_updated_at : Z
}.

(** A row of [chat_messages]; [M] is the type of the JSON metadata. *)
Record ChatMessage (M : Type) : Type := {
  cm_id : Z;
  cm_session_id : Z;
  cm_role : string;
  cm_content : string;
  cm_metadata : M;
  cm_created_at : Z
}.

Arguments cm_id {M} _.
Arguments cm_session_id {M} _.
Arguments cm_role {M} _.
Arguments cm_content {M} _.
Arguments cm_metadata {M} _.
Arguments cm_created_at {M} _.

(** The two tables behind a session of the database, with the next values of
    their id sequences. *)
Record ChatStore (M : Type) : Type := {
  chat_connected : bool;
  chat_sessions : list ChatSession;
  chat_messages : list (ChatMessage M);
  next_session_id : Z;
  next_message_id : Z
}.

Arguments chat_connected {M} _.
Arguments chat_sessions {M} _.
Arguments chat_messages {M} _.
Arguments next_session_id {M} _.
Arguments next_message_id {M} _.

(** What the reads need from the database: ORDER BY updated_at DESC, which
    leaves the order of equal timestamps open, and the order in which the
    messages of a session are loaded, which the relationship does not fix. *)
Class ChatExecutor : Type := {
  order_sessions : list ChatSession -> list ChatSession;
  load_messages : forall M, list (ChatMessage M) -> list (ChatMessage M);
  order_sessions_perm : forall rows, Permutation (order_sessions rows) rows;
  order_sessions_sorted : forall rows,
    StronglySorted (fun a b => cs_updated_at b <= cs_updated_at a) (order_sessions rows);
  load_messages_perm : forall M rows, Permutation (load_messages M rows) rows
}.

(** One dictionary of [get_chat_sessions]. *)
Record SessionSummary : Type := {
  ss_id : Z;
  ss_name : string;
  ss_created_at : Z;
  ss_updated_at : Z;
  message_count : Z
}.

(** One dictionary of ["messages"] in [get_chat_session]. *)
Record MessageDict (M : Type) : Type := {
  md_id : Z;
  md_role : string;
  md_content : string;
  md_metadata : M;
  md_created_at : Z
}.

Arguments md_id {M} _.
Arguments md_role {M} _.
Arguments md_content {M} _.
Arguments md_metadata {M} _.
Arguments md_created_at {M} _.

(** The dictionary of [get_chat_session]. *)
Record SessionDetail (M : Type) : Type := {
  sdt_id : Z;
  sdt_name : string;
  sdt_created_at : Z;
  sdt_updated_at : Z;
  sdt_messages : list (MessageDict M)
}.

Arguments sdt_id {M} _.
Arguments sdt_name {M} _.
Arguments sdt_created_at {M} _.
Arguments sdt_updated_at {M} _.
Arguments sdt_messages {M} _.

Section Operations.
Context {M : Type}.

(** [db.query(ChatSession).filter(ChatSession.id == session_id).first()] *)
Definition find_session (db : ChatStore M) (session_id : Z) : option ChatSession :=
  find (fun s => cs_id s =? session_id) (chat_sessions db).

(** [session.messages] before any ordering. *)
Definition messages_of (db : ChatStore M) (session_id : Z) : list (ChatMessage M) :=
  List.filter (fun m => cm_session_id m =? session_id) (chat_messages db).

(** [create_chat_session(db, name)].  The defaults of the columns
    [created_at] and [updated_at] each call [datetime.now]: [created] and
    [updated] are the two readings of the clock. *)
Definition create_chat_session (db : ChatStore M) (name : string) (created updated : Z)
  : option Z * ChatStore M :=
  if negb (chat_connected db) then (None, db)
  else
    let session :=
      {| cs_id := next_session_id db; cs_name := name;
         cs_created_at := created; cs_updated_at := updated |} in
    (Some (next_session_id db),
     {| chat_connected := chat_connected db;
        chat_sessions := (chat_sessions db ++ [session])%list;
        chat_messages := chat_messages db;
        next_session_id := next_session_id db + 1;
        next_message_id := next_message_id db |}).

Definition touch (session_id now : Z) (s : ChatSession) : ChatSession :=
  if cs_id s =? session_id
  then {| cs_id := cs_id s; cs_name := cs_name s;
          cs_created_at := cs_created_at s; cs_updated_at := now |}
  else s.

(** [add_message_to_session(db, session_id, role, content, metadata=None)].
    [empty] is the empty dictionary.  The clock is read twice: [now] is the
    reading the code assigns to the session's [updated_at], [created] the one
    the default of the message's [created_at] takes when the message is
    inserted.  The insert draws the id of the message before the foreign key
    on [session_id] is checked: when there is no such session the commit fails
    and the id is spent. *)
Definition add_message_to_session (empty : M) (db : ChatStore M) (session_id : Z)
  (role content : string) (metadata : option M) (now created : Z)
  : option Z * ChatStore M :=
  if negb (chat_connected db) then (None, db)
  else
    let metadata := match metadata with Some m => m | None => empty end in
    let message :=
      {| cm_id := next_message_id db; cm_session_id := session_id; cm_role := role;
         cm_content := content; cm_metadata := metadata; cm_created_at := created |} in
    match find_session db session_id with
    | Some session =>
        (Some (next_message_id db),
         {| chat_connected := chat_connected db;
            chat_sessions := map (touch session_id now) (chat_sessions db);
            chat_messages := (chat_messages db ++ [message])%list;
            next_session_id := next_session_id db;
            next_message_id := next_message_id db + 1 |})
    | None =>
        (None,
         {| chat_connected := chat_connected db;
            chat_sessions := chat_sessions db;
            chat_messages := chat_messages db;
            next_session_id := next_session_id db;
            next_message_id := next_message_id db + 1 |})
    end.

(** [delete_chat_session(db, session_id)]: the relationship cascades the
    deletion to the messages of the session. *)
Definition delete_chat_session (db : ChatStore M) (session_id : Z) : bool * ChatStore M :=
  if negb (chat_connected db) then (false, db)
  else
    match find_session db session_id with
    | Some session =>
        (true,
         {| chat_connected := chat_connected db;
            chat_sessions :=
              List.filter (fun s => negb (cs_id s =? cs_id session)) (chat_sessions db);
            chat_messages :=
              List.filter (fun m => negb (cm_session_id m =? cs_id session))
                (chat_messages db);
            next_session_id := next_session_id db;
            next_message_id := next_message_id db |})
    | None => (false, db)
    end.

Definition rename (session_id : Z) (new_name : string) (now : Z) (s : ChatSession)
  : ChatSession :=
  if cs_id s =? session_id
  then {| cs_id := cs_id s; cs_name := new_name;
          cs_created_at := cs_created_at s; cs_updated_at := now |}
  else s.

(** [update_chat_session_name(db, session_id, new_name)], at time [now]. *)
Definition update_chat_session_name (db : ChatStore M) (session_id : Z)
  (new_name : string) (now : Z) : bool * ChatStore M :=
  if negb (chat_connected db) then (false, db)
  else
    match find_session db session_id with
    | Some session =>
        (true,
         {| chat_connected := chat_connected db;
            chat_sessions := map (rename session_id new_name now) (chat_sessions db);
            chat_messages := chat_messages db;
            next_session_id := next_session_id db;
            next_message_id := next_message_id db |})
    | None => (false, db)
    end.

Context {X : ChatExecutor}.

(** [get_chat_sessions(db)] *)
Definition get_chat_sessions (db : ChatStore M) : list SessionSummary :=
  if negb (chat_connected db) then []
  else
    map (fun s =>
           {| ss_id := cs_id s; ss_name := cs_name s;
              ss_created_at := cs_created_at s; ss_updated_at := cs_updated_at s;
              message_count := Z.of_nat (length (messages_of db (cs_id s))) |})
        (order_sessions (chat_sessions db)).

Definition message_dict (m : ChatMessage M) : MessageDict M :=
  {| md_id := cm_id m; md_role := cm_role m; md_content := cm_content m;
     md_metadata := cm_metadata m; md_created_at := cm_created_at m |}.

(** [get_chat_session(db, session_id)] *)
Definition get_chat_session (db : ChatStore M) (session_id : Z) : option (SessionDetail M) :=
  if negb (chat_connected db) then None
  else
    match find_session db session_id with
    | Some session =>
        Some {| sdt_id := cs_id session; sdt_name := cs_name session;
                sdt_created_at := cs_created_at session;
                sdt_updated_at := cs_updated_at session;
                sdt_messages :=
                  map message_dict (load_messages M (messages_of db (cs_id session))) |}
    | None => None
    end.

End Operations.

End Chat.

(** ** Uploaded files ([backend/utils.py]) and summaries
    ([backend/rag_pipeline.py]) *)

Module Utils.

(** [str(n)] *)
Definition string_of_Z (z : Z) : string := DecimalString.NilZero.string_of_int (Z.to_int z).

(** The libraries behind the processing of a file: [Path(filename).suffix]
    in lower case, the three extractors of text, and the regular expressions
    of [clean_text]. *)
Class FileTools : Type := {
  suffix_lower : string -> string;
  extract_text_from_pdf : list Byte.byte -> result string;
  extract_text_from_docx : list Byte.byte -> result string;
  extract_text_from_txt : list Byte.byte -> result string;
  clean_text : string -> string
}.

(** The dictionary [process_uploaded_file] returns. *)
Record Processed : Type := {
  text : string;
  metadata : gmap string pyval;
  success : bool;
  processing_error : option string
}.

Definition default_max_size : Z := 10 * 1024 * 1024.

(** [get_supported_file_types()] *)
Definition get_supported_file_types : list string := [".pdf"; ".docx"; ".doc"; ".txt"].

Section Files.
Context {T : FileTools}.

(** [validate_file(file_content, filename, max_size)] *)
Definition validate_file (file_content : list Byte.byte) (fname : string) (max_size : Z)
  : result bool :=
  if max_size <? Z.of_nat (length file_content)
  then Raise (ValueError ("File too large: " ++ string_of_Z (Z.of_nat (length file_content))
                          ++ " bytes (max: " ++ string_of_Z max_size ++ ")"))
  else
    let supported_extensions := [".pdf"; ".docx"; ".doc"; ".txt"] in
    let file_extension := suffix_lower fname in
    if negb (existsb (String.eqb file_extension) supported_extensions)
    then Raise (ValueError ("Unsupported file type: " ++ file_extension))
    else if Nat.eqb (length file_content) 0
    then Raise (ValueError "File is empty")
    else Ok true.

(** [extract_text_from_file(file_content, filename)] *)
Definition extract_text_from_file (file_content : list Byte.byte) (fname : string)
  : result string :=
  let file_extension := suffix_lower fname in
  if String.eqb file_extension ".pdf" then extract_text_from_pdf file_content
  else if existsb (String.eqb file_extension) [".docx"; ".doc"]
  then extract_text_from_docx file_content
  else if String.eqb file_extension ".txt" then extract_text_from_txt file_content
  else Raise (ValueError ("Unsupported file type: " ++ file_extension)).

(** [get_file_metadata(filename, file_size)] *)
Definition get_file_metadata (fname : string) (file_size : Z) : gmap string pyval :=
  <["filename" := VStr fname]>
  (<["file_size" := VInt file_size]>
  (<["file_extension" := VStr (suffix_lower fname)]>
  (<["processed_at" := VNone]> ∅))).

(** [process_uploaded_file(file_content, filename)] *)
Definition process_uploaded_file (file_content : list Byte.byte) (fname : string)
  : Processed :=
  match
    (_ <- validate_file file_content fname default_max_size ;;
     extracted <- extract_text_from_file file_content fname ;;
     let cleaned_text := clean_text extracted in
     let metadata := get_file_metadata fname (Z.of_nat (length file_content)) in
     Ok (cleaned_text, metadata))%py
  with
  | Ok (cleaned_text, metadata) =>
      {| text := cleaned_text; metadata := metadata; success := true;
         processing_error := None |}
  | Raise e =>
      {| text := ""; metadata := ∅; success := false;
         processing_error := Some (str_exn e) |}
  end.

End Files.

End Utils.

Module Summaries.

(** The libraries behind [summarize_document]: the splitter's
    [create_documents] and the map-reduce chain, which returns the summary and
    its intermediate steps. *)
Class Summarizer : Type := {
  create_documents : string -> result (list string);
  run_chain : list string -> result (string * list string)
}.

(** The dictionary [summarize_document] returns. *)
Record Summary : Type := {
  summary : string;
  summary_success : bool;
  intermediate_steps : option (list string)
}.

(** [summarize_document(filename)].  [chain_log] is the list of the inputs
    given to the chain so far, the latest first. *)
Definition summarize_document {U : Summarizer} (db : Session)
  (chain_log : list (list string)) (fname : string) : Summary * list (list string) :=
  match query_by_filename db fname with
  | Raise e =>
      ({| summary := "Failed to summarize document: " ++ str_exn e;
          summary_success := false; intermediate_steps := None |}, chain_log)
  | Ok [] =>
      ({| summary := "No document found with filename: " ++ fname;
          summary_success := false; intermediate_steps := None |}, chain_log)
  | Ok chunks =>
      let full_content := join (newline ++ newline) (map content chunks) in
      match create_documents full_content with
      | Raise e =>
          ({| summary := "Failed to summarize document: " ++ str_exn e;
              summary_success := false; intermediate_steps := None |}, chain_log)
      | Ok docs =>
          match run_chain docs with
          | Raise e =>
              ({| summary := "Failed to summarize document: " ++ str_exn e;
                  summary_success := false; intermediate_steps := None |},
               docs :: chain_log)
          | Ok (output_text, steps) =>
              ({| summary := output_text; summary_success := true;
                  intermediate_steps := Some steps |}, docs :: chain_log)
          end
      end
  end.

End Summaries.

(** ** Executors and providers for evaluation *)

Module Samples.

(** Insertion sort on a key, in the order of [float8].  [insert_row] puts the
    new row in front of the first row whose key is not less than its own: a
    row precedes the rows of equal key that followed it in the input, so the
    sort is stable. *)
Fixpoint insert_row (key : Document -> float) (x : Document)
  (sorted : list Document) : list Document :=
  match sorted with
  | [] => [x]
  | y :: rest =>
      if float8_le (key x) (key y) then x :: y :: rest
      else y :: insert_row key x rest
  end.

Definition insertion_sort (key : Document -> float) (rows : list Document)
  : list Document :=
  fold_right (insert_row key) [] rows.

Lemma insert_row_perm key x l :
  Permutation (insert_row key x l) (x :: l).
Proof.
  induction l as [|y l IH]; simpl.
  - apply Permutation_refl.
  - destruct (float8_le (key x) (key y)).
    + apply Permutation_refl.
    + eapply Permutation_trans; [apply perm_skip, IH | apply perm_swap].
Qed.

Lemma insertion_sort_perm key rows :
  Permutation (insertion_sort key rows) rows.
Proof.
  induction rows as [|x rows IH]; simpl.
  - apply perm_nil.
  - eapply Permutation_trans; [apply insert_row_perm | apply perm_skip, IH].
Qed.

Lemma insert_row_sorted key x l :
  StronglySorted (fun a b => float8_le (key a) (key b) = true) l ->
  StronglySorted (fun a b => float8_le (key a) (key b) = true) (insert_row key x l).
Proof.
  induction 1 as [|y l Hl IH Hy]; simpl.
  - constructor; constructor.
  - destruct (float8_le (key x) (key y)) eqn:Hxy.
    + constructor; [constructor; assumption|].
      constructor; [assumption|].
      eapply List.Forall_impl; [|exact Hy].
      intros z Hz. simpl in Hz. eapply float8_le_trans; eassumption.
    + constructor; [assumption|].
      assert (Hyx : float8_le (key y) (key x) = true).
      { destruct (float8_le_total (key x) (key y)); congruence. }
      eapply Permutation_Forall; [apply Permutation_sym, insert_row_perm|].
      constructor; assumption.
Qed.

Lemma insertion_sort_sorted key rows :
  StronglySorted (fun a b => float8_le (key a) (key b) = true) (insertion_sort key rows).
Proof.
  induction rows as [|x rows IH]; simpl.
  - constructor.
  - now apply insert_row_sorted.
Qed.

(** The sum of the products of the components, from left to right. *)
Definition dot (pairs : list (float * float)) : float :=
  fold_left (fun acc p => (acc + p.1 * p.2)%float) pairs 0%float.

(** The cosine distance as pgvector computes it, here in binary64: one minus
    the dot product over the square root of the product of the squared norms,
    the quotient kept between -1 and 1.  For a vector of zeros the quotient is
    0 / 0, and the distance is NaN. *)
Definition pgvector_cosine_distance (a b : list Q) : float :=
  let x := map F64.of_Q a in
  let y := map F64.of_Q b in
  let similarity :=
    (dot (combine x y) / sqrt (dot (combine x x) * dot (combine y y)))%float in
  let similarity :=
    if (1 <? similarity)%float then 1%float
    else if (similarity <? -1)%float then (-1)%float
    else similarity in
  (1 - similarity)%float.

(** A driver that does not adapt values other than strings. *)
Definition no_adaptation (v : pyval) : result string :=
  Raise (DataError "can't adapt type").

(** An executor whose sort is stable. *)
#[export] Instance stable_executor : Executor :=
  {| cosine_distance := pgvector_cosine_distance;
     order_by := insertion_sort;
     bind_text := no_adaptation;
     order_by_perm := insertion_sort_perm;
     order_by_sorted := insertion_sort_sorted |}.

(** numpy, with the products summed from left to right. *)
#[export] Instance sequential_numpy : Numpy :=
  {| sum_products := dot |}.

(** A descending insertion sort for [list.sort(reverse=True)]: an element
    goes in front of the first element whose key is not greater than its
    own. *)
Section Sorting.
Context {A : Type} (key : A -> float).

Fixpoint insert_desc (x : A) (sorted : list A) : list A :=
  match sorted with
  | [] => [x]
  | y :: rest =>
      if (key x <? key y)%float then y :: insert_desc x rest
      else x :: y :: rest
  end.

Definition sort_desc (l : list A) : list A := fold_right insert_desc [] l.

Lemma insert_desc_perm x l : Permutation (insert_desc x l) (x :: l).
Proof.
  induction l as [|y l IH]; simpl.
  - apply Permutation_refl.
  - destruct (key x <? key y)%float.
    + eapply Permutation_trans; [apply perm_skip, IH | apply perm_swap].
    + apply Permutation_refl.
Qed.

Lemma sort_desc_perm l : Permutation (sort_desc l) l.
Proof.
  induction l as [|x l IH]; simpl.
  - apply perm_nil.
  - eapply Permutation_trans; [apply insert_desc_perm | apply perm_skip, IH].
Qed.

Lemma leb_trans_numbers (a b c : float) :
  is_nan a = false -> is_nan b = false -> is_nan c = false ->
  (a <=? b)%float = true -> (b <=? c)%float = true -> (a <=? c)%float = true.
Proof.
  intros Ha Hb Hc Hab Hbc.
  apply (leb_code a b Ha Hb) in Hab. apply (leb_code b c Hb Hc) in Hbc.
  apply (leb_code a c Ha Hc). eapply lex_le_trans; eassumption.
Qed.

Lemma ltb_leb_numbers (a b : float) :
  is_nan a = false -> is_nan b = false ->
  (a <? b)%float = true -> (a <=? b)%float = true.
Proof.
  intros Ha Hb Hab. apply (ltb_code a b Ha Hb) in Hab.
  apply (leb_code a b Ha Hb).
  destruct (lex_le_total (sf_code (Prim2SF a)) (sf_code (Prim2SF b))); tauto.
Qed.

Lemma not_ltb_leb_numbers (a b : float) :
  is_nan a = false -> is_nan b = false ->
  (a <? b)%float = false -> (b <=? a)%float = true.
Proof.
  intros Ha Hb Hab. apply (leb_code b a Hb Ha).
  destruct (lex_le_total (sf_code (Prim2SF b)) (sf_code (Prim2SF a))) as [H|H];
    [exact H|].
  assert (Hlt : (a <? b)%float = true -> False) by congruence.
  rewrite (ltb_code a b Ha Hb) in Hlt.
  unfold lex_le in *. lia.
Qed.

Lemma insert_desc_sorted x l :
  is_nan (key x) = false ->
  Forall (fun y => is_nan (key y) = false) l ->
  StronglySorted (fun a b => (key b <=? key a)%float = true) l ->
  StronglySorted (fun a b => (key b <=? key a)%float = true) (insert_desc x l).
Proof.
  intros Hx Hnan Hs. induction Hs as [|y l Hl IH Hy]; simpl.
  - constructor; constructor.
  - apply List.Forall_cons_iff in Hnan as [Hyn Hnan].
    destruct (key x <? key y)%float eqn:Hxy.
    + constructor; [now apply IH|].
      eapply Permutation_Forall; [apply Permutation_sym, insert_desc_perm|].
      constructor; [now apply ltb_leb_numbers | exact Hy].
    + constructor; [constructor; assumption|].
      assert (Hyx : (key y <=? key x)%float = true) by now apply not_ltb_leb_numbers.
      constructor; [exact Hyx|].
      rewrite List.Forall_forall in *. intros z Hz.
      apply (leb_trans_numbers (key z) (key y) (key x)); auto.
Qed.

Lemma sort_desc_sorted l :
  Forall (fun x => is_nan (key x) = false) l ->
  StronglySorted (fun a b => (key b <=? key a)%float = true) (sort_desc l).
Proof.
  induction 1 as [|x l Hx Hl IH]; simpl.
  - constructor.
  - apply insert_desc_sorted; [exact Hx| |exact IH].
    eapply Permutation_Forall; [apply Permutation_sym, sort_desc_perm | exact Hl].
Qed.

End Sorting.

#[export] Instance insertion_pysort : Chunks.PySort :=
  {| Chunks.sort_reverse := fun A key => sort_desc key;
     Chunks.sort_reverse_perm := fun A key => sort_desc_perm key;
     Chunks.sort_reverse_sorted := fun A key => sort_desc_sorted key |}.

(** A vector of [EMBEDDING_DIM] components, zero after the first two. *)
Definition vec2 (x y : Q) : list Q := x :: y :: repeat 0%Q (EMBEDDING_DIM - 2).

(** A stand-in for the splitter: the constructor's check of the overlap, and
    a split into pieces of [chunk_size] characters without overlap. *)
Definition sample_splitter_init (chunk_size chunk_overlap : Z) : result unit :=
  if chunk_size <? chunk_overlap
  then Raise (ValueError "Got a larger chunk overlap than chunk size, should be smaller.")
  else Ok tt.

Fixpoint cut (fuel width : nat) (text : string) : list string :=
  match fuel with
  | O => []
  | S fuel =>
      if (String.length text <=? width)%nat then [text]
      else substring 0 width text
           :: cut fuel width (substring width (String.length text - width) text)
  end.

Definition sample_split_text (chunk_size chunk_overlap : Z) (text : string)
  : result (list string) :=
  if bool_decide (text = "") then Ok []
  else Ok (cut (String.length text) (Z.to_nat chunk_size) text).

(** A stand-in for the embedding model: two directions at a right angle and
    one in between. *)
Definition sample_embed (text : string) : list Q :=
  if bool_decide (text = "north") then vec2 1 0
  else if bool_decide (text = "east") then vec2 0 1
  else vec2 (3 # 5) (4 # 5).

Lemma sample_splitter_rejects chunk_size chunk_overlap :
  chunk_size < chunk_overlap ->
  exists msg, sample_splitter_init chunk_size chunk_overlap = Raise (ValueError msg).
Proof.
  intros H. unfold sample_splitter_init.
  apply Z.ltb_lt in H. rewrite H. eexists. reflexivity.
Qed.

Lemma sample_splitter_accepts chunk_size chunk_overlap :
  0 < chunk_size -> 0 <= chunk_overlap <= chunk_size ->
  sample_splitter_init chunk_size chunk_overlap = Ok tt.
Proof.
  intros _ [_ H]. unfold sample_splitter_init.
  destruct (chunk_size <? chunk_overlap) eqn:E; [|reflexivity].
  apply Z.ltb_lt in E. lia.
Qed.

#[export] Instance sample_providers : Providers :=
  {| embed_query := fun text => Ok (sample_embed text);
     embed_documents := fun texts => Ok (map sample_embed texts);
     llm_invoke := fun prompt => Ok "north is up";
     splitter_init := sample_splitter_init;
     split_text := sample_split_text;
     splitter_init_larger_overlap := sample_splitter_rejects;
     splitter_init_accepts := sample_splitter_accepts |}.

(** [sum] as CPython up to 3.11 computes it on floats: the additions from
    left to right, starting from 0, each rounded. *)
Definition sum_sequential (xs : list float) : float := fold_left PrimFloat.add xs 0%float.

Lemma fold_left_add_nan (xs : list float) (a : float) :
  is_nan a = true \/ Exists (fun x => is_nan x = true) xs ->
  is_nan (fold_left PrimFloat.add xs a) = true.
Proof.
  revert a. induction xs as [|x xs IH]; intros a [Ha|Hx]; simpl.
  - exact Ha.
  - inversion Hx.
  - apply IH. left. now apply is_nan_add_l.
  - apply IH. apply Exists_cons in Hx as [Hx|Hx].
    + left. now apply is_nan_add_r.
    + now right.
Qed.

#[export] Instance sequential_sum : PySum :=
  {| py_sum := sum_sequential;
     py_sum_nan := fun xs H => fold_left_add_nan xs 0%float (or_intror H) |}.






(** Providers whose embedding of every text is the vector of zeros. *)
Definition zero_providers : Providers :=
  {| embed_query := fun text => Ok (repeat 0%Q EMBEDDING_DIM);
     embed_documents := fun texts => Ok (map (fun _ => repeat 0%Q EMBEDDING_DIM) texts);
     llm_invoke := fun prompt => Ok "north is up";
     splitter_init := sample_splitter_init;
     split_text := sample_split_text;
     splitter_init_larger_overlap := sample_splitter_rejects;
     splitter_init_accepts := sample_splitter_accepts |}.

(** Providers whose embedding model is down. *)
Definition failing_providers : Providers :=
  {| embed_query := fun text => Raise (ProviderError "embedding request failed");
     embed_documents := fun texts => Raise (ProviderError "embedding request failed");
     llm_invoke := fun prompt => Ok "north is up";
     splitter_init := sample_splitter_init;
     split_text := sample_split_text;
     splitter_init_larger_overlap := sample_splitter_rejects;
     splitter_init_accepts := sample_splitter_accepts |}.

Definition empty_session : Session :=
  {| connected := true; documents := []; next_id := 1 |}.

Definition row (i : Z) (name text : string) (vec : list Q) : Document :=
  {| id := i; filename := name; content := text; doc_metadata := ∅; embedding := vec |}.

(** Three rows: two with the same embedding, one at a right angle to them. *)
Definition three_rows : Session :=
  {| connected := true;
     documents := [ row 1 "a.txt" "north" (vec2 1 0);
                    row 2 "b.txt" "north again" (vec2 1 0);
                    row 3 "c.txt" "east" (vec2 0 1) ];
     next_id := 4 |}.

(** The same table behind a connection that is down. *)
Definition three_rows_down : Session :=
  {| connected := false; documents := documents three_rows; next_id := 4 |}.

(** A table of one row, at a right angle to the direction "north". *)
Definition east_only : Session :=
  {| connected := true;
     documents := [ row 3 "c.txt" "east" (vec2 0 1) ];
     next_id := 4 |}.

(** A table that is not scanned in the order of its ids: the row of id 1 was
    deleted, and the database has put the row of id 4 into the place it left
    (PostgreSQL writes into the space of deleted rows once it is reclaimed). *)
Definition moved_rows : Session :=
  {| connected := true;
     documents := [ row 4 "d.txt" "north once more" (vec2 1 0);
                    row 2 "b.txt" "north again" (vec2 1 0);
                    row 3 "c.txt" "east" (vec2 0 1) ];
     next_id := 5 |}.

End Samples.

(** ** The properties, as definitions *)

(** The rows a successful similarity query returns. *)
Definition ranked_rows {E : Executor} (db : Session) (q : list Q) (threshold : float)
  : list Document :=
  order_by (fun d => cosine_distance (embedding d) q)
    (List.filter (fun d => float8_gt (similarity_to q d) threshold) (documents db)).


(** Rows of equal similarity come lower id first. *)
Definition ties_in_insertion_order (result : list SimilarDocument) : Prop :=
  forall before a between b after,
    result = (before ++ a :: between ++ b :: after)%list ->
    (similarity a =? similarity b)%float = true ->
    sd_id a < sd_id b.

(** Rows at an equal distance from the query come lower id first. *)
Definition distance_ties_by_id {E : Executor} (q : list Q) (rows : list Document) : Prop :=
  forall before a between b after,
    rows = (before ++ a :: between ++ b :: after)%list ->
    float8_eq (cosine_distance (embedding a) q) (cosine_distance (embedding b) q) = true ->
    id a < id b.

(** The executor's sort is stable: the rows of any one key keep the order
    they had in the input. *)
Definition stable_order_by (E : Executor) : Prop :=
  forall (key : Document -> float) (rows : list Document) (v : float),
    List.filter (fun d => float8_eq (key d) v) (order_by key rows) =
    List.filter (fun d => float8_eq (key d) v) rows.

(** The table is scanned in the order of the ids. *)
Definition scanned_by_id (db : Session) : Prop :=
  StronglySorted (fun a b => id a < id b) (documents db).



(** The value the loop of ingestion reads for the filename column: the
    caller's ["filename"] when the caller's metadata has that key, the default
    otherwise. *)
Definition effective_filename (fname : string) (metadata : option (gmap string pyval)) : pyval :=
  match metadata with
  | Some m => match m !! "filename" with Some v => v | None => VStr fname end
  | None => VStr fname
  end.

(** The empty result as the specification has it: it is returned only when
    the query ran and matched nothing. *)
Definition empty_only_when_nothing_matches (E : Executor) (db : Session)
  (q : list Q) (limit : Z) (threshold : float) : Prop :=
  get_similar_documents db q limit threshold = [] ->
  exists rows, execute_similarity db q threshold limit = Ok rows.

(** The return value as the specification has it: deleting a filename that
    has no chunks returns false. *)
Definition delete_reports_missing (db : Session) (fname : string) : Prop :=
  (forall d, In d (documents db) -> filename d <> fname) ->
  fst (delete_document db fname) = false.

(** The failed write as the specification has it: the caller of
    [store_document] gets an exception. *)
Definition failed_write_raises (E : Executor) (db : Session) (fname : pyval)
  (text : string) (vec : list Q) (metadata : option (gmap string pyval)) : Prop :=
  exists e, (store_document db fname text vec metadata).1 = Raise e.


(** ** Facts about lists and about the vector store *)

Section ListFacts.
Context {A B : Type}.

Lemma firstn_incl (n : nat) (l : list A) (x : A) : In x (firstn n l) -> In x l.
Proof.
  revert n. induction l as [|y l IH]; intros [|n]; simpl; try tauto.
  intros [->|H]; [now left | right; eauto].
Qed.

Lemma StronglySorted_weaken (R R' : A -> A -> Prop) (l : list A) :
  (forall a b, R a b -> R' a b) -> StronglySorted R l -> StronglySorted R' l.
Proof.
  intros HR. induction 1 as [|x l Hl IH Hx]; constructor.
  - exact IH.
  - eapply List.Forall_impl; [|exact Hx]. auto.
Qed.

Lemma StronglySorted_firstn (R : A -> A -> Prop) (n : nat) (l : list A) :
  StronglySorted R l -> StronglySorted R (firstn n l).
Proof.
  intros H. revert n. induction H as [|x l Hl IH Hx]; intros [|n]; simpl;
    try constructor.
  - apply IH.
  - rewrite List.Forall_forall in *. intros y Hy. apply Hx.
    eapply firstn_incl; eassumption.
Qed.

Lemma StronglySorted_map (R : B -> B -> Prop) (f : A -> B) (l : list A) :
  StronglySorted (fun a b => R (f a) (f b)) l -> StronglySorted R (map f l).
Proof.
  induction 1 as [|x l Hl IH Hx]; simpl; constructor.
  - exact IH.
  - rewrite List.Forall_forall in *. intros y Hy.
    apply in_map_iff in Hy as (z & <- & Hz). now apply Hx.
Qed.

End ListFacts.

Section VectorStore.
Context {E : Executor}.

Lemma execute_similarity_ok db q threshold limit docs :
  execute_similarity db q threshold limit = Ok docs ->
  connected db = true /\ 0 <= limit /\
  docs = map (select_row q) (firstn (Z.to_nat limit) (ranked_rows db q threshold)).
Proof.
  unfold execute_similarity, ranked_rows.
  destruct (connected db); simpl; [|discriminate].
  destruct (limit <? 0) eqn:Hl; [discriminate|].
  destruct (forallb _ (documents db)); simpl; [|discriminate].
  intros [= <-]. apply Z.ltb_ge in Hl. auto.
Qed.


Lemma get_similar_documents_cases db q limit threshold :
  get_similar_documents db q limit threshold = [] \/
  (0 <= limit /\
   get_similar_documents db q limit threshold =
     map (select_row q) (firstn (Z.to_nat limit) (ranked_rows db q threshold))).
Proof.
  unfold get_similar_documents.
  destruct (execute_similarity db q threshold limit) as [docs|e] eqn:Hx.
  - right. apply execute_similarity_ok in Hx as (_ & Hl & ->). auto.
  - now left.
Qed.

Lemma ranked_rows_in db q threshold d :
  In d (ranked_rows db q threshold) ->
  In d (documents db) /\ float8_gt (similarity_to q d) threshold = true.
Proof.
  unfold ranked_rows. intros Hd.
  eapply Permutation_in in Hd; [|apply order_by_perm].
  now apply filter_In in Hd.
Qed.


Lemma get_similar_documents_above db q limit threshold doc :
  In doc (get_similar_documents db q limit threshold) ->
  float8_gt (similarity doc) threshold = true.
Proof.
  destruct (get_similar_documents_cases db q limit threshold) as [-> | [_ ->]].
  - intros [].
  - intros Hdoc. apply in_map_iff in Hdoc as (d & <- & Hd).
    apply firstn_incl, ranked_rows_in in Hd as [_ Hd]. exact Hd.
Qed.

Lemma get_similar_documents_length db q limit threshold :
  Z.of_nat (length (get_similar_documents db q limit threshold)) <= Z.max 0 limit.
Proof.
  destruct (get_similar_documents_cases db q limit threshold) as [-> | [Hl ->]].
  - simpl. lia.
  - rewrite length_map.
    pose proof (firstn_le_length (Z.to_nat limit) (ranked_rows db q threshold)). lia.
Qed.

End VectorStore.

Lemma StronglySorted_filter {A : Type} (R : A -> A -> Prop) (f : A -> bool) (l : list A) :
  StronglySorted R l -> StronglySorted R (List.filter f l).
Proof.
  induction 1 as [|x l Hl IH Hx]; simpl; [constructor|].
  destruct (f x); [|exact IH].
  constructor; [exact IH|].
  rewrite List.Forall_forall in *. intros y Hy.
  apply filter_In in Hy as [Hy _]. now apply Hx.
Qed.

Lemma StronglySorted_pair {A : Type} (R : A -> A -> Prop) (l1 l2 l3 : list A) (a b : A) :
  StronglySorted R (l1 ++ a :: l2 ++ b :: l3)%list -> R a b.
Proof.
  induction l1 as [|x l1 IH]; simpl; intros H.
  - apply StronglySorted_inv in H as [_ H].
    rewrite List.Forall_forall in H. apply H.
    apply in_or_app. right. now left.
  - apply StronglySorted_inv in H as [H _]. now apply IH.
Qed.

Lemma float8_eq_le (a b v : float) :
  float8_eq a v = true -> float8_eq b v = true -> float8_le a b = true.
Proof.
  unfold float8_eq. rewrite !andb_true_iff. intros [Hav _] [_ Hvb].
  eapply float8_le_trans; eassumption.
Qed.

Lemma float8_eq_sym (a b : float) : float8_eq a b = float8_eq b a.
Proof. unfold float8_eq. apply andb_comm. Qed.

Lemma float8_eq_refl (a : float) : float8_eq a a = true.
Proof. unfold float8_eq. now rewrite float8_le_refl. Qed.

Lemma insert_row_filter key v x l :
  List.filter (fun d => float8_eq (key d) v) (Samples.insert_row key x l) =
  List.filter (fun d => float8_eq (key d) v) (x :: l).
Proof.
  induction l as [|y l IH]; [reflexivity|].
  cbn [Samples.insert_row].
  destruct (float8_le (key x) (key y)) eqn:Hxy; [reflexivity|].
  cbn [List.filter]. rewrite IH. cbn [List.filter].
  destruct (float8_eq (key x) v) eqn:Hx; [|reflexivity].
  destruct (float8_eq (key y) v) eqn:Hy; [|reflexivity].
  exfalso. pose proof (float8_eq_le _ _ _ Hx Hy). congruence.
Qed.

Lemma insertion_sort_stable : stable_order_by Samples.stable_executor.
Proof.
  intros key rows v. simpl.
  induction rows as [|x rows IH]; simpl; [reflexivity|].
  rewrite insert_row_filter. simpl. now rewrite IH.
Qed.

(** ** The claims about the vector store *)




(** C7, as the specification states it, fails: the write of a vector of
    three components does not raise, it returns [None]. *)
Lemma failed_write_raises_counterexample :
  ~ failed_write_raises Samples.stable_executor Samples.three_rows (VStr "d.txt") "west"
      [1%Q; 0%Q; 0%Q] None.
Proof.
  intros [e He]. vm_compute in He. discriminate.
Qed.

(** C7, amended.  Writing a record whose embedding does not have
    [EMBEDDING_DIM] components fails inside [store_document], which catches
    the error and returns [None]: nothing is raised to the caller.  The session
    is left as it was: the same rows, so the same count, and the same next
    id. *)
Theorem store_document_wrong_dimension (E : Executor) (db : Session) (fname : pyval)
  (text : string) (vec : list Q) (metadata : option (gmap string pyval)) :
  length vec <> EMBEDDING_DIM ->
  store_document db fname text vec metadata = (Ok None, db) /\
  (exists e, (insert_document db fname text vec (default ∅ metadata)).1 = Raise e) /\
  documents (snd (store_document db fname text vec metadata)) = documents db /\
  length (documents (snd (store_document db fname text vec metadata))) =
    length (documents db) /\
  next_id (snd (store_document db fname text vec metadata)) = next_id db.
Proof.
  intros Hdim.
  assert (Hinsert : exists e, insert_document db fname text vec (default ∅ metadata)
                              = (Raise e, db)).
  { unfold insert_document.
    destruct (connected db); simpl; [|eauto].
    destruct (Nat.eqb (length vec) EMBEDDING_DIM) eqn:Hn; simpl; [|eauto].
    apply Nat.eqb_eq in Hn. contradiction. }
  destruct Hinsert as [e He].
  assert (Hstore : store_document db fname text vec metadata = (Ok None, db)).
  { unfold store_document.
    change (match metadata with Some m => m | None => ∅ end) with (default ∅ metadata).
    now rewrite He. }
  rewrite Hstore, He. simpl. eauto 6.
Qed.

(** A vector of three components is refused by the table of three rows. *)
Lemma store_document_wrong_dimension_witness :
  store_document (E := Samples.stable_executor) Samples.three_rows (VStr "d.txt") "west"
    [1%Q; 0%Q; 0%Q] None = (Ok None, Samples.three_rows).
Proof.
  apply (store_document_wrong_dimension Samples.stable_executor Samples.three_rows
           (VStr "d.txt") "west" [1%Q; 0%Q; 0%Q] None).
  vm_compute. discriminate.
Defined.

(** C8, as the specification states it, fails on a table that is not
    scanned in the order of its ids.  The query orders on the distance alone,
    and a sort, also a stable one, leaves rows of equal distance in the order
    of the scan: here the row of id 4 sits in front of the rows of ids 2 and
    3, and comes back before the row of id 2, which has the same similarity. *)
Lemma ties_in_insertion_order_counterexample :
  ~ (forall (E : Executor) (db : Session) (q : list Q) (limit : Z) (threshold : float),
       ties_in_insertion_order (get_similar_documents db q limit threshold)).
Proof.
  intros H.
  specialize (H Samples.stable_executor Samples.moved_rows (Samples.vec2 1 0) 5 0.7%float).
  set (a := select_row (E := Samples.stable_executor) (Samples.vec2 1 0)
              (Samples.row 4 "d.txt" "north once more" (Samples.vec2 1 0))).
  set (b := select_row (E := Samples.stable_executor) (Samples.vec2 1 0)
              (Samples.row 2 "b.txt" "north again" (Samples.vec2 1 0))).
  specialize (H [] a [] b []).
  assert (Hlt : sd_id a < sd_id b).
  { apply H.
    - vm_compute. reflexivity.
    - vm_compute. reflexivity. }
  vm_compute in Hlt. discriminate.
Qed.

(** C8, amended.  The query orders on the distance alone.  When the
    executor's sort is stable and the table is scanned in the order of the
    ids, two rows at an equal distance from the query come back lower id
    first. *)
Theorem ties_in_insertion_order_when_stable (E : Executor) (db : Session)
  (q : list Q) (limit : Z) (threshold : float) :
  stable_order_by E ->
  scanned_by_id db ->
  exists rows,
    get_similar_documents db q limit threshold = map (select_row q) rows /\
    distance_ties_by_id q rows.
Proof.
  intros Hstable Hscan.
  destruct (get_similar_documents_cases db q limit threshold) as [Hempty | [_ Hrows]].
  { exists []. split; [exact Hempty|].
    intros before a between b after Heq. destruct before; discriminate. }
  exists (firstn (Z.to_nat limit) (ranked_rows db q threshold)).
  split; [exact Hrows|].
  intros before da between db' after Hfirst Hkey.
  pose proof (firstn_skipn (Z.to_nat limit) (ranked_rows db q threshold)) as Hsplit.
  rewrite Hfirst in Hsplit. unfold ranked_rows in Hsplit.
  pose proof (Hstable (fun d => cosine_distance (embedding d) q)
                (List.filter (fun d => float8_gt (similarity_to q d) threshold)
                   (documents db)) (cosine_distance (embedding da) q)) as Hst.
  cbv beta in Hst.
  rewrite <- Hsplit in Hst.
  rewrite <- !app_assoc in Hst. cbn [app] in Hst.
  rewrite <- !app_assoc in Hst. cbn [app] in Hst.
  rewrite List.filter_app in Hst. cbn [List.filter] in Hst.
  rewrite float8_eq_refl in Hst.
  rewrite List.filter_app in Hst. cbn [List.filter] in Hst.
  rewrite float8_eq_sym in Hkey. rewrite Hkey in Hst.
  assert (Hsorted : StronglySorted (fun x y => id x < id y)
            (List.filter (fun d => float8_eq (cosine_distance (embedding d) q)
                                     (cosine_distance (embedding da) q))
               (List.filter (fun d => float8_gt (similarity_to q d) threshold)
                  (documents db)))).
  { apply StronglySorted_filter, StronglySorted_filter, Hscan. }
  rewrite <- Hst in Hsorted.
  exact (StronglySorted_pair (fun x y => id x < id y) _ _ _ da db' Hsorted).
Qed.

(** With the stable executor the two rows at distance zero come back in the
    order of their ids. *)
Lemma ties_in_insertion_order_when_stable_witness :
  exists rows,
    get_similar_documents (E := Samples.stable_executor)
      Samples.three_rows (Samples.vec2 1 0) 5 0.7%float =
      map (select_row (E := Samples.stable_executor) (Samples.vec2 1 0)) rows /\
    distance_ties_by_id (E := Samples.stable_executor) (Samples.vec2 1 0) rows.
Proof.
  apply (ties_in_insertion_order_when_stable Samples.stable_executor Samples.three_rows
           (Samples.vec2 1 0) 5 0.7%float).
  - exact insertion_sort_stable.
  - unfold scanned_by_id. simpl. repeat constructor; simpl; lia.
Defined.

(** ** The claims about question answering *)

Section ConfidenceFacts.
Context {Sm : PySum}.

Lemma avg_similarity_nan (docs : list SimilarDocument) :
  Exists (fun d => is_nan (similarity d) = true) docs ->
  is_nan (avg_similarity docs) = true.
Proof.
  intros H. unfold avg_similarity, sum_similarity.
  apply is_nan_div_l, py_sum_nan.
  induction H as [d l Hd | d l _ IH]; simpl; [now left | now right].
Qed.

Lemma compute_confidence_cases (docs : list SimilarDocument) :
  (compute_confidence docs = 1%float /\ (1 <? avg_similarity docs)%float = true) \/
  (compute_confidence docs = avg_similarity docs /\
   (1 <? avg_similarity docs)%float = false).
Proof.
  unfold compute_confidence.
  destruct (1 <? avg_similarity docs)%float; [left | right]; split; reflexivity.
Qed.

Lemma compute_confidence_capped (docs : list SimilarDocument) :
  (1 <? compute_confidence docs)%float = false.
Proof.
  destruct (compute_confidence_cases docs) as [[-> _] | [-> H]];
    [reflexivity | exact H].
Qed.

Lemma compute_confidence_nan (docs : list SimilarDocument) :
  Exists (fun d => is_nan (similarity d) = true) docs ->
  is_nan (compute_confidence docs) = true.
Proof.
  intros H. apply avg_similarity_nan in H.
  unfold compute_confidence. now rewrite (ltb_nan_r 1 _ H).
Qed.

End ConfidenceFacts.





(** C4.  Whenever retrieval returns the empty list, [answer_question] returns
    the fixed answer with no sources and confidence 0, and sends nothing to
    the chat model: the log of prompts is as it was. *)
Theorem no_context_answer (E : Executor) (P : Providers) (Sm : PySum)
  (db : Session)
  (llm_log : list string) (question : string) (top_k : Z) (q : list Q) :
  generate_embedding question = Ok q ->
  get_similar_documents db q top_k default_similarity_threshold = [] ->
  let response := fst (answer_question db llm_log question top_k) in
  answer response = "I couldn't find any relevant information to answer your question." /\
  sources response = [] /\
  confidence response = 0%float /\
  error response = None /\
  snd (answer_question db llm_log question top_k) = llm_log.
Proof.
  intros Hq Hempty. unfold answer_question. rewrite Hq, Hempty. simpl.
  repeat split.
Qed.

(** A question on the empty store. *)
Lemma no_context_answer_witness :
  answer_question (E := Samples.stable_executor) (P := Samples.sample_providers)
    (Sm := Samples.sequential_sum)
    Samples.empty_session ["an earlier prompt"] "unrelated question" 5 =
  (no_information_response, ["an earlier prompt"]) /\
  confidence (fst (answer_question (E := Samples.stable_executor)
                     (P := Samples.sample_providers) (Sm := Samples.sequential_sum)
                     Samples.empty_session ["an earlier prompt"] "unrelated question" 5))
    = 0%float.
Proof.
  split.
  - vm_compute. reflexivity.
  - apply (no_context_answer Samples.stable_executor Samples.sample_providers
             Samples.sequential_sum
             Samples.empty_session ["an earlier prompt"] "unrelated question" 5
             (Samples.vec2 (3 # 5) (4 # 5))).
    + reflexivity.
    + vm_compute. reflexivity.
Defined.

(** C5, as the specification states it, fails when the connection is down:
    the query raises, and the result is the empty list, although two rows
    clear the threshold. *)
Lemma empty_only_when_nothing_matches_counterexample :
  ~ empty_only_when_nothing_matches Samples.stable_executor Samples.three_rows_down
      (Samples.vec2 1 0) 5 0.7%float.
Proof.
  unfold empty_only_when_nothing_matches. intros H.
  destruct H as [rows Hrows].
  - vm_compute. reflexivity.
  - vm_compute in Hrows. discriminate.
Qed.

(** C5, amended.  Retrieval returns the empty list when the query runs and no
    chunk clears the threshold, and, with a limit above zero, a query that
    runs returns the empty list only then.  A failure of the store during
    retrieval is not surfaced: [get_similar_documents] returns the empty list
    as well, and in both cases the question is answered as if nothing were
    relevant.  A failure of the embedding provider is surfaced: the response
    carries the error and differs from the one for an empty retrieval. *)
Theorem retrieval_failures (E : Executor) (P : Providers) (Sm : PySum)
  (db : Session)
  (llm_log : list string) (question : string) (top_k : Z) :
  (forall q,
      generate_embedding question = Ok q ->
      (forall d, In d (documents db) ->
         float8_gt (similarity_to q d) default_similarity_threshold = false) ->
      get_similar_documents db q top_k default_similarity_threshold = [] /\
      answer_question db llm_log question top_k = (no_information_response, llm_log)) /\
  (forall q rows,
      0 < top_k ->
      execute_similarity db q default_similarity_threshold top_k = Ok rows ->
      get_similar_documents db q top_k default_similarity_threshold = [] ->
      forall d, In d (documents db) ->
        float8_gt (similarity_to q d) default_similarity_threshold = false) /\
  (forall q e,
      generate_embedding question = Ok q ->
      execute_similarity db q default_similarity_threshold top_k = Raise e ->
      get_similar_documents db q top_k default_similarity_threshold = [] /\
      answer_question db llm_log question top_k = (no_information_response, llm_log)) /\
  (forall e,
      generate_embedding question = Raise e ->
      answer_question db llm_log question top_k = (error_response e, llm_log) /\
      error (error_response e) = Some (str_exn e) /\
      error_response e <> no_information_response).
Proof.
  split; [|split; [|split]].
  - intros q Hq Hnone.
    assert (Hempty : get_similar_documents db q top_k default_similarity_threshold = []).
    { destruct (get_similar_documents_cases db q top_k default_similarity_threshold)
        as [H | [_ H]]; [exact H|]. rewrite H.
      assert (Hrows : ranked_rows db q default_similarity_threshold = []).
      { destruct (ranked_rows db q default_similarity_threshold) as [|d l] eqn:Hr;
          [reflexivity|].
        assert (Hd : In d (ranked_rows db q default_similarity_threshold))
          by (rewrite Hr; now left).
        apply ranked_rows_in in Hd as [Hd Hgt]. rewrite (Hnone d Hd) in Hgt.
        discriminate. }
      rewrite Hrows. now rewrite firstn_nil. }
    split; [exact Hempty|].
    unfold answer_question. now rewrite Hq, Hempty.
  - intros q rows Hk Hrun Hempty d Hd.
    destruct (float8_gt (similarity_to q d) default_similarity_threshold) eqn:Hgt;
      [|reflexivity].
    exfalso.
    unfold get_similar_documents in Hempty. rewrite Hrun in Hempty. subst rows.
    apply execute_similarity_ok in Hrun as (_ & _ & Hrows).
    assert (Hin : In d (ranked_rows db q default_similarity_threshold)).
    { unfold ranked_rows. eapply Permutation_in; [apply Permutation_sym, order_by_perm|].
      apply filter_In. auto. }
    destruct (ranked_rows db q default_similarity_threshold) as [|r l]; [destruct Hin|].
    destruct (Z.to_nat top_k) as [|n] eqn:Hn; [lia|].
    simpl in Hrows. discriminate.
  - intros q e Hq Hraise.
    assert (Hempty : get_similar_documents db q top_k default_similarity_threshold = []).
    { unfold get_similar_documents. now rewrite Hraise. }
    split; [exact Hempty|].
    unfold answer_question. now rewrite Hq, Hempty.
  - intros e He. unfold answer_question. rewrite He.
    repeat split. discriminate.
Qed.

(** The three cases on the sample table: a question whose direction no row
    has, the connection down, and the embedding model down. *)
Lemma retrieval_failures_witness :
  answer_question (E := Samples.stable_executor) (P := Samples.sample_providers)
    (Sm := Samples.sequential_sum)
    Samples.east_only [] "north" 5 = (no_information_response, []) /\
  answer_question (E := Samples.stable_executor) (P := Samples.sample_providers)
    (Sm := Samples.sequential_sum)
    Samples.three_rows_down [] "north" 5 = (no_information_response, []) /\
  answer_question (E := Samples.stable_executor) (P := Samples.failing_providers)
    (Sm := Samples.sequential_sum)
    Samples.three_rows [] "north" 5 =
    (error_response (ProviderError "embedding request failed"), []).
Proof.
  split; [|split].
  - apply (proj1 (retrieval_failures Samples.stable_executor Samples.sample_providers
                    Samples.sequential_sum
                    Samples.east_only [] "north" 5) (Samples.vec2 1 0)).
    + reflexivity.
    + intros d [<-|[]]. vm_compute. reflexivity.
  - apply (proj1 (proj2 (proj2 (retrieval_failures Samples.stable_executor
                                  Samples.sample_providers Samples.sequential_sum
                                  Samples.three_rows_down [] "north" 5)))
             (Samples.vec2 1 0) OperationalError).
    + reflexivity.
    + vm_compute. reflexivity.
  - apply (proj2 (proj2 (proj2 (retrieval_failures Samples.stable_executor
                                  Samples.failing_providers Samples.sequential_sum
                                  Samples.three_rows [] "north" 5)))
             (ProviderError "embedding request failed")).
    reflexivity.
Defined.

(** ** The claims about ingestion and deletion *)

Section Ingestion.
Context {E : Executor} {P : Providers}.

(** [store_document] returns: whatever the insert raised was caught. *)
Lemma store_document_returns (db : Session) (v : pyval) (text : string) (vec : list Q)
  (md : option (gmap string pyval)) :
  exists r, (store_document db v text vec md).1 = Ok r.
Proof.
  unfold store_document.
  destruct (insert_document db v text vec _) as [[i|e] db']; simpl; eauto.
Qed.

Lemma store_document_match {T : Type} (db : Session) (v : pyval) (text : string)
  (vec : list Q) (md : option (gmap string pyval))
  (k : Session -> T) (h : exn -> Session -> T) :
  match store_document db v text vec md with
  | (Ok _, db1) => k db1
  | (Raise e, db1) => h e db1
  end = k (store_document db v text vec md).2.
Proof.
  destruct (store_document_returns db v text vec md) as [r Hr].
  destruct (store_document db v text vec md) as [[r'|e] db1]; simpl in *;
    [reflexivity | discriminate].
Qed.

(** The three outcomes of a write: the row is stored; the write is refused
    before an id is drawn; the write is refused after an id was drawn. *)
Lemma store_document_cases (db : Session) (v : pyval) (text : string) (vec : list Q)
  (md : option (gmap string pyval)) :
  (exists name,
     connected db = true /\ length vec = EMBEDDING_DIM /\ filename_column v = Ok name /\
     store_document db v text vec md =
       (Ok (Some (next_id db)),
        {| connected := connected db;
           documents := (documents db ++
             [{| id := next_id db; filename := name; content := text;
                 doc_metadata := default ∅ md; embedding := vec |}])%list;
           next_id := next_id db + 1 |})) \/
  (store_document db v text vec md = (Ok None, db) /\
   (connected db = false \/ length vec <> EMBEDDING_DIM \/
    (v <> VNone /\ exists e, filename_column v = Raise e))) \/
  (store_document db v text vec md = (Ok None, nextval db) /\
   connected db = true /\ length vec = EMBEDDING_DIM /\ v = VNone).
Proof.
  unfold store_document, insert_document.
  destruct (connected db) eqn:Hc; simpl; [|right; left; auto].
  destruct (Nat.eqb (length vec) EMBEDDING_DIM) eqn:Hn; simpl.
  - apply Nat.eqb_eq in Hn.
    destruct v as [|b|n|s]; simpl.
    + right. right. auto.
    + destruct (bind_text (VBool b)) as [name|e] eqn:Hv.
      * left. exists name. destruct md; auto.
      * right. left. split; [reflexivity|]. right. right. split; [discriminate | eauto].
    + destruct (bind_text (VInt n)) as [name|e] eqn:Hv.
      * left. exists name. destruct md; auto.
      * right. left. split; [reflexivity|]. right. right. split; [discriminate | eauto].
    + left. exists s. destruct md; auto.
  - apply Nat.eqb_neq in Hn. right. left. auto.
Qed.

Lemma store_document_appends (db : Session) (v : pyval) (text : string) (vec : list Q)
  (md : option (gmap string pyval)) :
  exists added,
    documents (snd (store_document db v text vec md)) = (documents db ++ added)%list /\
    Forall (fun d => filename_column v = Ok (filename d)) added.
Proof.
  destruct (store_document_cases db v text vec md)
    as [(name & _ & _ & Hname & ->) | [[-> _] | [-> _]]]; simpl.
  - eexists. split; [reflexivity|]. repeat constructor. exact Hname.
  - exists []. split; [now rewrite app_nil_r | constructor].
  - exists []. split; [now rewrite app_nil_r | constructor].
Qed.

Lemma updated_filename (heap : Heap) (ref : nat) (fname : string)
  (metadata : option (gmap string pyval)) (d : gmap string pyval) :
  heap !! ref = Some d ->
  d !! "filename" = Some (VStr fname) ->
  dict_get (if truthy metadata then dict_update heap ref (default ∅ metadata) else heap)
    ref "filename" = Ok (effective_filename fname metadata).
Proof.
  intros Hd Hf. unfold dict_get, effective_filename, truthy, dict_update.
  destruct metadata as [m|]; simpl.
  - destruct (bool_decide (m = ∅)) eqn:Hm; simpl.
    + apply bool_decide_eq_true in Hm. subst m.
      rewrite Hd, Hf, lookup_empty. reflexivity.
    + rewrite list_lookup_alter_eq, Hd. simpl.
      destruct (m !! "filename") as [v|] eqn:Hv.
      * now rewrite (lookup_union_Some_l m d _ _ Hv).
      * rewrite lookup_union_r by exact Hv. now rewrite Hf.
  - now rewrite Hd, Hf.
Qed.

Lemma store_chunks_filenames (fname : string) (metadata : option (gmap string pyval))
  (chunks : list ChunkData) (db : Session) (heap : Heap) :
  List.NoDup (map cd_metadata chunks) ->
  (forall c, In c chunks ->
     exists d, heap !! cd_metadata c = Some d /\ d !! "filename" = Some (VStr fname)) ->
  exists added,
    documents (store_chunks db heap metadata chunks).1.2 = (documents db ++ added)%list /\
    Forall (fun d => filename_column (effective_filename fname metadata) = Ok (filename d)) added.
Proof.
  revert db heap. induction chunks as [|c chunks IH]; intros db heap Hnd Hheap.
  - exists []. simpl. split; [now rewrite app_nil_r | constructor].
  - cbn [store_chunks].
    destruct (Hheap c (or_introl eq_refl)) as (d & Hd & Hf).
    rewrite (updated_filename heap (cd_metadata c) fname metadata d Hd Hf).
    set (heap1 := if truthy metadata
                  then dict_update heap (cd_metadata c) (default ∅ metadata) else heap).
    assert (Hlen : heap1 !! cd_metadata c <> None).
    { subst heap1. destruct (truthy metadata); [|congruence].
      unfold dict_update. rewrite list_lookup_alter_eq, Hd. discriminate. }
    destruct (heap1 !! cd_metadata c) as [stored|] eqn:Hstored; [|congruence].
    rewrite store_document_match.
    destruct (store_document_appends db (effective_filename fname metadata) (cd_content c)
                (cd_embedding c) (Some stored)) as (added1 & Hdocs1 & Hall1).
    set (db1 := (store_document db (effective_filename fname metadata) (cd_content c)
                   (cd_embedding c) (Some stored)).2) in *.
    simpl in Hnd. apply List.NoDup_cons_iff in Hnd as [Hc Hnd].
    destruct (IH db1 heap1 Hnd) as (added2 & Hdocs2 & Hall2).
    { intros c' Hc'. destruct (Hheap c' (or_intror Hc')) as (d' & Hd' & Hf').
      exists d'. split; [|exact Hf'].
      subst heap1. destruct (truthy metadata); [|exact Hd'].
      unfold dict_update. rewrite list_lookup_alter_ne; [exact Hd'|].
      intros Heq. apply Hc. rewrite Heq. now apply in_map. }
    exists (added1 ++ added2)%list. split.
    + rewrite Hdocs2, Hdocs1. now rewrite app_assoc.
    + apply Forall_app. auto.
Qed.

Lemma build_chunks_refs (fname : string) (total : nat) (pairs : list (string * list Q)) :
  forall (i : Z) (heap : Heap),
    map cd_metadata (build_chunks fname total i pairs heap).1 =
      seq (length heap) (length pairs) /\
    (exists ext, (build_chunks fname total i pairs heap).2 = (heap ++ ext)%list) /\
    (forall c, In c (build_chunks fname total i pairs heap).1 ->
       exists d, (build_chunks fname total i pairs heap).2 !! cd_metadata c = Some d /\
                 d !! "filename" = Some (VStr fname)).
Proof.
  induction pairs as [|[chunk vec] pairs IH]; intros i heap.
  - simpl. split; [reflexivity|]. split; [exists []; now rewrite app_nil_r|]. intros c [].
  - cbn [build_chunks].
    match goal with |- context [build_chunks fname total (i + 1) pairs ?h] =>
      specialize (IH (i + 1) h);
      destruct (build_chunks fname total (i + 1) pairs h) as [processed heap'] eqn:Hb
    end.
    simpl in IH. destruct IH as (Hrefs & [ext Hext] & Hlookup).
    simpl. split; [|split].
    + rewrite Hrefs. rewrite length_app. simpl. f_equal. f_equal. lia.
    + eexists. rewrite Hext. rewrite <- app_assoc. reflexivity.
    + intros c [<-|Hc]; [|now apply Hlookup].
      simpl. rewrite Hext. rewrite <- app_assoc. simpl.
      rewrite list_lookup_middle by reflexivity.
      eexists. split; [reflexivity|]. apply lookup_insert_eq.
Qed.

(** What ingestion stores: rows are only added, and each new row's filename
    is the column's reading of the caller's ["filename"] value when the
    caller's metadata has that key, and of the filename argument otherwise. *)
Lemma ingest_effective_filename (db : Session) (heap : Heap) (text fname : string)
  (metadata : option (gmap string pyval)) :
  exists added,
    documents (process_and_store_document db heap text fname metadata).1.2 =
      (documents db ++ added)%list /\
    Forall (fun d => filename_column (effective_filename fname metadata) = Ok (filename d)) added.
Proof.
  unfold process_and_store_document, process_document.
  destruct (chunk_text text 1000 200) as [chunks|e]; simpl;
    [|exists []; split; [now rewrite app_nil_r | constructor]].
  destruct (generate_embeddings_batch chunks) as [embeddings|e]; simpl;
    [|exists []; split; [now rewrite app_nil_r | constructor]].
  pose proof (build_chunks_refs fname (length chunks) (combine chunks embeddings) 0 heap)
    as (Hrefs & _ & Hlookup).
  destruct (build_chunks fname (length chunks) 0 (combine chunks embeddings) heap)
    as [processed heap'].
  simpl in Hrefs, Hlookup.
  destruct (store_chunks_filenames fname metadata processed db heap') as (added & Hdocs & Hall).
  { rewrite Hrefs. apply seq_NoDup. }
  { exact Hlookup. }
  exists added. split; [|exact Hall].
  destruct (store_chunks db heap' metadata processed) as [[[u|e] db'] heap'']; exact Hdocs.
Qed.

End Ingestion.

(** C3.  The stored filename does not always equal the filename argument:
    [chunk_metadata] and [chunk_data["metadata"]] are one dictionary, so a
    ["filename"] key in the caller's metadata replaces the default before
    [chunk_data["metadata"]["filename"]] is read for the column.  Ingesting
    "hello" as a.txt with metadata [{"filename": "b.txt"}] succeeds and stores
    one chunk, under b.txt in the column and in the metadata. *)
Theorem ingest_filename_overwritten :
  let '(success, db, heap) :=
    process_and_store_document (E := Samples.stable_executor) (P := Samples.sample_providers)
      Samples.empty_session [] "hello" "a.txt"
      (Some {[ "filename" := VStr "b.txt" ]}) in
  success = true /\
  map filename (documents db) = ["b.txt"] /\
  map (fun d => doc_metadata d !! "filename") (documents db) = [Some (VStr "b.txt")] /\
  map content (documents db) = ["hello"].
Proof.
  vm_compute. repeat split.
Qed.

(** C6, as the specification states it, fails on the table of three rows: no
    row is of ghost.txt, and the call returns true. *)
Lemma delete_reports_missing_counterexample :
  ~ delete_reports_missing Samples.three_rows "ghost.txt".
Proof.
  unfold delete_reports_missing. intros H.
  assert (Hret : fst (delete_document Samples.three_rows "ghost.txt") = false).
  { apply H. intros d Hd. simpl in Hd.
    destruct Hd as [<-|[<-|[<-|[]]]]; simpl; discriminate. }
  vm_compute in Hret. discriminate.
Qed.

Lemma fold_delete_row_connected (chunks : list Document) (db : Session) :
  connected (fold_left delete_row chunks db) = connected db /\
  next_id (fold_left delete_row chunks db) = next_id db.
Proof.
  revert db. induction chunks as [|c chunks IH]; intros db; simpl; [auto|].
  destruct (IH (delete_row db c)) as [-> ->]. auto.
Qed.

Lemma fold_delete_row_documents (chunks : list Document) (db : Session) :
  documents (fold_left delete_row chunks db) =
  List.filter (fun d => negb (existsb (fun c => id d =? id c) chunks)) (documents db).
Proof.
  revert db. induction chunks as [|c chunks IH]; intros db; simpl.
  - induction (documents db) as [|d l IHl]; simpl; [reflexivity|]. now rewrite <- IHl.
  - rewrite IH. simpl.
    induction (documents db) as [|d l IHl]; simpl; [reflexivity|].
    destruct (id d =? id c); simpl; [exact IHl|].
    destruct (existsb (fun c0 => id d =? id c0) chunks); simpl; [exact IHl|].
    now rewrite IHl.
Qed.

Lemma filter_all {A : Type} (f : A -> bool) (l : list A) :
  (forall x, In x l -> f x = true) -> List.filter f l = l.
Proof.
  induction l as [|x l IH]; simpl; intros H; [reflexivity|].
  rewrite H by now left. f_equal. apply IH. intros y Hy. apply H. now right.
Qed.

Lemma NoDup_map_id_eq (l : list Document) (c d : Document) :
  List.NoDup (map id l) -> In c l -> In d l -> id c = id d -> c = d.
Proof.
  induction l as [|x l IH]; simpl; [tauto|].
  intros Hnd Hc Hd Hid. apply List.NoDup_cons_iff in Hnd as [Hx Hnd].
  destruct Hc as [->|Hc], Hd as [->|Hd]; auto.
  - exfalso. apply Hx. rewrite Hid. now apply in_map.
  - exfalso. apply Hx. rewrite <- Hid. now apply in_map.
Qed.

(** C6, amended.  With the store reachable, [delete_document] returns true
    and leaves no chunk of that filename, whether or not there was one; the
    chunks of the other filenames stay (ids are the primary key), so a
    filename without chunks leaves the table as it was.  With the store
    unreachable it returns false, raises nothing and changes nothing. *)
Theorem delete_document_removes_all (db : Session) (fname : string) :
  (connected db = true ->
     fst (delete_document db fname) = true /\
     Forall (fun d => filename d <> fname) (documents (snd (delete_document db fname))) /\
     (List.NoDup (map id (documents db)) ->
        documents (snd (delete_document db fname)) =
        List.filter (fun d => negb (bool_decide (filename d = fname))) (documents db)) /\
     (List.NoDup (map id (documents db)) ->
        (forall d, In d (documents db) -> filename d <> fname) ->
        documents (snd (delete_document db fname)) = documents db)) /\
  (connected db = false -> delete_document db fname = (false, db)).
Proof.
  unfold delete_document, query_by_filename. split; intros Hc; rewrite Hc; simpl;
    [|reflexivity].
  rewrite fold_delete_row_documents.
  assert (Hkept : List.NoDup (map id (documents db)) ->
            List.filter
              (fun d => negb (existsb (fun c => id d =? id c)
                 (List.filter (fun d0 => bool_decide (filename d0 = fname)) (documents db))))
              (documents db) =
            List.filter (fun d => negb (bool_decide (filename d = fname))) (documents db)).
  { intros Hnd. apply filter_ext_in. intros d Hd. f_equal.
    destruct (bool_decide (filename d = fname)) eqn:Hf.
    - apply existsb_exists. exists d. split; [|apply Z.eqb_refl].
      apply filter_In. auto.
    - destruct (existsb _ _) eqn:Hex; [|reflexivity].
      apply existsb_exists in Hex as (c & Hcin & Hid).
      apply filter_In in Hcin as [Hcin Hcf]. apply Z.eqb_eq in Hid.
      rewrite (NoDup_map_id_eq _ c d Hnd Hcin Hd (eq_sym Hid)) in Hcf. congruence. }
  split; [reflexivity|]. split; [|split].
  - rewrite List.Forall_forall. intros d Hd Hname.
    apply filter_In in Hd as [Hd Hex]. apply negb_true_iff in Hex.
    assert (Hin : existsb (fun c => id d =? id c)
              (List.filter (fun d0 => bool_decide (filename d0 = fname)) (documents db)) = true).
    { apply existsb_exists. exists d. split; [|apply Z.eqb_refl].
      apply filter_In. split; [exact Hd|]. now apply bool_decide_eq_true. }
    congruence.
  - exact Hkept.
  - intros Hnd Hnone. rewrite (Hkept Hnd).
    apply filter_all. intros d Hd.
    rewrite bool_decide_eq_false_2 by now apply Hnone. reflexivity.
Qed.

(** Deleting a.txt, and deleting ghost.txt, from the table of three rows;
    and deleting with the connection down. *)
Lemma delete_document_removes_all_witness :
  map filename (documents (snd (delete_document Samples.three_rows "a.txt"))) =
    ["b.txt"; "c.txt"] /\
  fst (delete_document Samples.three_rows "ghost.txt") = true /\
  documents (snd (delete_document Samples.three_rows "ghost.txt")) =
    documents Samples.three_rows /\
  delete_document Samples.three_rows_down "a.txt" = (false, Samples.three_rows_down).
Proof.
  assert (Hnd : List.NoDup (map id (documents Samples.three_rows))).
  { simpl. repeat constructor; simpl; intuition discriminate. }
  split; [|split; [|split]].
  - destruct (proj1 (delete_document_removes_all Samples.three_rows "a.txt") eq_refl)
      as (_ & _ & Hfilter & _).
    rewrite (Hfilter Hnd). vm_compute. reflexivity.
  - apply (proj1 (delete_document_removes_all Samples.three_rows "ghost.txt") eq_refl).
  - apply (proj1 (delete_document_removes_all Samples.three_rows "ghost.txt") eq_refl).
    + exact Hnd.
    + intros d Hd. simpl in Hd.
      destruct Hd as [<-|[<-|[<-|[]]]]; simpl; discriminate.
  - apply (proj2 (delete_document_removes_all Samples.three_rows_down "a.txt")).
    reflexivity.
Defined.

(** ** The claims about the embedding service *)

(** C9, as the specification states it, fails: with an overlap equal to the
    chunk size the splitter is built and the text is split. *)
Lemma chunk_text_overlap_counterexample :
  ~ (forall (P : Providers) (text : string) (chunk_size chunk_overlap : Z),
       chunk_size <= chunk_overlap ->
       exists e, chunk_text text chunk_size chunk_overlap = Raise e).
Proof.
  intros H.
  destruct (H Samples.sample_providers "hello" 5 5) as [e He]; [lia|].
  vm_compute in He. discriminate.
Qed.

(** C9, amended.  [chunk_text] checks nothing itself.  With an overlap larger
    than the chunk size the splitter's constructor raises [ValueError], which
    [chunk_text] raises again, and no chunk is returned; with an overlap equal
    to a positive chunk size the constructor accepts, and the outcome is that
    of [split_text]. *)
Theorem chunk_text_overlap (P : Providers) (text : string) (chunk_size chunk_overlap : Z) :
  (chunk_size < chunk_overlap ->
     exists msg, chunk_text text chunk_size chunk_overlap = Raise (ValueError msg)) /\
  (0 < chunk_size -> chunk_overlap = chunk_size ->
     chunk_text text chunk_size chunk_overlap = split_text chunk_size chunk_overlap text).
Proof.
  unfold chunk_text. split.
  - intros Hlt.
    destruct (splitter_init_larger_overlap chunk_size chunk_overlap Hlt) as [msg Hmsg].
    exists msg. now rewrite Hmsg.
  - intros Hpos ->.
    rewrite splitter_init_accepts by lia. simpl.
    now destruct (split_text chunk_size chunk_size text).
Qed.

(** Chunks of five characters with an overlap of six, and with one of five. *)
Lemma chunk_text_overlap_witness :
  (exists msg, chunk_text (P := Samples.sample_providers) "hello" 5 6 = Raise (ValueError msg)) /\
  chunk_text (P := Samples.sample_providers) "hello" 5 5 = Ok ["hello"].
Proof.
  split.
  - apply (proj1 (chunk_text_overlap Samples.sample_providers "hello" 5 6)). lia.
  - rewrite (proj2 (chunk_text_overlap Samples.sample_providers "hello" 5 5)) by lia.
    vm_compute. reflexivity.
Defined.

Lemma np_dot_aligned {N : Numpy} (vec1 vec2 : list float) :
  length vec1 = length vec2 ->
  np_dot vec1 vec2 = Ok (sum_products (combine vec1 vec2)).
Proof.
  intros Hlen. unfold np_dot. now rewrite Hlen, Nat.eqb_refl.
Qed.

(** On vectors of different lengths [np.dot] raises. *)
Lemma cosine_similarity_not_aligned {N : Numpy} (vec1 vec2 : list float) :
  length vec1 <> length vec2 ->
  _cosine_similarity vec1 vec2 = Raise (ValueError "shapes not aligned").
Proof.
  intros Hlen. unfold _cosine_similarity, np_dot.
  apply Nat.eqb_neq in Hlen. now rewrite Hlen.
Qed.




(** * Further properties of the code *)

(** ** The identity of rows *)


(** The metadata dictionary [process_document] gives the chunk of index [i]. *)
Definition default_metadata (fname : string) (total : nat) (i : Z) (chunk : string)
  : gmap string pyval :=
  <["filename" := VStr fname]>
  (<["chunk_index" := VInt i]>
  (<["total_chunks" := VInt (Z.of_nat total)]>
  (<["chunk_size" := VInt (Z.of_nat (String.length chunk))]> ∅))).

(** The dictionary stored with a chunk: the default one, under the caller's
    keys when the caller's metadata is not empty. *)
Definition merged_metadata (metadata : option (gmap string pyval))
  (d : gmap string pyval) : gmap string pyval :=
  if truthy metadata then default ∅ metadata ∪ d else d.

(** The rows an ingestion adds when every write succeeds. *)
Fixpoint expected_rows (name fname : string) (metadata : option (gmap string pyval))
  (total : nat) (i next : Z) (pairs : list (string * list Q)) : list Document :=
  match pairs with
  | [] => []
  | (chunk, vec) :: rest =>
      {| id := next; filename := name; content := chunk;
         doc_metadata := merged_metadata metadata (default_metadata fname total i chunk);
         embedding := vec |}
      :: expected_rows name fname metadata total (i + 1) (next + 1) rest
  end.

(** The [chunk_data] dictionaries of [process_document], and where their
    metadata lie in the heap. *)
Fixpoint mk_chunks (base : nat) (pairs : list (string * list Q)) : list ChunkData :=
  match pairs with
  | [] => []
  | (chunk, vec) :: rest =>
      {| cd_content := chunk; cd_embedding := vec; cd_metadata := base |}
      :: mk_chunks (S base) rest
  end.

Fixpoint heap_has (heap : Heap) (fname : string) (total : nat) (base : nat) (i : Z)
  (pairs : list (string * list Q)) : Prop :=
  match pairs with
  | [] => True
  | (chunk, vec) :: rest =>
      heap !! base = Some (default_metadata fname total i chunk) /\
      heap_has heap fname total (S base) (i + 1) rest
  end.

Section Identity.
Context {E : Executor} {P : Providers}.







End Identity.

Section IngestionRows.
Context {E : Executor} {P : Providers}.

Lemma default_metadata_filename fname total i chunk :
  default_metadata fname total i chunk !! "filename" = Some (VStr fname).
Proof. unfold default_metadata. apply lookup_insert_eq. Qed.

Lemma build_chunks_spec (fname : string) (total : nat) (pairs : list (string * list Q)) :
  forall (i : Z) (heap : Heap),
    (build_chunks fname total i pairs heap).1 = mk_chunks (length heap) pairs /\
    heap_has (build_chunks fname total i pairs heap).2 fname total (length heap) i pairs.
Proof.
  induction pairs as [|[chunk vec] pairs IH]; intros i heap; [simpl; auto|].
  cbn [build_chunks].
  fold (default_metadata fname total i chunk).
  pose proof (build_chunks_refs fname total pairs (i + 1)
                (heap ++ [default_metadata fname total i chunk])%list) as (_ & [ext Hext] & _).
  specialize (IH (i + 1) (heap ++ [default_metadata fname total i chunk])%list).
  destruct (build_chunks fname total (i + 1) pairs
              (heap ++ [default_metadata fname total i chunk])%list) as [processed heap'].
  simpl in *. destruct IH as [Hp Hh].
  rewrite length_app in Hp, Hh. simpl in Hp, Hh.
  replace (length heap + 1)%nat with (S (length heap)) in Hp, Hh by lia.
  split; [now rewrite Hp|]. split; [|exact Hh].
  rewrite Hext, <- app_assoc. simpl.
  now rewrite list_lookup_middle.
Qed.

Lemma heap_has_alter (g : gmap string pyval -> gmap string pyval) (fname : string)
  (total : nat) (pairs : list (string * list Q)) :
  forall (heap : Heap) (ref base : nat) (i : Z),
    (ref < base)%nat ->
    heap_has heap fname total base i pairs ->
    heap_has (alter g ref heap) fname total base i pairs.
Proof.
  induction pairs as [|[chunk vec] pairs IH]; intros heap ref base i Hlt; simpl; [auto|].
  intros [Hhere Hrest]. split.
  - rewrite list_lookup_alter_ne by lia. exact Hhere.
  - apply IH; [lia | exact Hrest].
Qed.

Lemma store_chunks_step (db : Session) (heap : Heap) (metadata : option (gmap string pyval))
  (fname : string) (total : nat) (base : nat) (i : Z) (chunk : string) (vec : list Q)
  (rest : list ChunkData) :
  heap !! base = Some (default_metadata fname total i chunk) ->
  store_chunks db heap metadata
    ({| cd_content := chunk; cd_embedding := vec; cd_metadata := base |} :: rest) =
  store_chunks
    (store_document db (effective_filename fname metadata) chunk vec
       (Some (merged_metadata metadata (default_metadata fname total i chunk)))).2
    (if truthy metadata then dict_update heap base (default ∅ metadata) else heap)
    metadata rest.
Proof.
  intros Hd. cbn [store_chunks cd_metadata cd_content cd_embedding].
  rewrite (updated_filename heap base fname metadata _ Hd
             (default_metadata_filename fname total i chunk)).
  assert (Hstored :
    (if truthy metadata then dict_update heap base (default ∅ metadata) else heap) !! base =
    Some (merged_metadata metadata (default_metadata fname total i chunk))).
  { unfold merged_metadata, dict_update. destruct (truthy metadata); [|exact Hd].
    now rewrite list_lookup_alter_eq, Hd. }
  rewrite Hstored.
  now rewrite store_document_match.
Qed.

Lemma heap_has_step (heap : Heap) (metadata : option (gmap string pyval))
  (fname : string) (total : nat) (base : nat) (i : Z) (pairs : list (string * list Q)) :
  heap_has heap fname total (S base) i pairs ->
  heap_has (if truthy metadata then dict_update heap base (default ∅ metadata) else heap)
    fname total (S base) i pairs.
Proof.
  intros H. destruct (truthy metadata); [|exact H].
  unfold dict_update. apply heap_has_alter; [lia | exact H].
Qed.

(** The loop never raises on the chunks of [process_document]. *)
Lemma store_chunks_returns (metadata : option (gmap string pyval)) (fname : string)
  (total : nat) (pairs : list (string * list Q)) :
  forall (base : nat) (i : Z) (db : Session) (heap : Heap),
    heap_has heap fname total base i pairs ->
    (store_chunks db heap metadata (mk_chunks base pairs)).1.1 = Ok tt.
Proof.
  induction pairs as [|[chunk vec] pairs IH]; intros base i db heap Hh; [reflexivity|].
  destruct Hh as [Hd Hrest]. cbn [mk_chunks].
  rewrite (store_chunks_step db heap metadata fname total base i chunk vec _ Hd).
  apply (IH (S base) (i + 1)). now apply heap_has_step.
Qed.

(** Writes that cannot succeed leave the session as it is. *)
Lemma store_chunks_nothing (metadata : option (gmap string pyval)) (fname : string)
  (total : nat) (pairs : list (string * list Q)) :
  forall (base : nat) (i : Z) (db : Session) (heap : Heap),
    heap_has heap fname total base i pairs ->
    connected db = false \/ Forall (fun p => length p.2 <> EMBEDDING_DIM) pairs ->
    (store_chunks db heap metadata (mk_chunks base pairs)).1.2 = db.
Proof.
  induction pairs as [|[chunk vec] pairs IH]; intros base i db heap Hh Hno; [reflexivity|].
  destruct Hh as [Hd Hrest]. cbn [mk_chunks].
  rewrite (store_chunks_step db heap metadata fname total base i chunk vec _ Hd).
  assert (Hsame : (store_document db (effective_filename fname metadata) chunk vec
            (Some (merged_metadata metadata (default_metadata fname total i chunk)))).2 = db).
  { destruct (store_document_cases db (effective_filename fname metadata) chunk vec
                (Some (merged_metadata metadata (default_metadata fname total i chunk))))
      as [(name & Hc & Hn & _ & _) | [[-> _] | (_ & Hc & Hn & _)]]; [|reflexivity|];
      exfalso; (destruct Hno as [Hno|Hno]; [congruence|]);
      apply Forall_cons in Hno as [Hno _]; simpl in Hno; contradiction. }
  rewrite Hsame. apply (IH (S base) (i + 1)).
  - now apply heap_has_step.
  - destruct Hno as [Hno|Hno]; [now left|]. right. now apply Forall_cons in Hno as [_ Hno].
Qed.

(** Writes that all succeed add the expected rows. *)
Lemma store_chunks_rows (metadata : option (gmap string pyval)) (name fname : string)
  (total : nat) (pairs : list (string * list Q)) :
  filename_column (effective_filename fname metadata) = Ok name ->
  forall (base : nat) (i : Z) (db : Session) (heap : Heap),
    connected db = true ->
    Forall (fun p => length p.2 = EMBEDDING_DIM) pairs ->
    heap_has heap fname total base i pairs ->
    documents (store_chunks db heap metadata (mk_chunks base pairs)).1.2 =
      (documents db ++ expected_rows name fname metadata total i (next_id db) pairs)%list /\
    next_id (store_chunks db heap metadata (mk_chunks base pairs)).1.2 =
      next_id db + Z.of_nat (length pairs) /\
    connected (store_chunks db heap metadata (mk_chunks base pairs)).1.2 = true.
Proof.
  intros Hname.
  induction pairs as [|[chunk vec] pairs IH]; intros base i db heap Hc Hdim Hh.
  { simpl. rewrite app_nil_r. repeat split; [lia | exact Hc]. }
  destruct Hh as [Hd Hrest]. cbn [mk_chunks].
  rewrite (store_chunks_step db heap metadata fname total base i chunk vec _ Hd).
  apply Forall_cons in Hdim as [Hvec Hdim]. simpl in Hvec.
  destruct (store_document_cases db (effective_filename fname metadata) chunk vec
              (Some (merged_metadata metadata (default_metadata fname total i chunk))))
    as [(name' & _ & _ & Hname' & ->) | [[_ [Hno|[Hno|[_ [e Hno]]]]] | (_ & _ & _ & Hno)]];
    try congruence; [|rewrite Hno in Hname; discriminate].
  rewrite Hname in Hname'. injection Hname' as <-.
  cbn [snd].
  match goal with |- context [store_chunks ?d ?h metadata _] =>
    destruct (IH (S base) (i + 1) d h) as (Hdocs & Hnext & Hconn);
      [exact Hc | exact Hdim | apply heap_has_step; exact Hrest |]
  end.
  rewrite Hdocs, Hnext, Hconn. simpl.
  rewrite <- app_assoc. simpl. repeat split. lia.
Qed.

End IngestionRows.

(** The number of chunks of a filename in the table. *)
Definition chunk_count (db : Session) (fname : string) : Z :=
  Z.of_nat (length (List.filter (fun d => bool_decide (filename d = fname)) (documents db))).

(** A scan in the order of insertion, with the id as the timestamp. *)
Definition insertion_scan : DbRows.Scan :=
  {| DbRows.scan := fun rows => rows;
     DbRows.created_at := id;
     DbRows.updated_at := id;
     DbRows.scan_perm := fun rows => Permutation_refl rows |}.

(** ** Writing, ingesting and deleting rows *)





(** [db.delete_document]: with the store reachable, an id of the table is
    deleted (true is returned and the rows of other ids stay, in order), and
    an id that no row has gives false and changes nothing; with the store
    unreachable the call gives false and changes nothing. *)
Theorem delete_document_by_id (db : Session) (document_id : Z) :
  (connected db = true -> In document_id (map id (documents db)) ->
     (DbRows.delete_document db document_id).1 = true /\
     documents (DbRows.delete_document db document_id).2 =
       List.filter (fun d => negb (id d =? document_id)) (documents db) /\
     ~ In document_id (map id (documents (DbRows.delete_document db document_id).2))) /\
  (~ In document_id (map id (documents db)) ->
     DbRows.delete_document db document_id = (false, db)) /\
  (connected db = false -> DbRows.delete_document db document_id = (false, db)).
Proof.
  unfold DbRows.delete_document. split; [|split].
  - intros Hc Hin. rewrite Hc. simpl.
    destruct (find (fun d => id d =? document_id) (documents db)) as [document|] eqn:Hf.
    + apply find_some in Hf as [_ Hid]. apply Z.eqb_eq in Hid.
      simpl. rewrite Hid. repeat split.
      intros Hin'. apply in_map_iff in Hin' as (d & Hd & Hin').
      apply filter_In in Hin' as [_ Hne]. apply negb_true_iff, Z.eqb_neq in Hne. congruence.
    + exfalso. apply in_map_iff in Hin as (d & Hd & Hin).
      apply (find_none _ _ Hf) in Hin. apply Z.eqb_neq in Hin. congruence.
  - intros Hnot. destruct (connected db); simpl; [|reflexivity].
    destruct (find (fun d => id d =? document_id) (documents db)) as [document|] eqn:Hf;
      [|reflexivity].
    exfalso. apply find_some in Hf as [Hin Hid]. apply Z.eqb_eq in Hid.
    apply Hnot. rewrite <- Hid. now apply in_map.
  - intros ->. reflexivity.
Qed.

(** Deleting id 2, and id 9, from the table of three rows. *)
Lemma delete_document_by_id_witness :
  map id (documents (DbRows.delete_document Samples.three_rows 2).2) = [1; 3] /\
  DbRows.delete_document Samples.three_rows 9 = (false, Samples.three_rows) /\
  DbRows.delete_document Samples.three_rows_down 2 = (false, Samples.three_rows_down).
Proof.
  split; [|split].
  - destruct (proj1 (delete_document_by_id Samples.three_rows 2) eq_refl)
      as (_ & -> & _); [simpl; auto|]. reflexivity.
  - apply (proj1 (proj2 (delete_document_by_id Samples.three_rows 9))).
    simpl. intros [H|[H|[H|[]]]]; discriminate.
  - apply (proj2 (proj2 (delete_document_by_id Samples.three_rows_down 2))). reflexivity.
Defined.

Section IngestionOutcome.
Context {E : Executor} {P : Providers}.

Lemma process_document_ok (heap : Heap) (text fname : string) (chunks : list string)
  (embeddings : list (list Q)) :
  chunk_text text 1000 200 = Ok chunks ->
  generate_embeddings_batch chunks = Ok embeddings ->
  exists heap',
    process_document heap text fname =
      Ok (mk_chunks (length heap) (combine chunks embeddings), heap') /\
    heap_has heap' fname (length chunks) (length heap) 0 (combine chunks embeddings).
Proof.
  intros Hc He. unfold process_document. rewrite Hc. simpl. rewrite He. simpl.
  pose proof (build_chunks_spec fname (length chunks) (combine chunks embeddings) 0 heap)
    as [Hp Hh].
  destruct (build_chunks fname (length chunks) 0 (combine chunks embeddings) heap)
    as [processed heap'].
  simpl in *. subst processed. eauto.
Qed.

End IngestionOutcome.

(** What the success flag of ingestion means.  [process_and_store_document]
    returns true whenever chunking and the batch embedding succeed, whatever
    becomes of the writes: [store_document]'s result is not looked at.  It
    returns false only when the splitter or the embedding provider raised, and
    then no row was written. *)
Theorem ingestion_success_flag (E : Executor) (P : Providers) (db : Session) (heap : Heap)
  (text fname : string) (metadata : option (gmap string pyval)) :
  (forall chunks embeddings,
      chunk_text text 1000 200 = Ok chunks ->
      generate_embeddings_batch chunks = Ok embeddings ->
      (process_and_store_document db heap text fname metadata).1.1 = true) /\
  ((process_and_store_document db heap text fname metadata).1.1 = false ->
      (process_and_store_document db heap text fname metadata).1.2 = db /\
      ((exists e, chunk_text text 1000 200 = Raise e) \/
       (exists chunks e, chunk_text text 1000 200 = Ok chunks /\
                         generate_embeddings_batch chunks = Raise e))).
Proof.
  split.
  - intros chunks embeddings Hc He.
    destruct (process_document_ok heap text fname chunks embeddings Hc He)
      as (heap' & Hp & Hh).
    unfold process_and_store_document. rewrite Hp.
    pose proof (store_chunks_returns metadata fname (length chunks)
                  (combine chunks embeddings) (length heap) 0 db heap' Hh) as Hok.
    destruct (store_chunks db heap' metadata
                (mk_chunks (length heap) (combine chunks embeddings)))
      as [[[u|e] db'] heap'']; simpl in *; [reflexivity | discriminate].
  - destruct (chunk_text text 1000 200) as [chunks|e] eqn:Hc.
    + destruct (generate_embeddings_batch chunks) as [embeddings|e] eqn:He.
      * destruct (process_document_ok heap text fname chunks embeddings Hc He)
          as (heap' & Hp & Hh).
        unfold process_and_store_document. rewrite Hp.
        pose proof (store_chunks_returns metadata fname (length chunks)
                      (combine chunks embeddings) (length heap) 0 db heap' Hh) as Hok.
        destruct (store_chunks db heap' metadata
                    (mk_chunks (length heap) (combine chunks embeddings)))
          as [[[u|e] db'] heap'']; simpl in *; discriminate.
      * intros _. unfold process_and_store_document, process_document.
        rewrite Hc. simpl. rewrite He. simpl. split; [reflexivity|]. right. eauto.
    + intros _. unfold process_and_store_document, process_document.
      rewrite Hc. simpl. split; [reflexivity|]. left. eauto.
Qed.

(** The flag with the sample providers, and with the embedding model down. *)
Lemma ingestion_success_flag_witness :
  (process_and_store_document (E := Samples.stable_executor) (P := Samples.sample_providers)
     Samples.three_rows [] "hello" "d.txt" None).1.1 = true /\
  (process_and_store_document (E := Samples.stable_executor) (P := Samples.failing_providers)
     Samples.three_rows [] "hello" "d.txt" None).1.2 = Samples.three_rows.
Proof.
  split.
  - apply (proj1 (ingestion_success_flag Samples.stable_executor Samples.sample_providers
                    Samples.three_rows [] "hello" "d.txt" None)
             ["hello"] [Samples.sample_embed "hello"]); reflexivity.
  - apply (proj2 (ingestion_success_flag Samples.stable_executor Samples.failing_providers
                    Samples.three_rows [] "hello" "d.txt" None)).
    vm_compute. reflexivity.
Defined.

(** Ingestion that stores nothing and says it succeeded: when the store is
    unreachable, or every embedding has the wrong number of components, and
    chunking and embedding succeed, [process_and_store_document] returns true
    and the session is as it was. *)
Theorem ingestion_silent_failure (E : Executor) (P : Providers) (db : Session) (heap : Heap)
  (text fname : string) (metadata : option (gmap string pyval))
  (chunks : list string) (embeddings : list (list Q)) :
  chunk_text text 1000 200 = Ok chunks ->
  generate_embeddings_batch chunks = Ok embeddings ->
  connected db = false \/
    Forall (fun p => length p.2 <> EMBEDDING_DIM) (combine chunks embeddings) ->
  (process_and_store_document db heap text fname metadata).1.1 = true /\
  (process_and_store_document db heap text fname metadata).1.2 = db.
Proof.
  intros Hc He Hno.
  destruct (process_document_ok heap text fname chunks embeddings Hc He)
    as (heap' & Hp & Hh).
  unfold process_and_store_document. rewrite Hp.
  pose proof (store_chunks_returns metadata fname (length chunks)
                (combine chunks embeddings) (length heap) 0 db heap' Hh) as Hok.
  pose proof (store_chunks_nothing metadata fname (length chunks)
                (combine chunks embeddings) (length heap) 0 db heap' Hh Hno) as Hsame.
  destruct (store_chunks db heap' metadata
              (mk_chunks (length heap) (combine chunks embeddings)))
    as [[[u|e] db'] heap'']; simpl in *; [auto | discriminate].
Qed.

(** Ingesting "hello" with the connection down. *)
Lemma ingestion_silent_failure_witness :
  (process_and_store_document (E := Samples.stable_executor) (P := Samples.sample_providers)
     Samples.three_rows_down [] "hello" "d.txt" None).1.1 = true /\
  (process_and_store_document (E := Samples.stable_executor) (P := Samples.sample_providers)
     Samples.three_rows_down [] "hello" "d.txt" None).1.2 = Samples.three_rows_down.
Proof.
  apply (ingestion_silent_failure Samples.stable_executor Samples.sample_providers
           Samples.three_rows_down [] "hello" "d.txt" None
           ["hello"] [Samples.sample_embed "hello"]).
  - reflexivity.
  - reflexivity.
  - left. reflexivity.
Defined.

(** The rows of a successful ingestion. *)
Lemma process_and_store_document_rows (E : Executor) (P : Providers) (db : Session) (heap : Heap)
  (text fname name : string) (metadata : option (gmap string pyval))
  (chunks : list string) (embeddings : list (list Q)) :
  chunk_text text 1000 200 = Ok chunks ->
  generate_embeddings_batch chunks = Ok embeddings ->
  connected db = true ->
  Forall (fun p => length p.2 = EMBEDDING_DIM) (combine chunks embeddings) ->
  filename_column (effective_filename fname metadata) = Ok name ->
  let db' := (process_and_store_document db heap text fname metadata).1.2 in
  (process_and_store_document db heap text fname metadata).1.1 = true /\
  documents db' =
    (documents db ++
     expected_rows name fname metadata (length chunks) 0 (next_id db)
       (combine chunks embeddings))%list /\
  next_id db' = next_id db + Z.of_nat (length (combine chunks embeddings)).
Proof.
  intros Hc He Hconn Hdim Hname.
  destruct (process_document_ok heap text fname chunks embeddings Hc He)
    as (heap' & Hp & Hh).
  unfold process_and_store_document. rewrite Hp.
  pose proof (store_chunks_returns metadata fname (length chunks)
                (combine chunks embeddings) (length heap) 0 db heap' Hh) as Hok.
  pose proof (store_chunks_rows metadata name fname (length chunks)
                (combine chunks embeddings) Hname (length heap) 0 db heap'
                Hconn Hdim Hh) as (Hdocs & Hnext & _).
  destruct (store_chunks db heap' metadata
              (mk_chunks (length heap) (combine chunks embeddings)))
    as [[[u|e] db'] heap'']; simpl in *; [auto | discriminate].
Qed.



(** ** The listing of documents *)

Section ListingFacts.
Import DbRows Listing.

Definition count_name (p : list DocumentDict) (f : string) : Z :=
  Z.of_nat (length (List.filter (fun d => bool_decide (dd_filename d = f)) p)).

Definition sum_chunks (u : list DocumentEntry) : Z :=
  fold_right (fun e acc => chunks e + acc) 0 u.

(** The entry stands for a chunk of its filename among [p]. *)
Definition represents (p : list DocumentDict) (e : DocumentEntry) : Prop :=
  exists d, In d p /\ dd_filename d = de_filename e /\
            de_metadata e = dd_metadata d /\ de_created_at e = dd_created_at d.

(** What the loop of [get_document_list] keeps true of [unique_docs] after
    the dictionaries [p]. *)
Definition grouped (u : list DocumentEntry) (p : list DocumentDict) : Prop :=
  List.NoDup (map de_filename u) /\
  (forall f, In f (map de_filename u) <-> In f (map dd_filename p)) /\
  Forall (fun e => chunks e = count_name p (de_filename e) /\ represents p e) u /\
  sum_chunks u = Z.of_nat (length p).

Definition bump (fname : string) (e : DocumentEntry) : DocumentEntry :=
  if bool_decide (de_filename e = fname)
  then {| de_filename := de_filename e; chunks := chunks e + 1;
          de_created_at := de_created_at e; de_metadata := de_metadata e |}
  else e.

Lemma bump_filename fname e : de_filename (bump fname e) = de_filename e.
Proof. unfold bump. now destruct (bool_decide (de_filename e = fname)). Qed.

Lemma map_bump_filenames fname u :
  map de_filename (map (bump fname) u) = map de_filename u.
Proof.
  induction u as [|e u IH]; simpl; [reflexivity|]. now rewrite bump_filename, IH.
Qed.

Lemma count_name_snoc p d f :
  count_name (p ++ [d]) f =
  count_name p f + (if bool_decide (dd_filename d = f) then 1 else 0).
Proof.
  unfold count_name. rewrite List.filter_app, length_app. simpl.
  destruct (bool_decide (dd_filename d = f)); simpl; lia.
Qed.

Lemma count_name_absent p f :
  ~ In f (map dd_filename p) -> count_name p f = 0.
Proof.
  intros Hnot. unfold count_name.
  induction p as [|d p IH]; simpl; [reflexivity|].
  destruct (bool_decide (dd_filename d = f)) eqn:Hd.
  - exfalso. apply bool_decide_eq_true in Hd. apply Hnot. simpl. now left.
  - apply IH. intros Hin. apply Hnot. simpl. now right.
Qed.

Lemma sum_chunks_bump_absent fname u :
  ~ In fname (map de_filename u) -> sum_chunks (map (bump fname) u) = sum_chunks u.
Proof.
  induction u as [|e u IH]; simpl; intros Hnot; [reflexivity|].
  rewrite IH by tauto. unfold bump.
  rewrite bool_decide_eq_false_2 by tauto. reflexivity.
Qed.

Lemma sum_chunks_bump fname u :
  List.NoDup (map de_filename u) -> In fname (map de_filename u) ->
  sum_chunks (map (bump fname) u) = sum_chunks u + 1.
Proof.
  induction u as [|e u IH]; simpl; intros Hnd Hin; [tauto|].
  apply List.NoDup_cons_iff in Hnd as [Hnot Hnd].
  unfold bump at 1. destruct (bool_decide (de_filename e = fname)) eqn:He; simpl.
  - apply bool_decide_eq_true in He. subst fname.
    rewrite sum_chunks_bump_absent by exact Hnot. lia.
  - apply bool_decide_eq_false in He.
    rewrite IH; [lia | exact Hnd | tauto].
Qed.

Lemma NoDup_snoc {A : Type} (l : list A) (x : A) :
  List.NoDup l -> ~ In x l -> List.NoDup (l ++ [x]).
Proof.
  induction 1 as [|y l Hy Hl IH]; simpl; intros Hx.
  - repeat constructor. tauto.
  - constructor; [|apply IH; tauto].
    rewrite in_app_iff. simpl. intuition congruence.
Qed.

Lemma represents_snoc p d e : represents p e -> represents (p ++ [d]) e.
Proof.
  intros (d' & Hin & H). exists d'. split; [|exact H]. apply in_or_app. now left.
Qed.

Lemma count_chunk_grouped u p d :
  grouped u p -> grouped (count_chunk u d) (p ++ [d]).
Proof.
  intros (Hnd & Hkeys & Hall & Hsum).
  unfold count_chunk. fold (bump (dd_filename d)).
  set (f0 := dd_filename d).
  set (u1 := if existsb (fun e => bool_decide (de_filename e = f0)) u then u
             else (u ++ [{| de_filename := f0; chunks := 0;
                            de_created_at := dd_created_at d;
                            de_metadata := dd_metadata d |}])%list).
  assert (Hpre : List.NoDup (map de_filename u1) /\
                 (forall f, In f (map de_filename u1) <-> In f (map dd_filename p) \/ f = f0) /\
                 Forall (fun e => chunks e = count_name p (de_filename e) /\
                                  represents (p ++ [d]) e) u1 /\
                 sum_chunks u1 = Z.of_nat (length p)).
  { subst u1. destruct (existsb _ u) eqn:Hex.
    - apply existsb_exists in Hex as (e0 & He0 & Hf).
      apply bool_decide_eq_true in Hf.
      assert (Hin0 : In f0 (map de_filename u)).
      { rewrite <- Hf. now apply in_map. }
      split; [exact Hnd|]. split; [|split; [|exact Hsum]].
      + intros f. rewrite Hkeys. split; [tauto|].
        intros [H| ->]; [exact H | now apply Hkeys].
      + eapply List.Forall_impl; [|exact Hall]. simpl.
        intros e [Hc Hr]. split; [exact Hc | now apply represents_snoc].
    - assert (Hnot : ~ In f0 (map de_filename u)).
      { intros Hin. apply in_map_iff in Hin as (e0 & Hf & He0).
        assert (Ht : existsb (fun e => bool_decide (de_filename e = f0)) u = true).
        { apply existsb_exists. exists e0. split; [exact He0|].
          now apply bool_decide_eq_true. }
        congruence. }
      rewrite map_app. simpl. split; [|split; [|split]].
      + now apply NoDup_snoc.
      + intros f. rewrite in_app_iff, Hkeys. simpl. intuition.
      + apply Forall_app. split.
        * eapply List.Forall_impl; [|exact Hall]. simpl.
          intros e [Hc Hr]. split; [exact Hc | now apply represents_snoc].
        * constructor; [|constructor]. simpl. split.
          -- symmetry. apply count_name_absent. now rewrite <- Hkeys.
          -- exists d. split; [apply in_or_app; right; now left | auto].
      + unfold sum_chunks in *. rewrite fold_right_app. simpl.
        rewrite <- Hsum. clear. induction u as [|e u IH]; simpl; lia. }
  clearbody u1. destruct Hpre as (Hnd1 & Hkeys1 & Hall1 & Hsum1).
  split; [|split; [|split]].
  - now rewrite map_bump_filenames.
  - intros f. rewrite map_bump_filenames, Hkeys1, map_app, in_app_iff. simpl.
    subst f0. intuition.
  - rewrite List.Forall_forall in *. intros e' He'.
    apply in_map_iff in He' as (e & <- & He).
    destruct (Hall1 e He) as [Hc Hr]. rewrite bump_filename, count_name_snoc.
    fold f0. unfold bump.
    destruct (bool_decide (de_filename e = f0)) eqn:Hf; simpl.
    + apply bool_decide_eq_true in Hf.
      rewrite (bool_decide_eq_true_2 (f0 = de_filename e)) by auto.
      split; [lia | exact Hr].
    + apply bool_decide_eq_false in Hf.
      rewrite (bool_decide_eq_false_2 (f0 = de_filename e)) by auto.
      split; [lia | exact Hr].
  - rewrite (sum_chunks_bump f0 u1 Hnd1) by (apply Hkeys1; now right).
    rewrite Hsum1, length_app. simpl. lia.
Qed.

Lemma fold_count_chunk_grouped l :
  forall u p, grouped u p -> grouped (fold_left count_chunk l u) (p ++ l).
Proof.
  induction l as [|d l IH]; intros u p Hg; simpl.
  - now rewrite app_nil_r.
  - replace (p ++ d :: l)%list with ((p ++ [d]) ++ l)%list
      by (rewrite <- app_assoc; reflexivity).
    apply IH. now apply count_chunk_grouped.
Qed.

Lemma grouped_nil : grouped [] [].
Proof.
  repeat split; simpl; try tauto; constructor.
Qed.

Lemma filter_length_perm {A : Type} (f : A -> bool) (l l' : list A) :
  Permutation l l' -> length (List.filter f l) = length (List.filter f l').
Proof.
  induction 1; simpl; try congruence.
  - destruct (f x); simpl; congruence.
  - destruct (f x), (f y); reflexivity.
Qed.

Context {Sc : Scan}.

Lemma count_name_documents (rows : list Document) (f : string) :
  count_name (map to_dict rows) f =
  Z.of_nat (length (List.filter (fun d => bool_decide (filename d = f)) rows)).
Proof.
  unfold count_name. f_equal.
  induction rows as [|d rows IH]; simpl; [reflexivity|].
  destruct (bool_decide (filename d = f)); simpl; congruence.
Qed.

(** The listing of a reachable store, in terms of its table. *)
Lemma get_document_list_grouped (db : Session) :
  connected db = true ->
  List.NoDup (map de_filename (get_document_list db)) /\
  (forall f, In f (map de_filename (get_document_list db)) <->
             In f (map filename (documents db))) /\
  Forall (fun e => chunks e = chunk_count db (de_filename e) /\
                   exists d, In d (documents db) /\ filename d = de_filename e /\
                             de_metadata e = doc_metadata d /\
                             de_created_at e = created_at d)
         (get_document_list db) /\
  sum_chunks (get_document_list db) = Z.of_nat (length (documents db)).
Proof.
  intros Hc. unfold get_document_list, get_all_documents. rewrite Hc. simpl.
  pose proof (fold_count_chunk_grouped (map to_dict (scan (documents db))) [] []
                grouped_nil) as (Hnd & Hkeys & Hall & Hsum).
  simpl in *. pose proof (scan_perm (documents db)) as Hperm.
  split; [exact Hnd|]. split; [|split].
  - intros f. rewrite Hkeys, map_map. simpl. split; intros Hin.
    + eapply Permutation_in; [apply Permutation_map, Hperm | exact Hin].
    + eapply Permutation_in; [apply Permutation_map, Permutation_sym, Hperm | exact Hin].
  - eapply List.Forall_impl; [|exact Hall]. simpl. intros e [Hcount (d & Hd & Hf & Hm & Ht)].
    split.
    + rewrite Hcount, count_name_documents. unfold chunk_count. f_equal.
      now apply filter_length_perm.
    + apply in_map_iff in Hd as (row & <- & Hrow). exists row.
      split; [eapply Permutation_in; eassumption | auto].
  - rewrite Hsum, length_map. f_equal. now apply Permutation_length.
Qed.

End ListingFacts.

(** The listing groups the chunks by filename: every filename of the table
    has exactly one entry, whose count is the number of its chunks and whose
    metadata and creation time are those of one of its chunks, and the counts
    add up to the number of rows.  When the store is unreachable the listing
    is empty. *)
Theorem get_document_list_groups (Sc : DbRows.Scan) (db : Session) :
  (connected db = true ->
     List.NoDup (map Listing.de_filename (Listing.get_document_list db)) /\
     (forall f, In f (map Listing.de_filename (Listing.get_document_list db)) <->
                In f (map filename (documents db))) /\
     Forall (fun e => Listing.chunks e = chunk_count db (Listing.de_filename e) /\
                      exists d, In d (documents db) /\ filename d = Listing.de_filename e /\
                                Listing.de_metadata e = doc_metadata d /\
                                Listing.de_created_at e = DbRows.created_at d)
            (Listing.get_document_list db) /\
     fold_right (fun e acc => Listing.chunks e + acc) 0 (Listing.get_document_list db) =
       Z.of_nat (length (documents db))) /\
  (connected db = false -> Listing.get_document_list db = []).
Proof.
  split.
  - apply get_document_list_grouped.
  - intros Hc. unfold Listing.get_document_list, DbRows.get_all_documents.
    now rewrite Hc.
Qed.

(** The listing of the table of three rows, and of the same table behind a
    connection that is down. *)
Lemma get_document_list_groups_witness :
  map (fun e => (Listing.de_filename e, Listing.chunks e))
    (Listing.get_document_list (Sc := insertion_scan) Samples.three_rows) =
    [("a.txt", 1); ("b.txt", 1); ("c.txt", 1)] /\
  fold_right (fun e acc => Listing.chunks e + acc) 0
    (Listing.get_document_list (Sc := insertion_scan) Samples.three_rows) = 3 /\
  Listing.get_document_list (Sc := insertion_scan) Samples.three_rows_down = [].
Proof.
  split; [vm_compute; reflexivity|]. split.
  - apply (proj1 (get_document_list_groups insertion_scan Samples.three_rows)). reflexivity.
  - apply (proj2 (get_document_list_groups insertion_scan Samples.three_rows_down)).
    reflexivity.
Defined.

Lemma delete_document_rows (db : Session) (fname : string) :
  connected db = true ->
  connected (Rag.delete_document db fname).2 = true /\
  Forall (fun d => filename d <> fname) (documents (Rag.delete_document db fname).2) /\
  (List.NoDup (map id (documents db)) ->
     documents (Rag.delete_document db fname).2 =
     List.filter (fun d => negb (bool_decide (filename d = fname))) (documents db)).
Proof.
  intros Hc. unfold Rag.delete_document, query_by_filename. rewrite Hc. simpl.
  set (chunks := List.filter (fun d => bool_decide (filename d = fname)) (documents db)).
  destruct (fold_delete_row_connected chunks db) as [Hconn _].
  rewrite Hconn, fold_delete_row_documents.
  split; [exact Hc|]. split.
  - rewrite List.Forall_forall. intros d Hd Hname.
    apply filter_In in Hd as [Hd Hex]. apply negb_true_iff in Hex.
    assert (Hin : existsb (fun c => id d =? id c) chunks = true).
    { apply existsb_exists. exists d. split; [|apply Z.eqb_refl].
      apply filter_In. split; [exact Hd|]. now apply bool_decide_eq_true. }
    congruence.
  - intros Hnd. apply filter_ext_in. intros d Hd. f_equal.
    destruct (bool_decide (filename d = fname)) eqn:Hf.
    + apply existsb_exists. exists d. split; [|apply Z.eqb_refl].
      apply filter_In. auto.
    + destruct (existsb _ chunks) eqn:Hex; [|reflexivity].
      apply existsb_exists in Hex as (c & Hcin & Hid).
      apply filter_In in Hcin as [Hcin Hcf]. apply Z.eqb_eq in Hid.
      rewrite (NoDup_map_id_eq _ c d Hnd Hcin Hd (eq_sym Hid)) in Hcf. congruence.
Qed.

Lemma filter_other_filename (rows : list Document) (f fname : string) :
  f <> fname ->
  length (List.filter (fun d => bool_decide (filename d = f))
            (List.filter (fun d => negb (bool_decide (filename d = fname))) rows)) =
  length (List.filter (fun d => bool_decide (filename d = f)) rows).
Proof.
  intros Hf. induction rows as [|d l IH]; simpl; [reflexivity|].
  destruct (bool_decide (filename d = fname)) eqn:Hd; simpl.
  - apply bool_decide_eq_true in Hd.
    rewrite bool_decide_eq_false_2 by congruence. exact IH.
  - destruct (bool_decide (filename d = f)); simpl; congruence.
Qed.

(** Deleting, then listing: after [delete_document] on a reachable store the
    listing has no entry for that filename; and, the ids being distinct, every
    other filename is listed as before, with the same number of chunks. *)
Theorem listing_after_delete (Sc : DbRows.Scan) (db : Session) (fname : string) :
  connected db = true ->
  let db' := (Rag.delete_document db fname).2 in
  ~ In fname (map Listing.de_filename (Listing.get_document_list db')) /\
  (List.NoDup (map id (documents db)) ->
   forall f, f <> fname ->
     chunk_count db' f = chunk_count db f /\
     (In f (map Listing.de_filename (Listing.get_document_list db')) <->
      In f (map Listing.de_filename (Listing.get_document_list db)))).
Proof.
  intros Hc db'.
  destruct (delete_document_rows db fname Hc) as (Hc' & Hgone & Hrows).
  fold db' in Hc', Hgone, Hrows.
  destruct (get_document_list_grouped db' Hc') as (_ & Hkeys' & _).
  destruct (get_document_list_grouped db Hc) as (_ & Hkeys & _).
  split.
  - rewrite Hkeys'. intros Hin. apply in_map_iff in Hin as (d & Hf & Hd).
    rewrite List.Forall_forall in Hgone. now apply (Hgone d Hd).
  - intros Hnd f Hf. specialize (Hrows Hnd). split.
    + unfold chunk_count. rewrite Hrows. f_equal. now apply filter_other_filename.
    + rewrite Hkeys', Hkeys, Hrows. rewrite !in_map_iff. split.
      * intros (d & Hd & Hin). apply filter_In in Hin as [Hin _]. eauto.
      * intros (d & Hd & Hin). exists d. split; [exact Hd|].
        apply filter_In. split; [exact Hin|].
        rewrite bool_decide_eq_false_2 by congruence. reflexivity.
Qed.

(** Deleting a.txt from the table of three rows, then listing. *)
Lemma listing_after_delete_witness :
  ~ In "a.txt"
      (map Listing.de_filename
         (Listing.get_document_list (Sc := insertion_scan)
            (Rag.delete_document Samples.three_rows "a.txt").2)).
Proof.
  apply (listing_after_delete insertion_scan Samples.three_rows "a.txt"). reflexivity.
Defined.

Lemma expected_rows_filenames name fname metadata total pairs :
  forall i next,
    Forall (fun d => filename d = name)
      (expected_rows name fname metadata total i next pairs) /\
    length (expected_rows name fname metadata total i next pairs) = length pairs.
Proof.
  induction pairs as [|[chunk vec] pairs IH]; intros i next; simpl.
  - split; [constructor | reflexivity].
  - destruct (IH (i + 1) (next + 1)) as [Hall Hlen].
    split; [constructor; auto | now rewrite Hlen].
Qed.

(** Ingesting, then listing: after a successful ingestion of at least one
    chunk, the listing has an entry for the stored filename, and its count is
    the number of chunks the filename had plus the number of chunks
    ingested. *)
Theorem listing_after_ingestion (Sc : DbRows.Scan) (E : Executor) (P : Providers)
  (db : Session) (heap : Heap) (text fname name : string)
  (metadata : option (gmap string pyval)) (chunks : list string)
  (embeddings : list (list Q)) :
  chunk_text text 1000 200 = Ok chunks ->
  generate_embeddings_batch chunks = Ok embeddings ->
  connected db = true ->
  Forall (fun p => length p.2 = EMBEDDING_DIM) (combine chunks embeddings) ->
  filename_column (effective_filename fname metadata) = Ok name ->
  combine chunks embeddings <> [] ->
  exists e,
    In e (Listing.get_document_list
            (process_and_store_document db heap text fname metadata).1.2) /\
    Listing.de_filename e = name /\
    Listing.chunks e =
      chunk_count db name + Z.of_nat (length (combine chunks embeddings)).
Proof.
  intros Hc He Hconn Hdim Hname Hne.
  pose proof (process_and_store_document_rows E P db heap text fname name metadata
                chunks embeddings Hc He Hconn Hdim Hname) as (_ & Hdocs & _).
  set (db' := (process_and_store_document db heap text fname metadata).1.2) in *.
  assert (Hconn' : connected db' = true).
  { subst db'.
    destruct (process_document_ok heap text fname chunks embeddings Hc He)
      as (heap' & Hp & Hh).
    unfold process_and_store_document. rewrite Hp.
    pose proof (store_chunks_rows metadata name fname (length chunks)
                  (combine chunks embeddings) Hname (length heap) 0 db heap'
                  Hconn Hdim Hh) as (_ & _ & Hcn).
    destruct (store_chunks db heap' metadata
                (mk_chunks (length heap) (combine chunks embeddings)))
      as [[[u|e] db1] heap'']; exact Hcn. }
  destruct (get_document_list_grouped db' Hconn') as (_ & Hkeys & Hall & _).
  destruct (expected_rows_filenames name fname metadata (length chunks)
              (combine chunks embeddings) 0 (next_id db)) as [Hnames Hlen].
  set (rows := expected_rows name fname metadata (length chunks) 0 (next_id db)
                 (combine chunks embeddings)) in *.
  assert (Hin : In name (map Listing.de_filename (Listing.get_document_list db'))).
  { apply Hkeys. rewrite Hdocs, map_app, in_app_iff. right.
    destruct rows as [|d rows']; [destruct (combine chunks embeddings); simpl in *; congruence|].
    apply Forall_cons in Hnames as [Hd _]. simpl. now left. }
  apply in_map_iff in Hin as (e & Hf & Hin). exists e. split; [exact Hin|].
  split; [exact Hf|].
  rewrite List.Forall_forall in Hall. destruct (Hall e Hin) as [Hcount _].
  rewrite Hcount, Hf. unfold chunk_count. rewrite Hdocs, List.filter_app, length_app.
  rewrite (filter_all _ rows).
  - rewrite Hlen. lia.
  - rewrite List.Forall_forall in Hnames. intros d Hd.
    now apply bool_decide_eq_true, Hnames.
Qed.

(** Ingesting "hello" as a.txt into the table of three rows: a.txt is listed
    with two chunks. *)
Lemma listing_after_ingestion_witness :
  exists e,
    In e (Listing.get_document_list (Sc := insertion_scan)
            (process_and_store_document (E := Samples.stable_executor)
               (P := Samples.sample_providers) Samples.three_rows [] "hello" "a.txt" None).1.2) /\
    Listing.de_filename e = "a.txt" /\
    Listing.chunks e = chunk_count Samples.three_rows "a.txt" + 1.
Proof.
  apply (listing_after_ingestion insertion_scan Samples.stable_executor
           Samples.sample_providers Samples.three_rows [] "hello" "a.txt" "a.txt" None
           ["hello"] [Samples.sample_embed "hello"]).
  - reflexivity.
  - reflexivity.
  - reflexivity.
  - repeat constructor.
  - reflexivity.
  - discriminate.
Defined.

(** ** The responses of [answer_question] *)

Lemma string_length_append (s t : string) :
  String.length (s ++ t) = (String.length s + String.length t)%nat.
Proof. induction s as [|c s IH]; simpl; [reflexivity | now rewrite IH]. Qed.

Lemma string_length_prefix (n : nat) (s : string) :
  String.length (substring 0 n s) = Nat.min n (String.length s).
Proof.
  revert s. induction n as [|n IH]; intros [|c s]; simpl; try reflexivity.
  now rewrite IH.
Qed.

Lemma excerpt_length (text : string) : (String.length (excerpt text) <= 203)%nat.
Proof.
  unfold excerpt. destruct (200 <? String.length text)%nat eqn:Hlen.
  - rewrite string_length_append, string_length_prefix.
    change (String.length "...") with 3%nat. lia.
  - apply Nat.ltb_ge in Hlen. lia.
Qed.

Section Responses.
Context {E : Executor} {P : Providers} {Sm : PySum}.

(** The three shapes of the result of [answer_question]. *)
Lemma answer_question_cases (db : Session) (llm_log : list string)
  (question : string) (top_k : Z) :
  (exists e, generate_embedding question = Raise e /\
     answer_question db llm_log question top_k = (error_response e, llm_log)) \/
  (exists q, generate_embedding question = Ok q /\
     get_similar_documents db q top_k default_similarity_threshold = [] /\
     answer_question db llm_log question top_k = (no_information_response, llm_log)) \/
  (exists q, generate_embedding question = Ok q /\
     let retrieved := get_similar_documents db q top_k default_similarity_threshold in
     let prompt := make_prompt (join (newline ++ newline) (map sd_content retrieved))
                     question in
     retrieved <> [] /\
     ((exists e, llm_invoke prompt = Raise e /\
         answer_question db llm_log question top_k =
           (error_response e, prompt :: llm_log)) \/
      (exists text, llm_invoke prompt = Ok text /\
         answer_question db llm_log question top_k =
           (grounded_response text retrieved, prompt :: llm_log)))).
Proof.
  unfold answer_question.
  destruct (generate_embedding question) as [q|e]; [|left; eauto].
  right. destruct (get_similar_documents db q top_k default_similarity_threshold)
    as [|doc rest] eqn:Hr; [left; eauto|].
  right. exists q. split; [reflexivity|]. rewrite Hr. cbv zeta.
  split; [discriminate|].
  destruct (llm_invoke _) as [text|e]; [right | left]; eauto.
Qed.

End Responses.

(** Every response of [answer_question], whatever the store and the
    providers do: the confidence is never greater than 1.0; there are at most
    [top_k] sources (none for a negative [top_k]); every source has a
    similarity that passed the comparison of the database with 0.7, so that it
    is above 0.7 unless it is NaN, and an excerpt of at most 203 characters;
    and the confidence is NaN when the similarity of a source is. *)
Theorem answer_question_bounds (E : Executor) (P : Providers) (Sm : PySum)
  (db : Session)
  (llm_log : list string) (question : string) (top_k : Z) :
  let response := (answer_question db llm_log question top_k).1 in
  (1 <? confidence response)%float = false /\
  Z.of_nat (length (sources response)) <= Z.max 0 top_k /\
  Forall (fun s => float8_gt (src_similarity s) default_similarity_threshold = true /\
                   (is_nan (src_similarity s) = false ->
                    (default_similarity_threshold <? src_similarity s)%float = true) /\
                   (String.length (src_content s) <= 203)%nat) (sources response) /\
  (Exists (fun s => is_nan (src_similarity s) = true) (sources response) ->
   is_nan (confidence response) = true).
Proof.
  destruct (answer_question_cases db llm_log question top_k)
    as [(e & _ & Hr) | [(q & _ & _ & Hr) | (q & _ & Hne & [(e & _ & Hr) | (text & _ & Hr)])]];
    rewrite Hr; simpl;
    try (split; [reflexivity|]; split; [lia|]; split; [constructor|];
         intros Hex; inversion Hex).
  split; [|split; [|split]].
  - apply compute_confidence_capped.
  - rewrite length_map. apply get_similar_documents_length.
  - apply List.Forall_forall. intros s Hs.
    apply in_map_iff in Hs as (d & <- & Hd). simpl.
    apply get_similar_documents_above in Hd. split; [exact Hd|]. split.
    + intros Hnan. now apply float8_gt_ltb.
    + apply excerpt_length.
  - intros Hex. apply compute_confidence_nan.
    apply List.Exists_exists in Hex as (s & Hs & Hnan).
    apply in_map_iff in Hs as (d & <- & Hd). simpl in Hnan.
    apply List.Exists_exists. eauto.
Qed.

(** A question in no direction, on the three sample rows: the embedding is
    the vector of zeros, every row is retrieved with the similarity NaN, and
    the confidence is NaN. *)
Lemma answer_question_bounds_witness :
  is_nan (confidence (answer_question (E := Samples.stable_executor)
                        (P := Samples.zero_providers) (Sm := Samples.sequential_sum)
                        Samples.three_rows [] "nowhere" 5).1)
    = true.
Proof.
  apply (answer_question_bounds Samples.stable_executor Samples.zero_providers
           Samples.sequential_sum
           Samples.three_rows [] "nowhere" 5).
  apply List.Exists_exists.
  exists {| src_filename := "a.txt"; src_content := "north"; src_similarity := nan |}.
  split; [|reflexivity]. vm_compute. now left.
Defined.

(** How often the chat model is called.  When the embedding of the question
    fails or nothing is retrieved, no prompt is sent.  When something is
    retrieved exactly one prompt is sent, whether the model then answers or
    raises: the prompt built from the retrieved contents, in the order of
    retrieval and separated by blank lines, and the question.  When the model
    raises, the response carries the error, no sources and confidence 0. *)
Theorem answer_question_model_calls (E : Executor) (P : Providers) (Sm : PySum)
  (db : Session)
  (llm_log : list string) (question : string) (top_k : Z) :
  let '(response, llm_log') := answer_question db llm_log question top_k in
  (forall e, generate_embedding question = Raise e -> llm_log' = llm_log) /\
  (forall q, generate_embedding question = Ok q ->
     let retrieved := get_similar_documents db q top_k default_similarity_threshold in
     let prompt := make_prompt (join (newline ++ newline) (map sd_content retrieved))
                     question in
     (retrieved = [] -> llm_log' = llm_log) /\
     (retrieved <> [] -> llm_log' = prompt :: llm_log) /\
     (forall e, retrieved <> [] -> llm_invoke prompt = Raise e ->
        response = error_response e /\ sources response = [] /\
        confidence response = 0%float /\ error response = Some (str_exn e))).
Proof.
  destruct (answer_question_cases db llm_log question top_k)
    as [(e & He & Hr) | [(q & Hq & Hempty & Hr)
        | (q & Hq & Hne & [(e & He & Hr) | (text & Ht & Hr)])]];
    rewrite Hr.
  - split; [reflexivity|]. intros q' Hq'. congruence.
  - split; [reflexivity|]. intros q' Hq'.
    rewrite Hq in Hq'. injection Hq' as <-. cbv zeta.
    split; [reflexivity|]. split; [congruence|]. intros e' Hne'. congruence.
  - split; [intros e' He'; congruence|]. intros q' Hq'.
    rewrite Hq in Hq'. injection Hq' as <-. cbv zeta.
    split; [congruence|]. split; [reflexivity|]. intros e' _ He'.
    rewrite He in He'. injection He' as <-. repeat split.
  - split; [intros e' He'; congruence|]. intros q' Hq'.
    rewrite Hq in Hq'. injection Hq' as <-. cbv zeta.
    split; [congruence|]. split; [reflexivity|]. intros e' _ He'. congruence.
Qed.

(** The question "north" on the three sample rows costs one prompt. *)
Lemma answer_question_model_calls_witness :
  length (answer_question (E := Samples.stable_executor) (P := Samples.sample_providers)
            (Sm := Samples.sequential_sum)
            Samples.three_rows [] "north" 5).2 = 1%nat.
Proof.
  pose proof (answer_question_model_calls Samples.stable_executor Samples.sample_providers
                Samples.sequential_sum
                Samples.three_rows [] "north" 5) as H.
  destruct (answer_question Samples.three_rows [] "north" 5) as [response llm_log'].
  destruct H as [_ H].
  destruct (H (Samples.vec2 1 0) eq_refl) as (_ & Hlog & _).
  simpl. rewrite Hlog; [reflexivity|].
  vm_compute. discriminate.
Defined.

(** A grounded response: when something is retrieved and the chat model
    answers, the response carries the model's text and no error, one source
    per retrieved chunk, in the order of retrieval, with the chunk's filename
    and similarity and the excerpt of its content; and the confidence is the
    mean of the similarities as binary64 computes it, or 1.0 when that is
    greater than 1.0. *)
Theorem answer_question_grounded (E : Executor) (P : Providers) (Sm : PySum)
  (db : Session)
  (llm_log : list string) (question : string) (top_k : Z) (q : list Q) (text : string) :
  generate_embedding question = Ok q ->
  let retrieved := get_similar_documents db q top_k default_similarity_threshold in
  retrieved <> [] ->
  llm_invoke (make_prompt (join (newline ++ newline) (map sd_content retrieved)) question)
    = Ok text ->
  let response := (answer_question db llm_log question top_k).1 in
  answer response = text /\ error response = None /\
  sources response =
    map (fun d => {| src_filename := sd_filename d;
                     src_content := excerpt (sd_content d);
                     src_similarity := similarity d |}) retrieved /\
  (confidence response = 1%float /\ (1 <? avg_similarity retrieved)%float = true \/
   confidence response = avg_similarity retrieved /\
   (1 <? avg_similarity retrieved)%float = false).
Proof.
  intros Hq retrieved Hne Hllm.
  destruct (answer_question_cases db llm_log question top_k)
    as [(e & He & Hr) | [(q' & Hq' & Hempty & Hr)
        | (q' & Hq' & Hne' & [(e & He & Hr) | (text' & Ht & Hr)])]];
    try congruence; rewrite Hq in Hq'; injection Hq' as <-.
  - subst retrieved. congruence.
  - fold retrieved in He. congruence.
  - fold retrieved in Ht, Hr. rewrite Hllm in Ht. injection Ht as <-.
    rewrite Hr. simpl. repeat split.
    apply compute_confidence_cases.
Qed.

(** The question "north" on the three sample rows. *)
Lemma answer_question_grounded_witness :
  answer (answer_question (E := Samples.stable_executor) (P := Samples.sample_providers)
            (Sm := Samples.sequential_sum)
            Samples.three_rows [] "north" 5).1 = "north is up".
Proof.
  apply (answer_question_grounded Samples.stable_executor Samples.sample_providers
           Samples.sequential_sum
           Samples.three_rows [] "north" 5 (Samples.vec2 1 0) "north is up").
  - reflexivity.
  - vm_compute. discriminate.
  - reflexivity.
Defined.

(** ** Cosine similarity and the in-process search *)

(** On vectors of one length [_cosine_similarity] returns. *)
Lemma cosine_similarity_aligned {N : Numpy} (vec1 vec2 : list float) :
  length vec1 = length vec2 -> exists x, _cosine_similarity vec1 vec2 = Ok x.
Proof.
  intros Hlen. unfold _cosine_similarity.
  rewrite (np_dot_aligned vec1 vec2 Hlen). cbn [bind].
  destruct ((np_norm vec1 =? 0)%float || (np_norm vec2 =? 0)%float); eauto.
Qed.

Lemma Forall2_fst_snd {A B : Type} (Rel : A -> B -> Prop) (l : list (A * B)) :
  Forall (fun p => Rel (fst p) (snd p)) l -> Forall2 Rel (map fst l) (map snd l).
Proof. induction 1; simpl; constructor; assumption. Qed.

Section ChunkSearch.
Import Chunks.
Context {P : Providers} {N : Numpy} {Srt : PySort} {A : Type}.
Variable embedding_of : A -> option (list float).

Lemma score_chunks_raises (q : list float) (l : list A) (chunk : A) (e : exn) :
  In chunk l -> chunk_similarity embedding_of q chunk = Raise e ->
  exists e', score_chunks embedding_of q l = Raise e'.
Proof.
  induction l as [|c l IH]; simpl; [tauto|].
  intros [->|Hin] He.
  - rewrite He. simpl. eauto.
  - destruct (chunk_similarity embedding_of q c); simpl; [|eauto].
    destruct (IH Hin He) as [e' ->]. simpl. eauto.
Qed.

Lemma score_chunks_ok (q : list float) (l : list A) :
  Forall (fun c => exists v, embedding_of c = Some v /\ length v = length q) l ->
  exists scored,
    score_chunks embedding_of q l = Ok scored /\ map fst scored = l /\
    Forall (fun p => chunk_similarity embedding_of q (fst p) = Ok (snd p)) scored.
Proof.
  induction 1 as [|c l (v & Hv & Hlen) _ (scored & Hs & Hfst & Hall)]; simpl.
  - exists []. repeat split; constructor.
  - assert (Hc : exists s, chunk_similarity embedding_of q c = Ok s).
    { unfold chunk_similarity. rewrite Hv.
      apply cosine_similarity_aligned. now symmetry. }
    destruct Hc as [s Hc]. rewrite Hc, Hs. simpl.
    exists ((c, s) :: scored). simpl. rewrite Hfst. repeat split.
    constructor; [exact Hc | exact Hall].
Qed.

Lemma slice_to_incl {B : Type} (k : Z) (l : list B) (x : B) :
  In x (slice_to k l) -> In x l.
Proof. unfold slice_to. destruct (0 <=? k); apply firstn_incl. Qed.

Lemma slice_to_sorted {B : Type} (Rel : B -> B -> Prop) (k : Z) (l : list B) :
  StronglySorted Rel l -> StronglySorted Rel (slice_to k l).
Proof. unfold slice_to. destruct (0 <=? k); apply StronglySorted_firstn. Qed.

(** The result of the search in terms of its scored chunks. *)
Lemma get_similar_chunks_scored (query : string) (all_chunks : list A) (top_k : Z)
  (q : list Q) :
  generate_embedding query = Ok q ->
  Forall (fun c => exists v, embedding_of c = Some v /\ length v = length q) all_chunks ->
  exists scored,
    Permutation (map fst scored) all_chunks /\
    Forall (fun p => chunk_similarity embedding_of (map F64.of_Q q) (fst p) = Ok (snd p))
      scored /\
    (Forall (fun p => is_nan (snd p) = false) scored ->
     StronglySorted (fun a b => (snd b <=? snd a)%float = true) scored) /\
    get_similar_chunks embedding_of query all_chunks top_k = map fst (slice_to top_k scored).
Proof.
  intros Hq Hall. unfold get_similar_chunks. rewrite Hq. simpl.
  destruct (score_chunks_ok (map F64.of_Q q) all_chunks) as (scored & Hs & Hfst & Hsc).
  { eapply List.Forall_impl; [|exact Hall]. simpl. intros c (v & Hv & Hlen).
    exists v. split; [exact Hv|]. now rewrite length_map. }
  rewrite Hs. simpl. exists (sort_reverse _ snd scored). repeat split.
  - rewrite <- Hfst. apply Permutation_map, sort_reverse_perm.
  - eapply Permutation_Forall; [apply Permutation_sym, sort_reverse_perm | exact Hsc].
  - intros Hnan. apply sort_reverse_sorted.
    eapply Permutation_Forall; [apply sort_reverse_perm | exact Hnan].
Qed.

End ChunkSearch.

(** The in-process search fails to the empty list: when the embedding of the
    query raises, when a chunk has no ["embedding"], or when a chunk's
    embedding has another length than the query's. *)
Theorem get_similar_chunks_empty (P : Providers) (N : Numpy) (Srt : Chunks.PySort) (A : Type)
  (embedding_of : A -> option (list float)) (query : string) (all_chunks : list A)
  (top_k : Z) :
  (exists e, generate_embedding query = Raise e) \/
  (exists q chunk, generate_embedding query = Ok q /\ In chunk all_chunks /\
     (embedding_of chunk = None \/
      exists v, embedding_of chunk = Some v /\ length v <> length q)) ->
  Chunks.get_similar_chunks embedding_of query all_chunks top_k = [].
Proof.
  unfold Chunks.get_similar_chunks.
  intros [[e ->] | (q & chunk & -> & Hin & Hbad)]; simpl; [reflexivity|].
  assert (Hr : exists e,
             Chunks.chunk_similarity embedding_of (map F64.of_Q q) chunk = Raise e).
  { unfold Chunks.chunk_similarity. destruct Hbad as [-> | (v & -> & Hlen)]; [eauto|].
    rewrite cosine_similarity_not_aligned; [eauto|]. rewrite length_map. congruence. }
  destruct Hr as [e He].
  destruct (score_chunks_raises embedding_of (map F64.of_Q q) all_chunks chunk e Hin He)
    as [e' ->].
  reflexivity.
Qed.

(** One chunk with an embedding of two components. *)
Lemma get_similar_chunks_empty_witness :
  Chunks.get_similar_chunks (P := Samples.sample_providers) (N := Samples.sequential_numpy)
    (Srt := Samples.insertion_pysort)
    (fun c : string * list float => Some (snd c)) "north" [("short", [1; 0]%float)] 5 = [].
Proof.
  apply (get_similar_chunks_empty Samples.sample_providers Samples.sequential_numpy
           Samples.insertion_pysort (string * list float)
           (fun c => Some (snd c)) "north" [("short", [1; 0]%float)] 5).
  right. exists (Samples.vec2 1 0), ("short", [1; 0]%float).
  split; [reflexivity|]. split; [now left|]. right.
  exists [1; 0]%float. split; [reflexivity|]. vm_compute. discriminate.
Defined.

(** The in-process search on chunks whose embeddings all have the length of
    the query's, whatever numbers the similarities are: every chunk returned
    is one of the chunks given; for a non-negative [top_k] there are [top_k]
    of them, or all when there are fewer; and a [top_k] of at least their
    number returns them all.  When no similarity is NaN, the chunks come in
    descending order of the cosine similarity to the query that binary64
    arithmetic computes; with a NaN among the similarities the order is not
    promised. *)
Theorem get_similar_chunks_ranked (P : Providers) (N : Numpy) (Srt : Chunks.PySort)
  (A : Type) (embedding_of : A -> option (list float)) (query : string)
  (all_chunks : list A) (top_k : Z) (q : list Q) :
  generate_embedding query = Ok q ->
  Forall (fun c => exists v, embedding_of c = Some v /\ length v = length q) all_chunks ->
  let result := Chunks.get_similar_chunks embedding_of query all_chunks top_k in
  (forall c, In c result -> In c all_chunks) /\
  (0 <= top_k -> length result = Nat.min (Z.to_nat top_k) (length all_chunks)) /\
  (Z.of_nat (length all_chunks) <= top_k -> Permutation result all_chunks) /\
  (Forall (fun c => forall s,
             Chunks.chunk_similarity embedding_of (map F64.of_Q q) c = Ok s ->
             is_nan s = false) all_chunks ->
   exists sims,
     Forall2 (fun c s => Chunks.chunk_similarity embedding_of (map F64.of_Q q) c = Ok s)
       result sims /\
     StronglySorted (fun a b => (b <=? a)%float = true) sims).
Proof.
  intros Hq Hall result.
  destruct (get_similar_chunks_scored embedding_of query all_chunks top_k q Hq Hall)
    as (scored & Hperm & Hsc & Hsorted & Hres).
  subst result. rewrite Hres.
  assert (Hlen : length scored = length all_chunks).
  { rewrite <- (Permutation_length Hperm). now rewrite length_map. }
  split; [|split; [|split]].
  - intros c Hc. apply in_map_iff in Hc as (p & <- & Hp).
    apply slice_to_incl in Hp. eapply Permutation_in; [exact Hperm|]. now apply in_map.
  - intros Hk. rewrite length_map. unfold Chunks.slice_to.
    rewrite (proj2 (Z.leb_le 0 top_k) Hk). rewrite length_firstn. now rewrite Hlen.
  - intros Hk. unfold Chunks.slice_to.
    rewrite (proj2 (Z.leb_le 0 top_k)) by lia.
    rewrite firstn_all2 by lia. exact Hperm.
  - intros Hnan. exists (map snd (Chunks.slice_to top_k scored)). split.
    + assert (Hsl : Forall (fun p => Chunks.chunk_similarity embedding_of (map F64.of_Q q)
                                       (fst p) = Ok (snd p)) (Chunks.slice_to top_k scored)).
      { rewrite List.Forall_forall in *. intros p Hp. apply Hsc.
        now apply slice_to_incl in Hp. }
      now apply Forall2_fst_snd.
    + apply StronglySorted_map, slice_to_sorted, Hsorted.
      rewrite List.Forall_forall in *. intros p Hp.
      apply (Hnan (fst p)); [|now apply Hsc].
      eapply Permutation_in; [exact Hperm|]. now apply in_map.
Qed.

(** Two chunks in the directions of the sample embeddings. *)
Lemma get_similar_chunks_ranked_witness :
  length (Chunks.get_similar_chunks (P := Samples.sample_providers)
            (N := Samples.sequential_numpy) (Srt := Samples.insertion_pysort)
            (fun c : string * list float => Some (snd c)) "north"
            [("east", map F64.of_Q (Samples.vec2 0 1));
             ("north", map F64.of_Q (Samples.vec2 1 0))] 1)
  = 1%nat.
Proof.
  destruct (get_similar_chunks_ranked Samples.sample_providers Samples.sequential_numpy
              Samples.insertion_pysort (string * list float)
              (fun c => Some (snd c)) "north"
              [("east", map F64.of_Q (Samples.vec2 0 1));
               ("north", map F64.of_Q (Samples.vec2 1 0))]
              1 (Samples.vec2 1 0)) as (_ & Hlen & _).
  - reflexivity.
  - apply Forall_cons. split; [|apply Forall_cons; split; [|apply Forall_nil]];
      eexists; (split; [reflexivity|]); cbn [snd]; rewrite length_map; reflexivity.
  - rewrite Hlen by lia. reflexivity.
Defined.

(** ** Properties of the chat sessions *)

Section ChatFacts.
Import Chat.
Context {M : Type}.

(** Session ids and message ids grow along their tables and lie below the
    next values of their sequences, and every message belongs to a session of
    the table. *)
Definition chat_well_formed (db : ChatStore M) : Prop :=
  StronglySorted Z.lt (map cs_id (chat_sessions db)) /\
  Forall (fun i => i < next_session_id db) (map cs_id (chat_sessions db)) /\
  StronglySorted Z.lt (map cm_id (chat_messages db)) /\
  Forall (fun i => i < next_message_id db) (map cm_id (chat_messages db)) /\
  Forall (fun m => In (cm_session_id m) (map cs_id (chat_sessions db))) (chat_messages db).

Lemma sorted_snoc (l : list Z) (n : Z) :
  StronglySorted Z.lt l -> Forall (fun i => i < n) l -> StronglySorted Z.lt (l ++ [n]).
Proof.
  induction 1 as [|x l Hl IH Hx]; simpl; intros Hb.
  - repeat constructor.
  - apply Forall_cons in Hb as [Hxn Hb]. constructor; [auto|].
    apply Forall_app. split; [exact Hx | repeat constructor; exact Hxn].
Qed.

Lemma sorted_map_filter {A : Type} (f : A -> Z) (g : A -> bool) (l : list A) :
  StronglySorted Z.lt (map f l) -> StronglySorted Z.lt (map f (List.filter g l)).
Proof.
  induction l as [|x l IH]; simpl; intros H; [constructor|].
  apply StronglySorted_inv in H as [Hl Hx].
  destruct (g x); simpl; [|auto]. constructor; [auto|].
  rewrite List.Forall_forall in *. intros y Hy.
  apply in_map_iff in Hy as (z & <- & Hz). apply filter_In in Hz as [Hz _].
  apply Hx. now apply in_map.
Qed.

Lemma forall_map_filter {A : Type} (f : A -> Z) (g : A -> bool) (Q : Z -> Prop)
  (l : list A) :
  Forall Q (map f l) -> Forall Q (map f (List.filter g l)).
Proof.
  rewrite !List.Forall_forall. intros H y Hy.
  apply in_map_iff in Hy as (z & <- & Hz). apply filter_In in Hz as [Hz _].
  apply H. now apply in_map.
Qed.

Lemma sorted_NoDup (l : list Z) : StronglySorted Z.lt l -> List.NoDup l.
Proof.
  induction 1 as [|x l Hl IH Hx]; constructor; [|exact IH].
  intros Hin. rewrite List.Forall_forall in Hx. specialize (Hx x Hin). lia.
Qed.

Lemma map_touch_ids (session_id now : Z) (l : list ChatSession) :
  map cs_id (map (touch session_id now) l) = map cs_id l.
Proof.
  induction l as [|s l IH]; simpl; [reflexivity|]. rewrite IH. f_equal.
  unfold touch. now destruct (cs_id s =? session_id).
Qed.

Lemma map_rename_ids (session_id : Z) (new_name : string) (now : Z) (l : list ChatSession) :
  map cs_id (map (rename session_id new_name now) l) = map cs_id l.
Proof.
  induction l as [|s l IH]; simpl; [reflexivity|]. rewrite IH. f_equal.
  unfold rename. now destruct (cs_id s =? session_id).
Qed.

Lemma find_session_some (db : ChatStore M) (session_id : Z) (s : ChatSession) :
  find_session db session_id = Some s -> In s (chat_sessions db) /\ cs_id s = session_id.
Proof.
  unfold find_session. intros H. apply find_some in H as [Hin Hid].
  apply Z.eqb_eq in Hid. auto.
Qed.

Lemma find_session_none (db : ChatStore M) (session_id : Z) :
  find_session db session_id = None <-> ~ In session_id (map cs_id (chat_sessions db)).
Proof.
  unfold find_session. split.
  - intros H Hin. apply in_map_iff in Hin as (s & Hid & Hin).
    apply (find_none _ _ H) in Hin. apply Z.eqb_neq in Hin. congruence.
  - intros Hnot. destruct (find _ (chat_sessions db)) as [s|] eqn:Hf; [|reflexivity].
    exfalso. apply find_some in Hf as [Hin Hid]. apply Z.eqb_eq in Hid.
    apply Hnot. rewrite <- Hid. now apply in_map.
Qed.

Lemma find_session_in (db : ChatStore M) (session_id : Z) :
  In session_id (map cs_id (chat_sessions db)) ->
  exists s, find_session db session_id = Some s.
Proof.
  intros Hin. destruct (find_session db session_id) as [s|] eqn:Hf; [eauto|].
  apply find_session_none in Hf. contradiction.
Qed.

End ChatFacts.

(** No message is left without its session, and no id is given twice: the
    four writing operations keep the chat tables well formed. *)
Theorem chat_operations_keep_references (M : Type) (empty : M) (db : Chat.ChatStore M)
  (session_id : Z) (name role content : string) (metadata : option M)
  (now created updated : Z) :
  chat_well_formed db ->
  chat_well_formed (Chat.create_chat_session db name created updated).2 /\
  chat_well_formed
    (Chat.add_message_to_session empty db session_id role content metadata now created).2 /\
  chat_well_formed (Chat.delete_chat_session db session_id).2 /\
  chat_well_formed (Chat.update_chat_session_name db session_id name now).2.
Proof.
  intros (Hs & Hsb & Hm & Hmb & Hfk). split; [|split; [|split]].
  - unfold Chat.create_chat_session.
    destruct (Chat.chat_connected db); simpl; [|repeat split; assumption].
    unfold chat_well_formed. simpl. rewrite map_app. simpl. repeat split.
    + now apply sorted_snoc.
    + apply Forall_app. split.
      * eapply List.Forall_impl; [|exact Hsb]. simpl. intros; lia.
      * repeat constructor. lia.
    + exact Hm.
    + exact Hmb.
    + eapply List.Forall_impl; [|exact Hfk]. simpl. intros m Hin.
      apply in_or_app. now left.
  - unfold Chat.add_message_to_session.
    destruct (Chat.chat_connected db); simpl; [|repeat split; assumption].
    destruct (Chat.find_session db session_id) as [s|] eqn:Hf; simpl.
    2:{ unfold chat_well_formed. simpl. repeat split; try assumption.
        eapply List.Forall_impl; [|exact Hmb]. simpl. intros; lia. }
    apply find_session_some in Hf as [Hin Hid].
    unfold chat_well_formed. simpl. rewrite map_touch_ids, map_app. simpl. repeat split.
    + exact Hs.
    + exact Hsb.
    + now apply sorted_snoc.
    + apply Forall_app. split.
      * eapply List.Forall_impl; [|exact Hmb]. simpl. intros; lia.
      * repeat constructor. lia.
    + apply Forall_app. split; [exact Hfk|]. repeat constructor. simpl.
      rewrite <- Hid. now apply in_map.
  - unfold Chat.delete_chat_session.
    destruct (Chat.chat_connected db); simpl; [|repeat split; assumption].
    destruct (Chat.find_session db session_id) as [s|] eqn:Hf; simpl;
      [|repeat split; assumption].
    unfold chat_well_formed. simpl. repeat split.
    + now apply sorted_map_filter.
    + now apply forall_map_filter.
    + now apply sorted_map_filter.
    + now apply forall_map_filter.
    + rewrite List.Forall_forall in *. intros m Hmin.
      apply filter_In in Hmin as [Hmin Hne]. apply negb_true_iff, Z.eqb_neq in Hne.
      specialize (Hfk m Hmin). apply in_map_iff in Hfk as (s' & Hid' & Hin').
      apply in_map_iff. exists s'. split; [exact Hid'|].
      apply filter_In. split; [exact Hin'|].
      apply negb_true_iff, Z.eqb_neq. congruence.
  - unfold Chat.update_chat_session_name.
    destruct (Chat.chat_connected db); simpl; [|repeat split; assumption].
    destruct (Chat.find_session db session_id) as [s|] eqn:Hf; simpl;
      [|repeat split; assumption].
    unfold chat_well_formed. simpl. rewrite map_rename_ids. repeat split; assumption.
Qed.

(** A store of two sessions, the first with two messages; metadata are
    strings here. *)
Definition two_sessions : Chat.ChatStore string :=
  {| Chat.chat_connected := true;
     Chat.chat_sessions :=
       [ {| Chat.cs_id := 1; Chat.cs_name := "first";
            Chat.cs_created_at := 10; Chat.cs_updated_at := 30 |};
         {| Chat.cs_id := 2; Chat.cs_name := "second";
            Chat.cs_created_at := 20; Chat.cs_updated_at := 20 |} ];
     Chat.chat_messages :=
       [ {| Chat.cm_id := 1; Chat.cm_session_id := 1; Chat.cm_role := "user";
            Chat.cm_content := "where is north?"; Chat.cm_metadata := "{}";
            Chat.cm_created_at := 25 |};
         {| Chat.cm_id := 2; Chat.cm_session_id := 1; Chat.cm_role := "assistant";
            Chat.cm_content := "north is up"; Chat.cm_metadata := "{}";
            Chat.cm_created_at := 30 |} ];
     Chat.next_session_id := 3;
     Chat.next_message_id := 3 |}.

(** An executor that sorts the sessions by insertion, stably, and loads the
    messages in the order of the table. *)
Fixpoint insert_session (s : Chat.ChatSession) (sorted : list Chat.ChatSession)
  : list Chat.ChatSession :=
  match sorted with
  | [] => [s]
  | t :: rest =>
      if Chat.cs_updated_at s <? Chat.cs_updated_at t then t :: insert_session s rest
      else s :: t :: rest
  end.

Lemma insert_session_perm s l : Permutation (insert_session s l) (s :: l).
Proof.
  induction l as [|t l IH]; simpl; [apply Permutation_refl|].
  destruct (Chat.cs_updated_at s <? Chat.cs_updated_at t); [|apply Permutation_refl].
  eapply Permutation_trans; [apply perm_skip, IH | apply perm_swap].
Qed.

Lemma sort_sessions_perm rows : Permutation (fold_right insert_session [] rows) rows.
Proof.
  induction rows as [|s l IH]; simpl; [apply perm_nil|].
  eapply Permutation_trans; [apply insert_session_perm | apply perm_skip, IH].
Qed.

Lemma insert_session_sorted s l :
  StronglySorted (fun a b => Chat.cs_updated_at b <= Chat.cs_updated_at a) l ->
  StronglySorted (fun a b => Chat.cs_updated_at b <= Chat.cs_updated_at a)
    (insert_session s l).
Proof.
  induction 1 as [|t l Hl IH Ht]; simpl; [repeat constructor|].
  destruct (Chat.cs_updated_at s <? Chat.cs_updated_at t) eqn:Hlt.
  - apply Z.ltb_lt in Hlt. constructor; [exact IH|].
    eapply Permutation_Forall; [apply Permutation_sym, insert_session_perm|].
    constructor; [lia | exact Ht].
  - apply Z.ltb_ge in Hlt. constructor; [constructor; assumption|].
    constructor; [lia|].
    eapply List.Forall_impl; [|exact Ht]. simpl. intros; lia.
Qed.

Lemma sort_sessions_sorted rows :
  StronglySorted (fun a b => Chat.cs_updated_at b <= Chat.cs_updated_at a)
    (fold_right insert_session [] rows).
Proof.
  induction rows as [|s l IH]; simpl; [constructor | now apply insert_session_sorted].
Qed.

Definition sample_chat_executor : Chat.ChatExecutor :=
  {| Chat.order_sessions := fold_right insert_session [];
     Chat.load_messages := fun M rows => rows;
     Chat.order_sessions_perm := sort_sessions_perm;
     Chat.order_sessions_sorted := sort_sessions_sorted;
     Chat.load_messages_perm := fun M rows => Permutation_refl rows |}.

Lemma two_sessions_well_formed : chat_well_formed two_sessions.
Proof.
  unfold chat_well_formed. simpl.
  repeat split; repeat constructor; simpl; try lia; auto.
Qed.

(** Renaming a session of the sample store keeps it well formed. *)
Lemma chat_operations_keep_references_witness :
  chat_well_formed (Chat.update_chat_session_name two_sessions 2 "renamed" 40).2.
Proof.
  apply (chat_operations_keep_references string "{}" two_sessions 2 "renamed"
           "user" "hello" None 40 41 42 two_sessions_well_formed).
Defined.

Section ChatReads.
Import Chat.
Context {M : Type} {X : ChatExecutor}.

Lemma find_snoc_old (db : ChatStore M) (s : ChatSession) (j : Z) :
  cs_id s <> j ->
  find (fun t => cs_id t =? j) (chat_sessions db ++ [s]) = find_session db j.
Proof.
  intros Hne. unfold find_session.
  induction (chat_sessions db) as [|t l IH]; simpl.
  - rewrite (proj2 (Z.eqb_neq _ _) Hne). reflexivity.
  - destruct (cs_id t =? j); [reflexivity | exact IH].
Qed.

Lemma find_snoc_new (db : ChatStore M) (s : ChatSession) :
  ~ In (cs_id s) (map cs_id (chat_sessions db)) ->
  find (fun t => cs_id t =? cs_id s) (chat_sessions db ++ [s]) = Some s.
Proof.
  induction (chat_sessions db) as [|t l IH]; simpl; intros Hnot.
  - now rewrite Z.eqb_refl.
  - rewrite (proj2 (Z.eqb_neq (cs_id t) (cs_id s))) by tauto. apply IH. tauto.
Qed.

Lemma load_messages_nil : load_messages M [] = [].
Proof. apply Permutation_nil, Permutation_sym, load_messages_perm. Qed.

End ChatReads.

(** Creating a session and reading it back.  On a well-formed, reachable
    store [create_chat_session] returns an id that no session had, and
    [get_chat_session] of that id then gives the name, no messages, and as
    [created_at] and [updated_at] the two readings of the clock that the
    defaults of the two columns take, which need not be equal; every other id
    reads as before. *)
Theorem create_chat_session_round_trip (X : Chat.ChatExecutor) (M : Type)
  (db : Chat.ChatStore M) (name : string) (created updated : Z) :
  chat_well_formed db -> Chat.chat_connected db = true ->
  let i := Chat.next_session_id db in
  let db' := (Chat.create_chat_session db name created updated).2 in
  (Chat.create_chat_session db name created updated).1 = Some i /\
  ~ In i (map Chat.cs_id (Chat.chat_sessions db)) /\
  Chat.get_chat_session db' i =
    Some {| Chat.sdt_id := i; Chat.sdt_name := name; Chat.sdt_created_at := created;
            Chat.sdt_updated_at := updated; Chat.sdt_messages := [] |} /\
  (forall j, j <> i -> Chat.get_chat_session db' j = Chat.get_chat_session db j).
Proof.
  intros (Hs & Hsb & Hm & Hmb & Hfk) Hc i db'.
  assert (Hfresh : ~ In i (map Chat.cs_id (Chat.chat_sessions db))).
  { intros Hin. rewrite List.Forall_forall in Hsb. specialize (Hsb i Hin).
    subst i. lia. }
  subst db'. unfold Chat.create_chat_session. rewrite Hc. simpl.
  split; [reflexivity|]. split; [exact Hfresh|]. split.
  - unfold Chat.get_chat_session, Chat.find_session. simpl.
    set (s := {| Chat.cs_id := Chat.next_session_id db; Chat.cs_name := name;
                 Chat.cs_created_at := created; Chat.cs_updated_at := updated |}).
    pose proof (find_snoc_new db s Hfresh) as Hfind. simpl in Hfind.
    subst i. rewrite Hfind. simpl.
    unfold Chat.messages_of. simpl.
    assert (Hnone : List.filter (fun m => Chat.cm_session_id m =? Chat.next_session_id db)
                      (Chat.chat_messages db) = []).
    { clear -Hfk Hfresh. induction Hfk as [|m l Hm _ IH]; simpl; [reflexivity|].
      destruct (Chat.cm_session_id m =? Chat.next_session_id db) eqn:Heq; [|exact IH].
      apply Z.eqb_eq in Heq. exfalso. apply Hfresh. now rewrite <- Heq. }
    rewrite Hnone, load_messages_nil. reflexivity.
  - intros j Hj. unfold Chat.get_chat_session. simpl. rewrite Hc. simpl.
    unfold Chat.find_session at 1. simpl.
    rewrite find_snoc_old by (simpl; subst i; congruence).
    reflexivity.
Qed.

(** A third session for the sample store, the clock read at 40 and at 41. *)
Lemma create_chat_session_round_trip_witness :
  (Chat.create_chat_session two_sessions "third" 40 41).1 = Some 3 /\
  Chat.get_chat_session (X := sample_chat_executor)
    (Chat.create_chat_session two_sessions "third" 40 41).2 3 =
    Some {| Chat.sdt_id := 3; Chat.sdt_name := "third"; Chat.sdt_created_at := 40;
            Chat.sdt_updated_at := 41; Chat.sdt_messages := [] |}.
Proof.
  destruct (create_chat_session_round_trip sample_chat_executor string two_sessions
              "third" 40 41 two_sessions_well_formed eq_refl) as (H1 & _ & H2 & _).
  split; [exact H1 | exact H2].
Defined.

(** Adding a message.  On a reachable store, a message for a session of the
    table gets the next message id and is appended with the role, content and
    metadata given ([None] stored as the empty dictionary) and, as its
    [created_at], the reading of the clock that the column default takes; the
    session's [updated_at] becomes the reading of the clock that the function
    takes itself, and nothing else of any session changes; the session has one
    message more and every other session the messages it had.  A message for a
    session that does not exist is refused: [None] is returned and both tables
    are as they were, but the message id that the insert drew is spent. *)
Theorem add_message_outcome (M : Type) (empty : M) (db : Chat.ChatStore M)
  (session_id : Z) (role content : string) (metadata : option M) (now created : Z) :
  Chat.chat_connected db = true ->
  let result :=
    Chat.add_message_to_session empty db session_id role content metadata now created in
  (In session_id (map Chat.cs_id (Chat.chat_sessions db)) ->
     result.1 = Some (Chat.next_message_id db) /\
     Chat.chat_messages result.2 =
       (Chat.chat_messages db ++
        [{| Chat.cm_id := Chat.next_message_id db; Chat.cm_session_id := session_id;
            Chat.cm_role := role; Chat.cm_content := content;
            Chat.cm_metadata := match metadata with Some m => m | None => empty end;
            Chat.cm_created_at := created |}])%list /\
     Chat.chat_sessions result.2 =
       map (fun s => if Chat.cs_id s =? session_id
                     then {| Chat.cs_id := Chat.cs_id s; Chat.cs_name := Chat.cs_name s;
                             Chat.cs_created_at := Chat.cs_created_at s;
                             Chat.cs_updated_at := now |}
                     else s) (Chat.chat_sessions db) /\
     Chat.next_message_id result.2 = Chat.next_message_id db + 1 /\
     Chat.next_session_id result.2 = Chat.next_session_id db /\
     length (Chat.messages_of result.2 session_id) =
       S (length (Chat.messages_of db session_id)) /\
     (forall j, j <> session_id ->
        Chat.messages_of result.2 j = Chat.messages_of db j)) /\
  (~ In session_id (map Chat.cs_id (Chat.chat_sessions db)) ->
     result =
       (None,
        {| Chat.chat_connected := Chat.chat_connected db;
           Chat.chat_sessions := Chat.chat_sessions db;
           Chat.chat_messages := Chat.chat_messages db;
           Chat.next_session_id := Chat.next_session_id db;
           Chat.next_message_id := Chat.next_message_id db + 1 |})).
Proof.
  intros Hc result. subst result. unfold Chat.add_message_to_session. rewrite Hc. simpl.
  split.
  - intros Hin. destruct (find_session_in db session_id Hin) as [s ->]. simpl.
    split; [reflexivity|]. split; [reflexivity|]. split; [reflexivity|].
    split; [reflexivity|]. split; [reflexivity|].
    unfold Chat.messages_of. simpl. split.
    + rewrite List.filter_app, length_app. simpl. rewrite Z.eqb_refl. simpl. lia.
    + intros j Hj. rewrite List.filter_app. simpl.
      rewrite (proj2 (Z.eqb_neq session_id j)) by congruence. apply app_nil_r.
  - intros Hnot. apply find_session_none in Hnot. now rewrite Hnot.
Qed.

(** A message for session 2 of the sample store, and one for session 9,
    which spends the message id 3. *)
Lemma add_message_outcome_witness :
  (Chat.add_message_to_session "{}" two_sessions 2 "user" "hello" None 40 41).1 = Some 3 /\
  Chat.next_message_id
    (Chat.add_message_to_session "{}" two_sessions 9 "user" "hello" None 40 41).2 = 4.
Proof.
  split.
  - apply (proj1 (add_message_outcome string "{}" two_sessions 2 "user" "hello" None 40 41
                    eq_refl)).
    simpl. auto.
  - rewrite (proj2 (add_message_outcome string "{}" two_sessions 9 "user" "hello" None 40 41
                      eq_refl)); [reflexivity|].
    simpl. intros [H|[H|[]]]; discriminate.
Defined.

Lemma messages_removed {M : Type} (l : list (Chat.ChatMessage M)) (i : Z) :
  List.filter (fun m => Chat.cm_session_id m =? i)
    (List.filter (fun m => negb (Chat.cm_session_id m =? i)) l) = [].
Proof.
  induction l as [|m l IH]; simpl; [reflexivity|].
  destruct (Chat.cm_session_id m =? i) eqn:Hm; simpl; [exact IH|].
  now rewrite Hm.
Qed.

Lemma messages_kept {M : Type} (l : list (Chat.ChatMessage M)) (i j : Z) :
  j <> i ->
  List.filter (fun m => Chat.cm_session_id m =? j)
    (List.filter (fun m => negb (Chat.cm_session_id m =? i)) l) =
  List.filter (fun m => Chat.cm_session_id m =? j) l.
Proof.
  intros Hj. induction l as [|m l IH]; simpl; [reflexivity|].
  destruct (Chat.cm_session_id m =? i) eqn:Hm; simpl.
  - apply Z.eqb_eq in Hm. rewrite (proj2 (Z.eqb_neq _ j)) by congruence. exact IH.
  - destruct (Chat.cm_session_id m =? j); [f_equal|]; exact IH.
Qed.

(** Deleting a session deletes its messages.  On a reachable store, deleting
    a session of the table returns true, removes the session and every message
    of it, and leaves the other sessions and their messages as they were;
    deleting an id that no session has returns false and changes nothing. *)
Theorem delete_chat_session_cascades (M : Type) (db : Chat.ChatStore M) (session_id : Z) :
  Chat.chat_connected db = true ->
  let result := Chat.delete_chat_session db session_id in
  (In session_id (map Chat.cs_id (Chat.chat_sessions db)) ->
     result.1 = true /\
     ~ In session_id (map Chat.cs_id (Chat.chat_sessions result.2)) /\
     Chat.messages_of result.2 session_id = [] /\
     Forall (fun m => Chat.cm_session_id m <> session_id) (Chat.chat_messages result.2) /\
     Chat.chat_sessions result.2 =
       List.filter (fun s => negb (Chat.cs_id s =? session_id)) (Chat.chat_sessions db) /\
     (forall j, j <> session_id ->
        Chat.messages_of result.2 j = Chat.messages_of db j)) /\
  (~ In session_id (map Chat.cs_id (Chat.chat_sessions db)) -> result = (false, db)).
Proof.
  intros Hc result. subst result. unfold Chat.delete_chat_session. rewrite Hc. simpl.
  split.
  - intros Hin. destruct (find_session_in db session_id Hin) as [s Hs]. rewrite Hs.
    apply find_session_some in Hs as [_ ->]. simpl.
    assert (Hgone : Forall (fun m => Chat.cm_session_id m <> session_id)
              (List.filter (fun m => negb (Chat.cm_session_id m =? session_id))
                 (Chat.chat_messages db))).
    { rewrite List.Forall_forall. intros m Hm. apply filter_In in Hm as [_ Hm].
      now apply negb_true_iff, Z.eqb_neq in Hm. }
    split; [reflexivity|]. split; [|split; [|split; [exact Hgone|split; [reflexivity|]]]].
    + intros Hin'. apply in_map_iff in Hin' as (t & Ht & Hin').
      apply filter_In in Hin' as [_ Hne]. apply negb_true_iff, Z.eqb_neq in Hne.
      contradiction.
    + unfold Chat.messages_of. simpl. apply messages_removed.
    + intros j Hj. unfold Chat.messages_of. simpl. now apply messages_kept.
  - intros Hnot. apply find_session_none in Hnot. now rewrite Hnot.
Qed.

(** Deleting session 1 of the sample store, with its two messages. *)
Lemma delete_chat_session_cascades_witness :
  Chat.chat_messages (Chat.delete_chat_session two_sessions 1).2 = [] /\
  Chat.delete_chat_session two_sessions 9 = (false, two_sessions).
Proof.
  split.
  - destruct (proj1 (delete_chat_session_cascades string two_sessions 1 eq_refl))
      as (_ & _ & _ & Hgone & _); [simpl; auto|].
    destruct (Chat.chat_messages (Chat.delete_chat_session two_sessions 1).2)
      as [|m l] eqn:Hm; [reflexivity|].
    exfalso. vm_compute in Hm. discriminate.
  - apply (proj2 (delete_chat_session_cascades string two_sessions 9 eq_refl)).
    simpl. intros [H|[H|[]]]; discriminate.
Defined.

(** Renaming a session.  On a reachable store, renaming a
    session of the table returns true; reading the session back gives the new
    name, the time of the call as [updated_at], and the creation time and
    messages it had; every other session reads as before.  Renaming an id
    that no session has returns false and changes nothing. *)
Theorem update_chat_session_name_reads (X : Chat.ChatExecutor) (M : Type)
  (db : Chat.ChatStore M) (session_id : Z) (new_name : string) (now : Z) :
  Chat.chat_connected db = true ->
  let result := Chat.update_chat_session_name db session_id new_name now in
  (forall d, Chat.get_chat_session db session_id = Some d ->
     result.1 = true /\
     Chat.get_chat_session result.2 session_id =
       Some {| Chat.sdt_id := Chat.sdt_id d; Chat.sdt_name := new_name;
               Chat.sdt_created_at := Chat.sdt_created_at d;
               Chat.sdt_updated_at := now;
               Chat.sdt_messages := Chat.sdt_messages d |} /\
     (forall j, j <> session_id ->
        Chat.get_chat_session result.2 j = Chat.get_chat_session db j)) /\
  (Chat.get_chat_session db session_id = None -> result = (false, db)).
Proof.
  intros Hc result. subst result.
  unfold Chat.update_chat_session_name, Chat.get_chat_session. rewrite Hc. simpl.
  assert (Hfind : forall j,
            find (fun s => Chat.cs_id s =? j)
              (map (Chat.rename session_id new_name now) (Chat.chat_sessions db)) =
            option_map (Chat.rename session_id new_name now) (Chat.find_session db j)).
  { intros j. unfold Chat.find_session.
    induction (Chat.chat_sessions db) as [|t l IH]; simpl; [reflexivity|].
    assert (Hid : Chat.cs_id (Chat.rename session_id new_name now t) = Chat.cs_id t).
    { unfold Chat.rename. now destruct (Chat.cs_id t =? session_id). }
    rewrite Hid. destruct (Chat.cs_id t =? j); [reflexivity | exact IH]. }
  split.
  - intros d Hd. destruct (Chat.find_session db session_id) as [s|] eqn:Hs; [|discriminate].
    injection Hd as <-. simpl.
    split; [reflexivity|]. split.
    + unfold Chat.find_session at 1. simpl. rewrite Hfind, Hs. simpl.
      apply find_session_some in Hs as [_ Hid].
      unfold Chat.rename. rewrite (proj2 (Z.eqb_eq _ _) Hid). reflexivity.
    + intros j Hj. unfold Chat.find_session at 1. simpl. rewrite Hfind.
      destruct (Chat.find_session db j) as [t|] eqn:Ht; simpl; [|reflexivity].
      apply find_session_some in Ht as [_ Hid].
      unfold Chat.rename. rewrite (proj2 (Z.eqb_neq _ _)) by congruence. reflexivity.
  - destruct (Chat.find_session db session_id) as [s|]; [discriminate | reflexivity].
Qed.

(** Renaming session 2 of the sample store. *)
Lemma update_chat_session_name_reads_witness :
  Chat.get_chat_session (X := sample_chat_executor)
    (Chat.update_chat_session_name two_sessions 2 "renamed" 40).2 2 =
  Some {| Chat.sdt_id := 2; Chat.sdt_name := "renamed"; Chat.sdt_created_at := 20;
          Chat.sdt_updated_at := 40; Chat.sdt_messages := [] |}.
Proof.
  apply (proj1 (update_chat_session_name_reads sample_chat_executor string two_sessions 2
                  "renamed" 40 eq_refl)
           {| Chat.sdt_id := 2; Chat.sdt_name := "second"; Chat.sdt_created_at := 20;
              Chat.sdt_updated_at := 20; Chat.sdt_messages := [] |}).
  reflexivity.
Defined.

Section ChatSummaries.
Import Chat.
Context {M : Type}.

Definition count_messages (messages : list (ChatMessage M)) (i : Z) : Z :=
  Z.of_nat (length (List.filter (fun m => cm_session_id m =? i) messages)).

Lemma count_messages_cons (m : ChatMessage M) (l : list (ChatMessage M)) (i : Z) :
  count_messages (m :: l) i =
  count_messages l i + (if cm_session_id m =? i then 1 else 0).
Proof.
  unfold count_messages. simpl. destruct (cm_session_id m =? i); simpl length; lia.
Qed.

Lemma sum_counts_cons (m : ChatMessage M) (l : list (ChatMessage M)) (ids : list Z) :
  List.NoDup ids ->
  fold_right (fun i acc => count_messages (m :: l) i + acc) 0 ids =
  fold_right (fun i acc => count_messages l i + acc) 0 ids +
  (if existsb (fun i => cm_session_id m =? i) ids then 1 else 0).
Proof.
  induction 1 as [|i ids Hi Hnd IH]; cbn [fold_right existsb]; [reflexivity|].
  rewrite IH, count_messages_cons. destruct (cm_session_id m =? i) eqn:Hm; cbn [orb].
  - apply Z.eqb_eq in Hm.
    assert (Hno : existsb (fun i0 => cm_session_id m =? i0) ids = false).
    { destruct (existsb _ ids) eqn:Hex; [|reflexivity].
      apply existsb_exists in Hex as (k & Hk & Heq). apply Z.eqb_eq in Heq.
      exfalso. apply Hi. congruence. }
    rewrite Hno. lia.
  - lia.
Qed.

Lemma sum_counts_total (messages : list (ChatMessage M)) (ids : list Z) :
  List.NoDup ids ->
  Forall (fun m => In (cm_session_id m) ids) messages ->
  fold_right (fun i acc => count_messages messages i + acc) 0 ids =
  Z.of_nat (length messages).
Proof.
  intros Hnd. induction 1 as [|m l Hm _ IH].
  - clear Hnd. induction ids as [|i ids IHids]; cbn [fold_right]; [reflexivity|].
    rewrite IHids. reflexivity.
  - rewrite sum_counts_cons by exact Hnd. rewrite IH.
    assert (Hex : existsb (fun i => cm_session_id m =? i) ids = true).
    { apply existsb_exists. exists (cm_session_id m). split; [exact Hm | apply Z.eqb_refl]. }
    rewrite Hex. cbn [length]. lia.
Qed.

Lemma sum_counts_perm (messages : list (ChatMessage M)) (ids ids' : list Z) :
  Permutation ids ids' ->
  fold_right (fun i acc => count_messages messages i + acc) 0 ids =
  fold_right (fun i acc => count_messages messages i + acc) 0 ids'.
Proof. induction 1; simpl; lia. Qed.

End ChatSummaries.

(** The list of sessions of a well-formed, reachable store: one summary per
    session, most recently updated first, each with the number of its
    messages; the numbers add up to the number of messages of the table.  An
    unreachable store lists nothing. *)
Theorem get_chat_sessions_summaries (X : Chat.ChatExecutor) (M : Type)
  (db : Chat.ChatStore M) :
  (chat_well_formed db -> Chat.chat_connected db = true ->
     let summaries := Chat.get_chat_sessions db in
     Permutation (map Chat.ss_id summaries) (map Chat.cs_id (Chat.chat_sessions db)) /\
     StronglySorted (fun a b => Chat.ss_updated_at b <= Chat.ss_updated_at a) summaries /\
     Forall (fun s => Chat.message_count s =
                      Z.of_nat (length (Chat.messages_of db (Chat.ss_id s)))) summaries /\
     fold_right (fun s acc => Chat.message_count s + acc) 0 summaries =
       Z.of_nat (length (Chat.chat_messages db))) /\
  (Chat.chat_connected db = false -> Chat.get_chat_sessions db = []).
Proof.
  split.
  - intros (Hs & _ & _ & _ & Hfk) Hc summaries. subst summaries.
    unfold Chat.get_chat_sessions. rewrite Hc. simpl.
    pose proof (Chat.order_sessions_perm (Chat.chat_sessions db)) as Hperm.
    split; [|split; [|split]].
    + rewrite map_map. simpl. now apply Permutation_map.
    + apply StronglySorted_map. simpl. apply Chat.order_sessions_sorted.
    + rewrite List.Forall_forall. intros s Hin.
      apply in_map_iff in Hin as (t & <- & _). reflexivity.
    + transitivity (fold_right (fun i acc => count_messages (Chat.chat_messages db) i + acc) 0
                      (map Chat.cs_id (Chat.order_sessions (Chat.chat_sessions db)))).
      * unfold Chat.messages_of, count_messages. clear Hperm.
        induction (Chat.order_sessions (Chat.chat_sessions db)) as [|t l IH];
          cbn [map fold_right Chat.message_count Chat.cs_id]; [reflexivity|].
        rewrite IH. reflexivity.
      * rewrite (sum_counts_perm _ _ (map Chat.cs_id (Chat.chat_sessions db)))
          by now apply Permutation_map.
        apply sum_counts_total; [now apply sorted_NoDup | exact Hfk].
  - intros Hc. unfold Chat.get_chat_sessions. now rewrite Hc.
Qed.

(** The summaries of the sample store. *)
Lemma get_chat_sessions_summaries_witness :
  fold_right (fun s acc => Chat.message_count s + acc) 0
    (Chat.get_chat_sessions (X := sample_chat_executor) two_sessions) = 2.
Proof.
  apply (proj1 (get_chat_sessions_summaries sample_chat_executor string two_sessions)
           two_sessions_well_formed eq_refl).
Defined.

(** The session last written to is listed first: after a message is added
    at a time later than every [updated_at] of the table, the first summary
    of [get_chat_sessions] is that of the message's session. *)
Theorem latest_session_first (X : Chat.ChatExecutor) (M : Type) (empty : M)
  (db : Chat.ChatStore M) (session_id : Z) (role content : string)
  (metadata : option M) (now created : Z) :
  Chat.chat_connected db = true ->
  In session_id (map Chat.cs_id (Chat.chat_sessions db)) ->
  Forall (fun s => Chat.cs_updated_at s < now) (Chat.chat_sessions db) ->
  exists first rest,
    Chat.get_chat_sessions
      (Chat.add_message_to_session empty db session_id role content metadata now
         created).2 =
      first :: rest /\
    Chat.ss_id first = session_id /\ Chat.ss_updated_at first = now.
Proof.
  intros Hc Hin Hold.
  unfold Chat.add_message_to_session. rewrite Hc. simpl.
  destruct (find_session_in db session_id Hin) as [s0 ->]. simpl.
  unfold Chat.get_chat_sessions. simpl.
  set (touched := map (Chat.touch session_id now) (Chat.chat_sessions db)).
  pose proof (Chat.order_sessions_perm touched) as Hperm.
  pose proof (Chat.order_sessions_sorted touched) as Hsorted.
  assert (Hkeys : Forall (fun s => Chat.cs_updated_at s <= now /\
                    (Chat.cs_updated_at s = now -> Chat.cs_id s = session_id)) touched).
  { subst touched. rewrite List.Forall_forall in *. intros s Hs.
    apply in_map_iff in Hs as (t & <- & Ht). specialize (Hold t Ht).
    unfold Chat.touch. destruct (Chat.cs_id t =? session_id) eqn:Hid; simpl.
    - apply Z.eqb_eq in Hid. split; [lia | auto].
    - split; [lia | intros; lia]. }
  assert (Hhas : exists s, In s touched /\ Chat.cs_updated_at s = now).
  { apply in_map_iff in Hin as (t & Hid & Ht).
    exists (Chat.touch session_id now t). split.
    - subst touched. now apply in_map.
    - unfold Chat.touch. rewrite (proj2 (Z.eqb_eq _ _) Hid). reflexivity. }
  destruct Hhas as (s & Hs & Hnow).
  destruct (Chat.order_sessions touched) as [|first rest] eqn:Hord.
  { exfalso. apply Permutation_nil in Hperm.
    rewrite Hperm in Hs. destruct Hs. }
  simpl. eexists. eexists. split; [reflexivity|]. simpl.
  assert (Hfirst : In first touched).
  { eapply Permutation_in; [exact Hperm | now left]. }
  rewrite List.Forall_forall in Hkeys. destruct (Hkeys first Hfirst) as [Hle Himp].
  assert (Hge : now <= Chat.cs_updated_at first).
  { apply (Permutation_in _ (Permutation_sym Hperm)) in Hs. destruct Hs as [<-|Hs]; [lia|].
    apply StronglySorted_inv in Hsorted as [_ Hall].
    rewrite List.Forall_forall in Hall. specialize (Hall s Hs). simpl in Hall. lia. }
  assert (Heq : Chat.cs_updated_at first = now) by lia.
  split; [now apply Himp | exact Heq].
Qed.

(** A message for session 2 of the sample store at time 40. *)
Lemma latest_session_first_witness :
  exists first rest,
    Chat.get_chat_sessions (X := sample_chat_executor)
      (Chat.add_message_to_session "{}" two_sessions 2 "user" "hello" None 40 41).2 =
      first :: rest /\
    Chat.ss_id first = 2 /\ Chat.ss_updated_at first = 40.
Proof.
  apply (latest_session_first sample_chat_executor string "{}" two_sessions 2
           "user" "hello" None 40 41).
  - reflexivity.
  - simpl. auto.
  - repeat constructor; simpl; lia.
Defined.

(** ** Properties of uploaded files and of summaries *)

Lemma existsb_eqb_In (x : string) (l : list string) :
  existsb (String.eqb x) l = true <-> In x l.
Proof.
  rewrite existsb_exists. split.
  - intros (y & Hy & Heq). apply String.eqb_eq in Heq. now subst.
  - intros Hin. exists x. split; [exact Hin | apply String.eqb_refl].
Qed.

Lemma validate_file_cases (T : Utils.FileTools) (file_content : list Byte.byte)
  (fname : string) (max_size : Z) :
  let size := Z.of_nat (length file_content) in
  let extension := Utils.suffix_lower fname in
  (max_size < size /\
   Utils.validate_file file_content fname max_size =
     Raise (ValueError ("File too large: " ++ Utils.string_of_Z size
                        ++ " bytes (max: " ++ Utils.string_of_Z max_size ++ ")"))) \/
  (size <= max_size /\ ~ In extension Utils.get_supported_file_types /\
   Utils.validate_file file_content fname max_size =
     Raise (ValueError ("Unsupported file type: " ++ extension))) \/
  (size <= max_size /\ In extension Utils.get_supported_file_types /\ file_content = [] /\
   Utils.validate_file file_content fname max_size = Raise (ValueError "File is empty")) \/
  (size <= max_size /\ In extension Utils.get_supported_file_types /\ file_content <> [] /\
   Utils.validate_file file_content fname max_size = Ok true).
Proof.
  intros size extension. subst size extension. unfold Utils.validate_file.
  destruct (max_size <? Z.of_nat (length file_content)) eqn:Hsize.
  { apply Z.ltb_lt in Hsize. left. split; [exact Hsize | reflexivity]. }
  apply Z.ltb_ge in Hsize. right.
  destruct (existsb (String.eqb (Utils.suffix_lower fname)) [".pdf"; ".docx"; ".doc"; ".txt"])
    eqn:Hext; cbn [negb].
  - apply existsb_eqb_In in Hext. right.
    destruct file_content as [|b rest].
    + left. split; [exact Hsize|]. split; [exact Hext|]. split; reflexivity.
    + right. split; [exact Hsize|]. split; [exact Hext|]. split; [discriminate|reflexivity].
  - left. split; [exact Hsize|]. split; [|reflexivity].
    intros Hin. apply existsb_eqb_In in Hin. unfold Utils.get_supported_file_types in Hin.
    congruence.
Qed.

(** What [validate_file] accepts: it returns true exactly for a file that is
    not empty, no larger than [max_size], and whose extension is one of the
    four supported; it never returns false, but raises: for a file that is too
    large first, then for an extension that is not supported, then for an
    empty file. *)
Theorem validate_file_outcome (T : Utils.FileTools) (file_content : list Byte.byte)
  (fname : string) (max_size : Z) :
  let size := Z.of_nat (length file_content) in
  let extension := Utils.suffix_lower fname in
  (Utils.validate_file file_content fname max_size = Ok true <->
     size <= max_size /\ In extension Utils.get_supported_file_types /\ file_content <> []) /\
  Utils.validate_file file_content fname max_size <> Ok false /\
  (max_size < size ->
     Utils.validate_file file_content fname max_size =
       Raise (ValueError ("File too large: " ++ Utils.string_of_Z size
                          ++ " bytes (max: " ++ Utils.string_of_Z max_size ++ ")"))) /\
  (size <= max_size -> ~ In extension Utils.get_supported_file_types ->
     Utils.validate_file file_content fname max_size =
       Raise (ValueError ("Unsupported file type: " ++ extension))) /\
  (size <= max_size -> In extension Utils.get_supported_file_types -> file_content = [] ->
     Utils.validate_file file_content fname max_size = Raise (ValueError "File is empty")).
Proof.
  intros size extension.
  destruct (validate_file_cases T file_content fname max_size)
    as [(Hs & Hv) | [(Hs & Hx & Hv) | [(Hs & Hx & He & Hv) | (Hs & Hx & He & Hv)]]];
    fold size in Hs, Hv; fold extension in Hv; try fold extension in Hx; rewrite Hv.
  - split; [split; [discriminate | intros (H & _); lia]|].
    split; [discriminate|]. split; [reflexivity|]. split; intros; lia.
  - split; [split; [discriminate | intros (_ & H & _); contradiction]|].
    split; [discriminate|]. split; [intros; lia|]. split; [reflexivity|].
    intros; contradiction.
  - split; [split; [discriminate | intros (_ & _ & H); contradiction]|].
    split; [discriminate|]. split; [intros; lia|]. split; [intros; contradiction|].
    reflexivity.
  - split; [split; [auto | reflexivity]|].
    split; [discriminate|]. split; [intros; lia|]. split; intros; contradiction.
Qed.

(** Tools for evaluation: the extension is what follows the last dot of a
    name, taken here from a table of three names. *)
Definition sample_tools : Utils.FileTools :=
  {| Utils.suffix_lower := fun fname =>
       if String.eqb fname "notes.txt" then ".txt"
       else if String.eqb fname "paper.PDF" then ".pdf"
       else if String.eqb fname "letter.doc" then ".doc"
       else "";
     Utils.extract_text_from_pdf := fun _ => Ok "text of a pdf";
     Utils.extract_text_from_docx := fun _ => Raise (ValueError "not a docx file");
     Utils.extract_text_from_txt := fun _ => Ok "hello";
     Utils.clean_text := fun s => s |}.

(** A file of two bytes named notes.txt, and the same under the name
    notes. *)
Lemma validate_file_outcome_witness :
  Utils.validate_file (T := sample_tools) [Byte.x68; Byte.x69] "notes.txt" 10 = Ok true /\
  Utils.validate_file (T := sample_tools) [Byte.x68; Byte.x69] "notes" 10 =
    Raise (ValueError "Unsupported file type: ").
Proof.
  split.
  - apply (proj1 (validate_file_outcome sample_tools [Byte.x68; Byte.x69] "notes.txt" 10)).
    simpl. repeat split; [lia | auto | discriminate].
  - apply (proj1 (proj2 (proj2 (proj2
             (validate_file_outcome sample_tools [Byte.x68; Byte.x69] "notes" 10))))).
    + simpl. lia.
    + simpl. intros [H|[H|[H|[H|[]]]]]; discriminate.
Defined.

(** A file that [validate_file] accepts is one [extract_text_from_file] has
    an extractor for: the dispatch on the extension does not raise, and the
    outcome is that of the extractor of the extension. *)
Theorem validated_file_has_extractor (T : Utils.FileTools) (file_content : list Byte.byte)
  (fname : string) (max_size : Z) :
  Utils.validate_file file_content fname max_size = Ok true ->
  let extension := Utils.suffix_lower fname in
  (extension = ".pdf" /\
   Utils.extract_text_from_file file_content fname =
     Utils.extract_text_from_pdf file_content) \/
  ((extension = ".docx" \/ extension = ".doc") /\
   Utils.extract_text_from_file file_content fname =
     Utils.extract_text_from_docx file_content) \/
  (extension = ".txt" /\
   Utils.extract_text_from_file file_content fname =
     Utils.extract_text_from_txt file_content).
Proof.
  intros Hv extension.
  destruct (validate_file_cases T file_content fname max_size)
    as [(_ & Hr) | [(_ & _ & Hr) | [(_ & _ & _ & Hr) | (_ & Hext & _)]]];
    try congruence.
  fold extension in Hext. unfold Utils.extract_text_from_file. fold extension.
  simpl in Hext. destruct Hext as [<-|[<-|[<-|[<-|[]]]]]; simpl; auto.
Qed.

(** letter.doc of one byte is accepted, and goes to the extractor of docx
    files. *)
Lemma validated_file_has_extractor_witness :
  Utils.validate_file (T := sample_tools) [Byte.x68] "letter.doc" 10 = Ok true /\
  ((Utils.suffix_lower (FileTools := sample_tools) "letter.doc" = ".pdf" /\
    Utils.extract_text_from_file (T := sample_tools) [Byte.x68] "letter.doc" =
      Utils.extract_text_from_pdf (FileTools := sample_tools) [Byte.x68]) \/
   ((Utils.suffix_lower (FileTools := sample_tools) "letter.doc" = ".docx" \/
     Utils.suffix_lower (FileTools := sample_tools) "letter.doc" = ".doc") /\
    Utils.extract_text_from_file (T := sample_tools) [Byte.x68] "letter.doc" =
      Utils.extract_text_from_docx (FileTools := sample_tools) [Byte.x68]) \/
   (Utils.suffix_lower (FileTools := sample_tools) "letter.doc" = ".txt" /\
    Utils.extract_text_from_file (T := sample_tools) [Byte.x68] "letter.doc" =
      Utils.extract_text_from_txt (FileTools := sample_tools) [Byte.x68])).
Proof.
  split; [reflexivity|].
  apply (validated_file_has_extractor sample_tools [Byte.x68] "letter.doc" 10).
  reflexivity.
Defined.

Section Uploads.
Context {T : Utils.FileTools}.

Lemma process_uploaded_file_cases (file_content : list Byte.byte) (fname : string) :
  (exists extracted,
     Utils.validate_file file_content fname Utils.default_max_size = Ok true /\
     Utils.extract_text_from_file file_content fname = Ok extracted /\
     Utils.process_uploaded_file file_content fname =
       {| Utils.text := Utils.clean_text extracted;
          Utils.metadata := Utils.get_file_metadata fname (Z.of_nat (length file_content));
          Utils.success := true; Utils.processing_error := None |}) \/
  (exists e,
     (Utils.validate_file file_content fname Utils.default_max_size = Raise e \/
      Utils.extract_text_from_file file_content fname = Raise e) /\
     Utils.process_uploaded_file file_content fname =
       {| Utils.text := ""; Utils.metadata := ∅; Utils.success := false;
          Utils.processing_error := Some (str_exn e) |}).
Proof.
  unfold Utils.process_uploaded_file.
  assert (Hnf : Utils.validate_file file_content fname Utils.default_max_size <> Ok false).
  { destruct (validate_file_cases T file_content fname Utils.default_max_size)
      as [(_ & Hr) | [(_ & _ & Hr) | [(_ & _ & _ & Hr) | (_ & _ & _ & Hr)]]];
      rewrite Hr; discriminate. }
  destruct (Utils.validate_file file_content fname Utils.default_max_size) as [[|]|e];
    simpl; [|congruence|right; eauto].
  destruct (Utils.extract_text_from_file file_content fname) as [extracted|e]; simpl.
  - left. eauto.
  - right. eauto.
Qed.

End Uploads.

(** [process_uploaded_file] never raises.  It reports success exactly when
    the file is valid and its text is extracted; the result then holds the
    cleaned text and a metadata dictionary with the filename, the size in
    bytes, the extension and an empty [processed_at].  Otherwise the text is
    empty, the metadata are empty and the error message is kept. *)
Theorem process_uploaded_file_outcome (T : Utils.FileTools)
  (file_content : list Byte.byte) (fname : string) :
  let r := Utils.process_uploaded_file file_content fname in
  (Utils.success r = true <->
     exists extracted,
       Utils.validate_file file_content fname Utils.default_max_size = Ok true /\
       Utils.extract_text_from_file file_content fname = Ok extracted) /\
  (forall extracted,
     Utils.success r = true ->
     Utils.extract_text_from_file file_content fname = Ok extracted ->
     Utils.text r = Utils.clean_text extracted /\
     Utils.processing_error r = None /\
     Utils.metadata r !! "filename" = Some (VStr fname) /\
     Utils.metadata r !! "file_size" = Some (VInt (Z.of_nat (length file_content))) /\
     Utils.metadata r !! "file_extension" = Some (VStr (Utils.suffix_lower fname)) /\
     Utils.metadata r !! "processed_at" = Some VNone) /\
  (Utils.success r = false ->
     Utils.text r = "" /\ Utils.metadata r = ∅ /\
     exists msg, Utils.processing_error r = Some msg).
Proof.
  intros r. subst r.
  destruct (process_uploaded_file_cases file_content fname)
    as [(extracted & Hv & Hx & ->) | (e & He & ->)]; simpl.
  - split; [|split].
    + split; [eauto | reflexivity].
    + intros extracted' _ Hx'. rewrite Hx in Hx'. injection Hx' as <-.
      unfold Utils.get_file_metadata. repeat split; reflexivity.
    + discriminate.
  - split; [|split].
    + split; [discriminate|]. intros (extracted & Hv & Hx).
      destruct He as [He|He]; congruence.
    + discriminate.
    + intros _. repeat split. eauto.
Qed.

(** notes.txt of two bytes. *)
Lemma process_uploaded_file_outcome_witness :
  Utils.text (Utils.process_uploaded_file (T := sample_tools)
                [Byte.x68; Byte.x69] "notes.txt") = "hello".
Proof.
  destruct (process_uploaded_file_outcome sample_tools [Byte.x68; Byte.x69] "notes.txt")
    as (_ & H & _).
  apply (H "hello"); reflexivity.
Defined.

(** The upload path keeps the filename: when the metadata of
    [process_uploaded_file] are handed to [process_and_store_document] with
    the same filename, as the upload page does, every row the ingestion adds
    is stored under that filename. *)
Theorem upload_keeps_filename (T : Utils.FileTools) (E : Executor) (P : Providers)
  (db : Session) (heap : Heap) (file_content : list Byte.byte) (fname : string) :
  let processed := Utils.process_uploaded_file file_content fname in
  Utils.success processed = true ->
  exists added,
    documents (process_and_store_document db heap (Utils.text processed) fname
                 (Some (Utils.metadata processed))).1.2 =
      (documents db ++ added)%list /\
    Forall (fun d => filename d = fname) added.
Proof.
  intros processed Hs.
  destruct (ingest_effective_filename db heap (Utils.text processed) fname
              (Some (Utils.metadata processed))) as (added & Hdocs & Hall).
  exists added. split; [exact Hdocs|].
  assert (Hmd : Utils.metadata processed !! "filename" = Some (VStr fname)).
  { subst processed.
    destruct (process_uploaded_file_cases file_content fname)
      as [(extracted & _ & _ & Hr) | (e & _ & Hr)]; rewrite Hr in *; simpl in *;
      [reflexivity | discriminate]. }
  eapply List.Forall_impl; [|exact Hall]. simpl. intros d Hd.
  unfold effective_filename in Hd. rewrite Hmd in Hd. simpl in Hd. congruence.
Qed.

(** notes.txt uploaded into the table of three rows. *)
Lemma upload_keeps_filename_witness :
  Utils.success (Utils.process_uploaded_file (T := sample_tools)
                   [Byte.x68; Byte.x69] "notes.txt") = true /\
  exists added,
    documents
      (process_and_store_document (E := Samples.stable_executor)
         (P := Samples.sample_providers) Samples.three_rows []
         (Utils.text (Utils.process_uploaded_file (T := sample_tools)
                        [Byte.x68; Byte.x69] "notes.txt"))
         "notes.txt"
         (Some (Utils.metadata (Utils.process_uploaded_file (T := sample_tools)
                                  [Byte.x68; Byte.x69] "notes.txt")))).1.2 =
      (documents Samples.three_rows ++ added)%list /\
    Forall (fun d => filename d = "notes.txt") added.
Proof.
  split; [reflexivity|].
  apply (upload_keeps_filename sample_tools Samples.stable_executor
           Samples.sample_providers Samples.three_rows []
           [Byte.x68; Byte.x69] "notes.txt").
  reflexivity.
Defined.

(** What [summarize_document] does without summarising.  On a reachable
    store a filename without chunks gives the answer that no document was
    found, without success, and the chain is not run; an unreachable store
    gives a failure, and the chain is not run either.  Success means that the
    store was reached, the filename had a chunk, and the chain was run
    once. *)
Theorem summarize_document_outcome (U : Summaries.Summarizer) (db : Session)
  (chain_log : list (list string)) (fname : string) :
  let result := Summaries.summarize_document db chain_log fname in
  (connected db = true -> (forall d, In d (documents db) -> filename d <> fname) ->
     result =
       ({| Summaries.summary := "No document found with filename: " ++ fname;
           Summaries.summary_success := false;
           Summaries.intermediate_steps := None |}, chain_log)) /\
  (connected db = false ->
     Summaries.summary_success result.1 = false /\ result.2 = chain_log) /\
  (Summaries.summary_success result.1 = true ->
     connected db = true /\ (exists d, In d (documents db) /\ filename d = fname) /\
     exists docs, result.2 = docs :: chain_log).
Proof.
  intros result. subst result. unfold Summaries.summarize_document, query_by_filename.
  destruct (connected db); simpl.
  - destruct (List.filter (fun d => bool_decide (filename d = fname)) (documents db))
      as [|c chunks] eqn:Hf.
    + split; [reflexivity|]. split; [discriminate|]. discriminate.
    + assert (Hin : In c (List.filter (fun d => bool_decide (filename d = fname))
                            (documents db))) by (rewrite Hf; now left).
      apply filter_In in Hin as [Hin Hname]. apply bool_decide_eq_true in Hname.
      split; [|split; [discriminate|]].
      * intros _ Hnone. exfalso. exact (Hnone c Hin Hname).
      * destruct (Summaries.create_documents _) as [docs|e]; simpl; [|discriminate].
        destruct (Summaries.run_chain docs) as [[output steps]|e]; simpl; [|discriminate].
        intros _. repeat split; eauto.
  - split; [discriminate|]. split; [auto | discriminate].
Qed.

(** A chain that answers with the number of documents it was given is not
    asked about ghost.txt. *)
Definition sample_summarizer : Summaries.Summarizer :=
  {| Summaries.create_documents := fun full_content => Ok [full_content];
     Summaries.run_chain := fun docs => Ok ("a summary", docs) |}.

Lemma summarize_document_outcome_witness :
  Summaries.summarize_document (U := sample_summarizer) Samples.three_rows [] "ghost.txt" =
  ({| Summaries.summary := "No document found with filename: ghost.txt";
      Summaries.summary_success := false;
      Summaries.intermediate_steps := None |}, []).
Proof.
  apply (proj1 (summarize_document_outcome sample_summarizer Samples.three_rows []
                  "ghost.txt")).
  - reflexivity.
  - intros d Hd. simpl in Hd. destruct Hd as [<-|[<-|[<-|[]]]]; simpl; discriminate.
Defined.
